(** * The simdjson amalgamation script ([singleheader/amalgamate.py])

    A shallow embedding of the script's file registry, classifier,
    include bookkeeping, line-by-line writer and dependency validator,
    followed by the properties established about them.

    Conventions of the embedding:
    - a Python [str] is a [string]; a character is a code point below 256;
    - a [SimdjsonFile] object is identified by its [include_path] (the
      repository memoises one object per path, and objects are compared
      by identity), so references between files are paths;
    - the [files] dict of the repository is an association list in
      insertion order, which is the order Python iterates it in;
    - a Python [set] of files is a [gset string];
    - the source tree is a finite table from (root, path) to lines;
    - an [assert] that fails, or any other exception, aborts the run: a
      computation returns an error or a value, together with the state
      as mutated so far. *)

From stdpp Require Import gmap strings list.
From Stdlib Require Import Ascii String.

Open Scope string_scope.

(** ** Python string and path primitives *)

Module Py.

(** [str.isspace] on one character, which is also what [\s] matches. *)
Definition isspace (c : ascii) : bool :=
  let n := nat_of_ascii c in
  (((9 <=? n) && (n <=? 13)) || ((28 <=? n) && (n <=? 32))
   || (n =? 133) || (n =? 160))%nat.

(** What [\w] matches: alphanumeric characters and the underscore. *)
Definition isalnum (c : ascii) : bool :=
  let n := nat_of_ascii c in
  (((48 <=? n) && (n <=? 57)) || ((65 <=? n) && (n <=? 90))
   || ((97 <=? n) && (n <=? 122))
   || (n =? 170) || (n =? 178) || (n =? 179) || (n =? 181) || (n =? 185)
   || (n =? 186) || ((188 <=? n) && (n <=? 190))
   || ((192 <=? n) && (n <=? 214)) || ((216 <=? n) && (n <=? 246))
   || (248 <=? n))%nat.

Definition isword (c : ascii) : bool := isalnum c || (c =? "_")%char.

(** [removeprefix p s] is [Some r] when [s = p ++ r]. *)
Fixpoint removeprefix (p s : string) : option string :=
  match p, s with
  | EmptyString, _ => Some s
  | String a p', String b s' =>
      if (a =? b)%char then removeprefix p' s' else None
  | String _ _, EmptyString => None
  end.

Definition startswith (s p : string) : bool :=
  match removeprefix p s with Some _ => true | None => false end.

(** [split_last_slash p] cuts [p] after its last slash: the head keeps
    the slash; the head is [None] when [p] has no slash. *)
Fixpoint split_last_slash (p : string) : option string * string :=
  match p with
  | EmptyString => (None, EmptyString)
  | String c r =>
      match split_last_slash r with
      | (Some h, t) => (Some (String c h), t)
      | (None, t) =>
          if (c =? "/")%char then (Some "/", t) else (None, String c t)
      end
  end.

Fixpoint all_slashes (s : string) : bool :=
  match s with
  | EmptyString => true
  | String c r => (c =? "/")%char && all_slashes r
  end.

(** [s.rstrip('/')] *)
Fixpoint rstrip_slashes (s : string) : string :=
  match s with
  | EmptyString => EmptyString
  | String c r =>
      let r' := rstrip_slashes r in
      if (c =? "/")%char && (r' =? EmptyString) then EmptyString else String c r'
  end.

(** [posixpath.dirname] *)
Definition dirname (p : string) : string :=
  match fst (split_last_slash p) with
  | None => EmptyString
  | Some head => if all_slashes head then head else rstrip_slashes head
  end.

(** [posixpath.basename] *)
Definition basename (p : string) : string := snd (split_last_slash p).

End Py.

(** ** Constants of the script *)

Inductive RelativeRoot := src | include.

Inductive Implementation :=
  arm64 | fallback | haswell | icelake | ppc64 | westmere.

Definition IMPLEMENTATIONS : list Implementation :=
  [arm64; fallback; haswell; icelake; ppc64; westmere].

Definition implementation_name (i : Implementation) : string :=
  match i with
  | arm64 => "arm64" | fallback => "fallback" | haswell => "haswell"
  | icelake => "icelake" | ppc64 => "ppc64" | westmere => "westmere"
  end.

Definition root_name (r : RelativeRoot) : string :=
  match r with src => "src" | include => "include" end.

Definition BUILTIN_BEGIN_H : string := "simdjson/builtin/begin.h".
Definition BUILTIN_END_H : string := "simdjson/builtin/end.h".
Definition IMPLEMENTATION_DETECTION_H : string :=
  "simdjson/implementation_detection.h".

Global Instance RelativeRoot_eq_dec : EqDecision RelativeRoot.
Proof. solve_decision. Defined.

Global Instance Implementation_eq_dec : EqDecision Implementation.
Proof. solve_decision. Defined.

(** ** Classifier: the path-driven properties of [SimdjsonFile] *)

(** Truthiness of an optional value that is never falsy when present. *)
Definition is_Some_b {A} (o : option A) : bool :=
  match o with Some _ => true | None => false end.

Definition is_generic (include_path : string) : bool :=
  Py.startswith include_path "generic/"
  || Py.startswith include_path "simdjson/generic/".

Definition include_dir (include_path : string) : string :=
  Py.dirname include_path.

Definition filename (include_path : string) : string :=
  Py.basename include_path.

(** The alternation [(arm64|fallback|...)] tried at the head of [s]. *)
Definition match_implementation_at (s : string) : option Implementation :=
  List.find (fun i => Py.startswith s (implementation_name i)) IMPLEMENTATIONS.

(** The leftmost slash of [s] that is followed by an implementation. *)
Fixpoint search_slash_implementation (s : string) : option Implementation :=
  match s with
  | EmptyString => None
  | String c r =>
      if (c =? "/")%char then
        match match_implementation_at r with
        | Some i => Some i
        | None => search_slash_implementation r
        end
      else search_slash_implementation r
  end.

(** [re.search('(^|/)(arm64|...|westmere)', include_path)], group 2. *)
Definition implementation (include_path : string) : option Implementation :=
  match match_implementation_at include_path with
  | Some i => Some i
  | None => search_slash_implementation include_path
  end.

Definition is_free_dependency_file (include_path : string) : bool :=
  filename include_path =? "dependencies.h".

(** The path that the property [free_dependency_file] looks up in the
    repository, [None] where the property returns [None] outright. *)
Definition free_dependency_path (include_path : string) : option string :=
  if is_free_dependency_file include_path then None
  else if is_Some_b (implementation include_path) then
    if include_dir include_path =? EmptyString then Some "generic/dependencies.h"
    else if filename include_path =? "ondemand.h"
         then Some "simdjson/generic/ondemand/dependencies.h"
         else Some "simdjson/generic/dependencies.h"
  else if is_generic include_path
       then Some (include_dir include_path ++ "/dependencies.h")
       else None.

Definition is_amalgamator (root : RelativeRoot) (include_path : string) : bool :=
  if is_Some_b (implementation include_path) then
    bool_decide (root = src) || (include_dir include_path =? "simdjson")
    || (filename include_path =? "ondemand.h")
    || (filename include_path =? "implementation.h")
  else filename include_path =? "amalgamated.h".

(** Whether the file is a free dependency, as a function of its path:
    the value of the property [is_free_dependency] whenever the
    repository lookup it performs succeeds. *)
Definition free_dependency_by_path (include_path : string) : bool :=
  match free_dependency_path include_path with
  | None => true
  | Some _ => false
  end.

(** ** The regular expressions of the writer

    Each pattern of [write_file] is written out as the matcher it
    denotes.  [re.search] with a leading [^] only tries position 0; [$]
    matches at the end of the string or before a final newline. *)

Module Re.

Definition dquote : ascii := "034"%char.
Definition newline : ascii := "010"%char.
Definition backslash : ascii := "092"%char.

(** The longest run of [\s] at the head of [s], removed. *)
Fixpoint skip_spaces (s : string) : string :=
  match s with
  | String c r => if Py.isspace c then skip_spaces r else s
  | EmptyString => s
  end.

(** [\s+] before a character that is not white space. *)
Definition spaces1 (s : string) : option string :=
  match s with
  | String c r => if Py.isspace c then Some (skip_spaces r) else None
  | EmptyString => None
  end.

(** [\s*$] *)
Fixpoint all_spaces (s : string) : bool :=
  match s with
  | String c r => Py.isspace c && all_spaces r
  | EmptyString => true
  end.

(** [^<keyword>\s+<macro>\s*$] *)
Definition directive (keyword macro line : string) : bool :=
  match Py.removeprefix keyword line with
  | Some r =>
      match spaces1 r with
      | Some r =>
          match Py.removeprefix macro r with
          | Some r => all_spaces r
          | None => false
          end
      | None => false
      end
  | None => false
  end.

(** [^#ifndef\s+SIMDJSON_AMALGAMATED\s*$] *)
Definition ifndef_amalgamated : string -> bool :=
  directive "#ifndef" "SIMDJSON_AMALGAMATED".

(** [^#define\s+SIMDJSON_AMALGAMATED\s*$] *)
Definition define_amalgamated : string -> bool :=
  directive "#define" "SIMDJSON_AMALGAMATED".

(** [^#undef\s+SIMDJSON_AMALGAMATED\s*$] *)
Definition undef_amalgamated : string -> bool :=
  directive "#undef" "SIMDJSON_AMALGAMATED".

(** [^#undef\s+SIMDJSON_IMPLEMENTATION\s*$] *)
Definition undef_implementation : string -> bool :=
  directive "#undef" "SIMDJSON_IMPLEMENTATION".

(** [^#endif\s*//\s*SIMDJSON_AMALGAMATED\s*$] *)
Definition endif_amalgamated (line : string) : bool :=
  match Py.removeprefix "#endif" line with
  | Some r =>
      match Py.removeprefix "//" (skip_spaces r) with
      | Some r =>
          match Py.removeprefix "SIMDJSON_AMALGAMATED" (skip_spaces r) with
          | Some r => all_spaces r
          | None => false
          end
      | None => false
      end
  | None => false
  end.

(** The group of the include pattern: the text up to the next double
    quote, which has to be there. *)
Fixpoint until_dquote (s : string) : option string :=
  match s with
  | EmptyString => None
  | String c r =>
      if (c =? dquote)%char then Some EmptyString
      else option_map (String c) (until_dquote r)
  end.

(** The include pattern: [^#include ], a double quote, any characters
    but a double quote (group 1), a double quote. *)
Definition included (line : string) : option string :=
  match Py.removeprefix ("#include " ++ String dquote EmptyString) line with
  | Some r => until_dquote r
  | None => None
  end.

(** Any characters but a newline (the group), then [$]: everything up
    to the end, or up to a final newline. *)
Fixpoint dot_star_eol (s : string) : option string :=
  match s with
  | EmptyString => Some EmptyString
  | String c r =>
      if (c =? newline)%char
      then if r =? EmptyString then Some EmptyString else None
      else option_map (String c) (dot_star_eol r)
  end.

(** The same with at least one character in the group. *)
Definition dot_plus_eol (s : string) : option string :=
  match dot_star_eol s with
  | Some EmptyString => None
  | o => o
  end.

(** White space, then a group of at least one character, then [$]: the
    greedy white space gives characters back when the group is empty. *)
Fixpoint spaces_dot_plus_eol (s : string) : option string :=
  match s with
  | String c r =>
      if Py.isspace c then
        match spaces_dot_plus_eol r with
        | Some v => Some v
        | None => dot_plus_eol s
        end
      else dot_plus_eol s
  | EmptyString => None
  end.

(** [^#define\s+SIMDJSON_IMPLEMENTATION\s+] followed by a group of at
    least one character and [$]; the result is the group. *)
Definition define_implementation (line : string) : option string :=
  match Py.removeprefix "#define" line with
  | Some r =>
      match spaces1 r with
      | Some r =>
          match Py.removeprefix "SIMDJSON_IMPLEMENTATION" r with
          | Some (String c r) =>
              if Py.isspace c then spaces_dot_plus_eol r else None
          | _ => None
          end
      | None => None
      end
  | None => None
  end.

Definition TOKEN : string := "SIMDJSON_IMPLEMENTATION".

(** The token at the head of [s], followed by a word boundary. *)
Definition token_at (s : string) : bool :=
  match Py.removeprefix TOKEN s with
  | Some (String c _) => negb (Py.isword c)
  | Some EmptyString => true
  | None => false
  end.

Fixpoint search_token_from (prev_word : bool) (s : string) : bool :=
  match s with
  | EmptyString => false
  | String c r =>
      (negb prev_word && token_at s) || search_token_from (Py.isword c) r
  end.

(** [re.search(r'\bSIMDJSON_IMPLEMENTATION\b', line)] *)
Definition search_token (line : string) : bool :=
  search_token_from false line.

(** Replaces the matches of the token left to right; [skip] counts the
    characters of a match that are still to be dropped. *)
Fixpoint sub_token_from (repl : string) (prev_word : bool) (skip : nat)
    (s : string) : string :=
  match s with
  | EmptyString => EmptyString
  | String c r =>
      match skip with
      | S k => sub_token_from repl true k r
      | O =>
          if negb prev_word && token_at s
          then repl ++ sub_token_from repl true 22 r
          else String c (sub_token_from repl (Py.isword c) 0 r)
      end
  end.

(** *** The replacement template of [re.sub]

    [re.sub] reads its replacement as a template: backslash escapes are
    processed before the text is inserted.  The pattern has no capture
    group, so the only group a template may refer to is group 0, the
    match, which is always the token.  [None] stands for the exception
    raised on a bad template. *)

Definition is_octdigit (c : ascii) : bool :=
  ((48 <=? nat_of_ascii c) && (nat_of_ascii c <=? 55))%nat.

Definition is_digit (c : ascii) : bool :=
  ((48 <=? nat_of_ascii c) && (nat_of_ascii c <=? 57))%nat.

Definition is_ascii_letter (c : ascii) : bool :=
  (((65 <=? nat_of_ascii c) && (nat_of_ascii c <=? 90))
   || ((97 <=? nat_of_ascii c) && (nat_of_ascii c <=? 122)))%nat.

Definition octval (c : ascii) : nat := nat_of_ascii c - 48.

(** The single-character escapes: a, b, f, n, r, t, v and the backslash. *)
Definition escape (c : ascii) : option ascii :=
  if (c =? "a")%char then Some "007"%char
  else if (c =? "b")%char then Some "008"%char
  else if (c =? "f")%char then Some "012"%char
  else if (c =? "n")%char then Some "010"%char
  else if (c =? "r")%char then Some "013"%char
  else if (c =? "t")%char then Some "009"%char
  else if (c =? "v")%char then Some "011"%char
  else if (c =? backslash)%char then Some backslash
  else None.

Inductive template_mode :=
  | Literal
  | GroupName (nonempty : bool).

(** In [GroupName] the text after [\g<] is read up to [>]; the name
    must denote group 0, that is, be a run of zeros. *)
Fixpoint expand_template_from (mode : template_mode) (s : string)
    : option string :=
  match mode, s with
  | GroupName nonempty, String c r =>
      if (c =? ">")%char then
        if nonempty
        then option_map (append TOKEN) (expand_template_from Literal r)
        else None
      else if (c =? "0")%char then expand_template_from (GroupName true) r
      else None
  | GroupName _, EmptyString => None
  | Literal, EmptyString => Some EmptyString
  | Literal, String c r =>
      if (c =? backslash)%char then
        match r with
        | EmptyString => None
        | String e r1 =>
            if (e =? "g")%char then
              match r1 with
              | String lt r2 =>
                  if (lt =? "<")%char
                  then expand_template_from (GroupName false) r2
                  else None
              | EmptyString => None
              end
            else if (e =? "0")%char then
              match r1 with
              | String d1 r2 =>
                  if is_octdigit d1 then
                    match r2 with
                    | String d2 r3 =>
                        if is_octdigit d2 then
                          option_map
                            (String (ascii_of_nat (octval d1 * 8 + octval d2)))
                            (expand_template_from Literal r3)
                        else
                          option_map (String (ascii_of_nat (octval d1)))
                            (expand_template_from Literal r2)
                    | EmptyString => Some (String (ascii_of_nat (octval d1)) EmptyString)
                    end
                  else option_map (String zero) (expand_template_from Literal r1)
              | EmptyString => Some (String zero EmptyString)
              end
            else if is_digit e then
              match r1 with
              | String d1 (String d2 r3) =>
                  if is_octdigit e && is_octdigit d1 && is_octdigit d2 then
                    let v := octval e * 64 + octval d1 * 8 + octval d2 in
                    if (255 <? v)%nat then None
                    else option_map (String (ascii_of_nat v))
                           (expand_template_from Literal r3)
                  else None
              | _ => None
              end
            else
              match escape e with
              | Some ch => option_map (String ch) (expand_template_from Literal r1)
              | None =>
                  if is_ascii_letter e then None
                  else option_map (fun t => String c (String e t))
                         (expand_template_from Literal r1)
              end
        end
      else option_map (String c) (expand_template_from Literal r)
  end.

Definition expand_template (repl : string) : option string :=
  expand_template_from Literal repl.

(** [re.sub(r'\bSIMDJSON_IMPLEMENTATION\b', repl, line)] *)
Definition sub_token (repl line : string) : option string :=
  match expand_template repl with
  | Some text => Some (sub_token_from text false 0 line)
  | None => None
  end.

End Re.

(** ** Data model *)

(** One [SimdjsonFile] object; other files are referred to by path. *)
Record SimdjsonFile := {
  root : RelativeRoot;
  include_path : string;
  includes : list string;
  included_from : gset string;
  editor_only_includes : list string;
  editor_only_included_from : gset string;
  processed : option bool;
}.

(** [SimdjsonRepository]: [files] in insertion order. *)
Record SimdjsonRepository := {
  relative_roots : list RelativeRoot;
  files : list SimdjsonFile;
}.

(** The source tree under the project path: the regular files that
    exist below each root, with their lines as the writer iterates
    them (the text between line ends). *)
Definition Disk : Type := list (RelativeRoot * string * list string).

(** The failed assertions and other exceptions of the script, each with
    the values its message is built from. *)
Inductive Error :=
  | ExistsInBothRoots
  | NotFoundInRoots (filename : string) (roots : list RelativeRoot)
  | IncludesAmalgamatedFile (self included : string)
  | IncludesWithoutIfndef (self included : string)
  | EditorOnlyInNonAmalgamatedFile (self : string)
  | EditorOnlyIncludesWithoutIfndef (self included : string)
  | NotIncludedFromDependencies (file editor_only_include self : string)
  | UnnecessaryIncludes (self : string) (extra_include_set : gset string)
  | GenericIncludedTwice (file : string) (including_file : option string)
      (variant : option string)
  | NoImplementation (file : string)
  | CyclicInclude (include_stack : list string) (file : string)
  | CannotOpen (file : string)
  | BuiltinBeginMisplaced
  | EditorOnlyRegionOpen
  | IfndefInNonAmalgamatedFile (file : string)
  | IfndefWithoutDefine (file : string) (include_stack : list string)
  | IfndefTwice (file : string)
  | EndifWithoutIfndef (file : string)
  | UseOfUndefinedImplementation (file line : string)
  | BadReplacementTemplate (template : string)
  | DefineInAmalgamatedFile
  | RedefinesAmalgamated (file : string)
  | UndefInAmalgamatedFile
  | UndefinesAmalgamatedWithoutDefine (file : string)
  | EndedWithoutEndif (file : string)
  | BuiltinImplementationNotSet
  | ImplementationStillDefined
  | DictionaryChangedSize
  | OutOfFuel.

(** The call site of [write] that printed a line of the output. *)
Inductive Origin :=
  | OTimestamp
  | OSkippedDuplicate
  | OIncluding (file : string) (variant : option string)
  | OBeginFile (file : string) (variant : option string)
  | OEndFile (file : string) (variant : option string)
  | OEditorOnly
  | ODefiningImplementation
  | ORedefiningImplementation
  | OUndefiningImplementation
  | ODefiningAmalgamated
  | OUndefiningAmalgamated
  | OSourceLine.

(** The state of an [Amalgamator].  [fid] holds the lines printed so
    far, each with its call site; the text of the output file is the
    second components.  [active_implementation] is the attribute
    [self.implementation]. *)
Record Amalgamator := {
  fid : list (Origin * string);
  repository : SimdjsonRepository;
  builtin_implementation : bool;
  active_implementation : option string;
  found_includes : gset string;
  found_includes_per_amalgamation : gset string;
  found_generic_includes : list (string * string);
  amalgamated_defined : bool;
  editor_only_region : bool;
  include_stack : list string;
}.

Global Instance Origin_eq_dec : EqDecision Origin.
Proof. solve_decision. Defined.

(** ** Computations that may raise

    A computation over a state [S] returns an error or a value, and the
    state reached: an exception does not undo the mutations before it. *)

Definition M (S A : Type) : Type := S -> (Error + A) * S.

Definition ret {S A} (x : A) : M S A := fun s => (inr x, s).

Definition bind {S A B} (m : M S A) (k : A -> M S B) : M S B :=
  fun s =>
    match m s with
    | (inr x, s') => k x s'
    | (inl e, s') => (inl e, s')
    end.

Definition raise {S A} (e : Error) : M S A := fun s => (inl e, s).

Definition get {S} : M S S := fun s => (inr s, s).

Definition modify {S} (f : S -> S) : M S unit := fun s => (inr tt, f s).

Definition assert {S} (b : bool) (e : Error) : M S unit :=
  if b then ret tt else raise e.

Definition when {S} (b : bool) (m : M S unit) : M S unit :=
  if b then m else ret tt.

Declare Scope amal_scope.
Delimit Scope amal_scope with amal.
Notation "x <- c ;; k" := (bind c (fun x => k))
  (at level 100, c at next level, k at level 200, right associativity)
  : amal_scope.
Notation "c ;; k" := (bind c (fun _ => k))
  (at level 100, k at level 200, right associativity) : amal_scope.
Open Scope amal_scope.

(** A method of the repository run on the amalgamator's repository. *)
Definition on_repository {A} (m : M SimdjsonRepository A) : M Amalgamator A :=
  fun a =>
    match m (repository a) with
    | (r, repo) =>
        (r, {| fid := fid a; repository := repo;
               builtin_implementation := builtin_implementation a;
               active_implementation := active_implementation a;
               found_includes := found_includes a;
               found_includes_per_amalgamation := found_includes_per_amalgamation a;
               found_generic_includes := found_generic_includes a;
               amalgamated_defined := amalgamated_defined a;
               editor_only_region := editor_only_region a;
               include_stack := include_stack a |})
    end.

(** ** The repository and the methods of [SimdjsonFile] *)

Fixpoint foldM {S A B} (f : A -> B -> M S A) (l : list B) (a : A) : M S A :=
  match l with
  | [] => ret a
  | x :: l' => a' <- f a x ;; foldM f l' a'
  end.

Definition new_file (r : RelativeRoot) (path : string) : SimdjsonFile :=
  {| root := r; include_path := path; includes := [];
     included_from := ∅; editor_only_includes := [];
     editor_only_included_from := ∅; processed := None |}.

Definition lookup_file (repo : SimdjsonRepository) (path : string)
    : option SimdjsonFile :=
  List.find (fun f => include_path f =? path) (files repo).

(** [__contains__] *)
Definition contains (repo : SimdjsonRepository) (path : string) : bool :=
  is_Some_b (lookup_file repo path).

(** Reading an attribute of the object at [path].  A path is handed out
    only once its object is in [files], so the default is never used. *)
Definition attribute {A} (proj : SimdjsonFile -> A) (default : A)
    (repo : SimdjsonRepository) (path : string) : A :=
  match lookup_file repo path with
  | Some f => proj f
  | None => default
  end.

Definition update_file (path : string) (f : SimdjsonFile -> SimdjsonFile)
    : M SimdjsonRepository unit :=
  modify (fun repo =>
    {| relative_roots := relative_roots repo;
       files := map (fun x => if include_path x =? path then f x else x)
                  (files repo) |}).

Definition append_file (x : SimdjsonFile) : M SimdjsonRepository unit :=
  modify (fun repo =>
    {| relative_roots := relative_roots repo; files := files repo ++ [x] |}).

Section WithDisk.

Context (disk : Disk).

Definition disk_find (r : RelativeRoot) (path : string) : option (list string) :=
  match List.find (fun e => bool_decide (e.1.1 = r) && (e.1.2 =? path)) disk with
  | Some e => Some e.2
  | None => None
  end.

(** [os.path.exists] of the path below a root. *)
Definition path_exists (r : RelativeRoot) (path : string) : bool :=
  is_Some_b (disk_find r path).

(** The loop of [_included_filename_root]. *)
Fixpoint included_filename_root_loop (roots : list RelativeRoot)
    (filename : string) (result : option RelativeRoot)
    : Error + option RelativeRoot :=
  match roots with
  | [] => inr result
  | relative_root :: roots' =>
      if path_exists relative_root filename then
        match result with
        | None => included_filename_root_loop roots' filename (Some relative_root)
        | Some _ => inl ExistsInBothRoots
        end
      else included_filename_root_loop roots' filename result
  end.

Definition included_filename_root (filename : string)
    : M SimdjsonRepository RelativeRoot :=
  self <- get ;;
  match included_filename_root_loop (relative_roots self) filename None with
  | inl e => raise e
  | inr (Some r) => ret r
  | inr None => raise (NotFoundInRoots filename (relative_roots self))
  end.

(** [__getitem__]: the object at the path, created on first use. *)
Definition getitem (path : string) : M SimdjsonRepository string :=
  self <- get ;;
  if contains self path then ret path
  else
    r <- included_filename_root path ;;
    append_file (new_file r path) ;;
    ret path.

Definition free_dependency_file (self : string)
    : M SimdjsonRepository (option string) :=
  match free_dependency_path self with
  | None => ret None
  | Some p => f <- getitem p ;; ret (Some f)
  end.

Definition is_free_dependency (self : string) : M SimdjsonRepository bool :=
  f <- free_dependency_file self ;; ret (negb (is_Some_b f)).

Definition is_amalgamated (self : string) : M SimdjsonRepository bool :=
  b <- is_free_dependency self ;; ret (negb b).

Definition file_is_amalgamator (repo : SimdjsonRepository) (self : string) : bool :=
  is_amalgamator (attribute root include repo self) self.

Definition add_include (self included : string) : M SimdjsonRepository unit :=
  self_free <- is_free_dependency self ;;
  (if self_free then
     included_free <- is_free_dependency included ;;
     repo <- get ;;
     assert (included_free || file_is_amalgamator repo included)
       (IncludesAmalgamatedFile self included)
   else
     included_free <- is_free_dependency included ;;
     assert (negb included_free) (IncludesWithoutIfndef self included)) ;;
  update_file self (fun f =>
    {| root := root f; include_path := include_path f;
       includes := includes f ++ [included];
       included_from := included_from f;
       editor_only_includes := editor_only_includes f;
       editor_only_included_from := editor_only_included_from f;
       processed := processed f |}) ;;
  update_file included (fun f =>
    {| root := root f; include_path := include_path f;
       includes := includes f;
       included_from := {[self]} ∪ included_from f;
       editor_only_includes := editor_only_includes f;
       editor_only_included_from := editor_only_included_from f;
       processed := processed f |}).

Definition add_editor_only_include (self included : string)
    : M SimdjsonRepository unit :=
  amalgamated <- is_amalgamated self ;;
  assert amalgamated (EditorOnlyInNonAmalgamatedFile self) ;;
  included_free <- is_free_dependency included ;;
  when included_free
    (f <- free_dependency_file self ;;
     assert (is_Some_b f) (EditorOnlyIncludesWithoutIfndef self included)) ;;
  update_file self (fun f =>
    {| root := root f; include_path := include_path f;
       includes := includes f;
       included_from := included_from f;
       editor_only_includes := editor_only_includes f ++ [included];
       editor_only_included_from := editor_only_included_from f;
       processed := processed f |}) ;;
  update_file included (fun f =>
    {| root := root f; include_path := include_path f;
       includes := includes f;
       included_from := included_from f;
       editor_only_includes := editor_only_includes f;
       editor_only_included_from := {[self]} ∪ editor_only_included_from f;
       processed := processed f |}).

(** Iterating over [files]: the iterator raises as soon as it finds,
    when asked for the next object, that the dict has changed size. *)
Fixpoint iterate_files {A} (size : nat) (body : A -> string -> M SimdjsonRepository A)
    (paths : list string) (a : A) : M SimdjsonRepository A :=
  repo <- get ;;
  if negb (List.length (files repo) =? size)%nat then raise DictionaryChangedSize
  else
    match paths with
    | [] => ret a
    | file :: paths' =>
        a' <- body a file ;; iterate_files size body paths' a'
    end.

Definition for_each_file {A} (body : A -> string -> M SimdjsonRepository A)
    (a : A) : M SimdjsonRepository A :=
  repo <- get ;;
  iterate_files (List.length (files repo)) body (map include_path (files repo)) a.

(** The body of the inner loop of [validate_free_dependency_file]. *)
Definition validate_editor_only_include (self file : string)
    (extra_include_set : gset string) (editor_only_include : string)
    : M SimdjsonRepository (gset string) :=
  free <- is_free_dependency editor_only_include ;;
  if free then
    repo <- get ;;
    assert (bool_decide (editor_only_include ∈ attribute includes [] repo self))
      (NotIncludedFromDependencies file editor_only_include self) ;;
    ret (extra_include_set ∖ {[editor_only_include]})
  else ret extra_include_set.

Definition validate_free_dependency_file (self : string)
    : M SimdjsonRepository unit :=
  if is_free_dependency_file self then
    repo <- get ;;
    extra_include_set <-
      for_each_file
        (fun extra file =>
           f <- free_dependency_file file ;;
           if bool_decide (f = Some self) then
             repo <- get ;;
             foldM (validate_editor_only_include self file)
               (attribute editor_only_includes [] repo file) extra
           else ret extra)
        (list_to_set (attribute includes [] repo self)) ;;
    assert (bool_decide (extra_include_set = ∅))
      (UnnecessaryIncludes self extra_include_set)
  else ret tt.

Definition validate_free_dependency_files : M SimdjsonRepository unit :=
  for_each_file (fun _ file => validate_free_dependency_file file) tt.

End WithDisk.

(** ** The amalgamator *)

Definition set_fid (v : list (Origin * string)) (a : Amalgamator) : Amalgamator :=
  {| fid := v; repository := repository a;
     builtin_implementation := builtin_implementation a;
     active_implementation := active_implementation a;
     found_includes := found_includes a;
     found_includes_per_amalgamation := found_includes_per_amalgamation a;
     found_generic_includes := found_generic_includes a;
     amalgamated_defined := amalgamated_defined a;
     editor_only_region := editor_only_region a;
     include_stack := include_stack a |}.

Definition set_builtin_implementation (v : bool) (a : Amalgamator) : Amalgamator :=
  {| fid := fid a; repository := repository a;
     builtin_implementation := v;
     active_implementation := active_implementation a;
     found_includes := found_includes a;
     found_includes_per_amalgamation := found_includes_per_amalgamation a;
     found_generic_includes := found_generic_includes a;
     amalgamated_defined := amalgamated_defined a;
     editor_only_region := editor_only_region a;
     include_stack := include_stack a |}.

Definition set_active_implementation (v : option string) (a : Amalgamator)
    : Amalgamator :=
  {| fid := fid a; repository := repository a;
     builtin_implementation := builtin_implementation a;
     active_implementation := v;
     found_includes := found_includes a;
     found_includes_per_amalgamation := found_includes_per_amalgamation a;
     found_generic_includes := found_generic_includes a;
     amalgamated_defined := amalgamated_defined a;
     editor_only_region := editor_only_region a;
     include_stack := include_stack a |}.

Definition set_found_includes (v : gset string) (a : Amalgamator) : Amalgamator :=
  {| fid := fid a; repository := repository a;
     builtin_implementation := builtin_implementation a;
     active_implementation := active_implementation a;
     found_includes := v;
     found_includes_per_amalgamation := found_includes_per_amalgamation a;
     found_generic_includes := found_generic_includes a;
     amalgamated_defined := amalgamated_defined a;
     editor_only_region := editor_only_region a;
     include_stack := include_stack a |}.

Definition set_found_includes_per_amalgamation (v : gset string)
    (a : Amalgamator) : Amalgamator :=
  {| fid := fid a; repository := repository a;
     builtin_implementation := builtin_implementation a;
     active_implementation := active_implementation a;
     found_includes := found_includes a;
     found_includes_per_amalgamation := v;
     found_generic_includes := found_generic_includes a;
     amalgamated_defined := amalgamated_defined a;
     editor_only_region := editor_only_region a;
     include_stack := include_stack a |}.

Definition set_found_generic_includes (v : list (string * string))
    (a : Amalgamator) : Amalgamator :=
  {| fid := fid a; repository := repository a;
     builtin_implementation := builtin_implementation a;
     active_implementation := active_implementation a;
     found_includes := found_includes a;
     found_includes_per_amalgamation := found_includes_per_amalgamation a;
     found_generic_includes := v;
     amalgamated_defined := amalgamated_defined a;
     editor_only_region := editor_only_region a;
     include_stack := include_stack a |}.

Definition set_amalgamated_defined (v : bool) (a : Amalgamator) : Amalgamator :=
  {| fid := fid a; repository := repository a;
     builtin_implementation := builtin_implementation a;
     active_implementation := active_implementation a;
     found_includes := found_includes a;
     found_includes_per_amalgamation := found_includes_per_amalgamation a;
     found_generic_includes := found_generic_includes a;
     amalgamated_defined := v;
     editor_only_region := editor_only_region a;
     include_stack := include_stack a |}.

Definition set_editor_only_region (v : bool) (a : Amalgamator) : Amalgamator :=
  {| fid := fid a; repository := repository a;
     builtin_implementation := builtin_implementation a;
     active_implementation := active_implementation a;
     found_includes := found_includes a;
     found_includes_per_amalgamation := found_includes_per_amalgamation a;
     found_generic_includes := found_generic_includes a;
     amalgamated_defined := amalgamated_defined a;
     editor_only_region := v;
     include_stack := include_stack a |}.

Definition set_include_stack (v : list string) (a : Amalgamator) : Amalgamator :=
  {| fid := fid a; repository := repository a;
     builtin_implementation := builtin_implementation a;
     active_implementation := active_implementation a;
     found_includes := found_includes a;
     found_includes_per_amalgamation := found_includes_per_amalgamation a;
     found_generic_includes := found_generic_includes a;
     amalgamated_defined := amalgamated_defined a;
     editor_only_region := editor_only_region a;
     include_stack := v |}.

(** [__init__] *)
Definition new_amalgamator (out : list (Origin * string))
    (repo : SimdjsonRepository) : Amalgamator :=
  {| fid := out; repository := repo;
     builtin_implementation := false;
     active_implementation := None;
     found_includes := ∅;
     found_includes_per_amalgamation := ∅;
     found_generic_includes := [];
     amalgamated_defined := false;
     editor_only_region := false;
     include_stack := [] |}.

(** [str(x)] of an optional string. *)
Definition str_option (o : option string) : string :=
  match o with Some s => s | None => "None" end.

(** Truthiness of an optional string: [None] and the empty string are
    falsy. *)
Definition truthy (o : option string) : bool :=
  match o with
  | Some s => negb (s =? EmptyString)
  | None => false
  end.

Definition quoted (s : string) : string :=
  String Re.dquote s ++ String Re.dquote EmptyString.

(** What [file_to_str] returns is kept as the file and the variant
    named after it; [label] is its text. *)
Definition label (l : string * option string) : string :=
  match l with
  | (file, Some variant) => file ++ " for " ++ variant
  | (file, None) => file
  end.

Definition write (o : Origin) (line : string) : M Amalgamator unit :=
  modify (fun a => set_fid (fid a ++ [(o, line)]) a).

Section Writer.

Context (disk : Disk).

Definition file_to_str (file : string) : M Amalgamator (string * option string) :=
  if is_generic file then
    amalgamated <- on_repository (is_amalgamated disk file) ;;
    if amalgamated then
      a <- get ;;
      assert (truthy (active_implementation a)) (NoImplementation file) ;;
      ret (file, Some (str_option (active_implementation a)))
    else ret (file, None)
  else ret (file, None).

(** [(file, self.implementation) in self.found_generic_includes] *)
Definition found_generic (a : Amalgamator) (file : string) : bool :=
  match active_implementation a with
  | Some variant => bool_decide ((file, variant) ∈ found_generic_includes a)
  | None => false
  end.

(** The head of [maybe_write_file]: the bookkeeping of what has been
    included, and whether the file is to be written ([false] where the
    method returns early). *)
Definition should_write (file : string) (including_file : option string)
    (else_line : string) : M Amalgamator bool :=
  amalgamated <- on_repository (is_amalgamated disk file) ;;
  if amalgamated then
    (if is_generic file then
       a <- get ;;
       assert (negb (found_generic a file))
         (GenericIncludedTwice file including_file (active_implementation a)) ;;
       assert (truthy (active_implementation a)) (NoImplementation file) ;;
       modify (fun a =>
         set_found_generic_includes
           (found_generic_includes a
            ++ [(file, str_option (active_implementation a))]) a)
     else
       modify (fun a =>
         set_found_includes_per_amalgamation
           ({[file]} ∪ found_includes_per_amalgamation a) a)) ;;
    ret true
  else
    a <- get ;;
    if bool_decide (file ∈ found_includes a) then
      write OSkippedDuplicate ("/* skipped duplicate " ++ else_line ++ " */") ;;
      ret false
    else
      modify (fun a => set_found_includes ({[file]} ∪ found_includes a) a) ;;
      ret true.

(** Line 266: the annotation that precedes the file. *)
Definition announce (file else_line : string) : M Amalgamator unit :=
  l <- file_to_str file ;;
  write (OIncluding l.1 l.2)
    ("/* including " ++ label l ++ ": " ++ else_line ++ " */").

(** [maybe_write_file], with [write_file] as a parameter. *)
Definition maybe_write_file_with (write_file : string -> M Amalgamator unit)
    (file : string) (including_file : option string) (else_line : string)
    : M Amalgamator unit :=
  proceed <- should_write file including_file else_line ;;
  when proceed (announce file else_line ;; write_file file).

(** [file == BUILTIN_BEGIN_H] compares a [SimdjsonFile] with a [str]:
    the objects are never equal. *)
Definition file_eq_str (file : string) (s : string) : bool := false.

(** Lines 330 to 345: the directives and uses of SIMDJSON_IMPLEMENTATION.
    The result is the line as it goes on to the next step. *)
Definition implementation_step (file line : string) : M Amalgamator string :=
  match Re.define_implementation line with
  | Some value =>
      a <- get ;;
      let old_implementation := active_implementation a in
      modify (set_active_implementation (Some value)) ;;
      match old_implementation with
      | None =>
          write ODefiningImplementation
            ("/* defining SIMDJSON_IMPLEMENTATION to " ++ quoted value ++ " */")
      | Some old =>
          write ORedefiningImplementation
            ("/* redefining SIMDJSON_IMPLEMENTATION from " ++ quoted old
             ++ " to " ++ quoted value ++ " */")
      end ;;
      ret line
  | None =>
      if Re.undef_implementation line then
        a <- get ;;
        write OUndefiningImplementation
          ("/* undefining SIMDJSON_IMPLEMENTATION from "
           ++ quoted (str_option (active_implementation a)) ++ " */") ;;
        modify (set_active_implementation None) ;;
        ret line
      else if Re.search_token line
              && negb (file =? IMPLEMENTATION_DETECTION_H) then
        a <- get ;;
        assert (truthy (active_implementation a))
          (UseOfUndefinedImplementation file line) ;;
        match Re.sub_token (str_option (active_implementation a)) line with
        | Some line' => ret line'
        | None =>
            raise (BadReplacementTemplate (str_option (active_implementation a)))
        end
      else ret line
  end.

(** Lines 347 to 359: the directives on SIMDJSON_AMALGAMATED. *)
Definition amalgamated_step (file line : string) : M Amalgamator unit :=
  if Re.define_amalgamated line then
    amalgamated <- on_repository (is_amalgamated disk file) ;;
    assert (negb amalgamated) DefineInAmalgamatedFile ;;
    a <- get ;;
    assert (negb (amalgamated_defined a)) (RedefinesAmalgamated file) ;;
    modify (set_amalgamated_defined true) ;;
    modify (set_found_includes_per_amalgamation ∅) ;;
    write ODefiningAmalgamated "/* defining SIMDJSON_AMALGAMATED */"
  else if Re.undef_amalgamated line then
    amalgamated <- on_repository (is_amalgamated disk file) ;;
    assert (negb amalgamated) UndefInAmalgamatedFile ;;
    a <- get ;;
    assert (amalgamated_defined a) (UndefinesAmalgamatedWithoutDefine file) ;;
    write OUndefiningAmalgamated "/* undefining SIMDJSON_AMALGAMATED */" ;;
    modify (set_amalgamated_defined false)
  else ret tt.

(** The body of the loop over the lines of [file], up to the call of
    [maybe_write_file]: the result is the file to hand to it when the
    line is an include outside an editor-only region, and [None] when
    the line has been dealt with. *)
Definition line_step (file line : string) : M Amalgamator (option string) :=
  when (Re.ifndef_amalgamated line)
    (amalgamated <- on_repository (is_amalgamated disk file) ;;
     assert amalgamated (IfndefInNonAmalgamatedFile file) ;;
     a <- get ;;
     assert (amalgamated_defined a) (IfndefWithoutDefine file (include_stack a)) ;;
     assert (negb (editor_only_region a)) (IfndefTwice file) ;;
     modify (set_editor_only_region true)) ;;
  let end_ignore := Re.endif_amalgamated line in
  a <- get ;;
  if editor_only_region a then
    write OEditorOnly ("/* amalgamation skipped (editor-only): " ++ line ++ " */") ;;
    match Re.included line with
    | Some path =>
        included_file <- on_repository (getitem disk path) ;;
        on_repository (add_editor_only_include disk file included_file)
    | None => ret tt
    end ;;
    when end_ignore (modify (set_editor_only_region false)) ;;
    ret None
  else
    assert (negb end_ignore) (EndifWithoutIfndef file) ;;
    match Re.included line with
    | Some path =>
        included_file <- on_repository (getitem disk path) ;;
        on_repository (add_include disk file included_file) ;;
        ret (Some included_file)
    | None =>
        line' <- implementation_step file line ;;
        amalgamated_step file line' ;;
        write OSourceLine line' ;;
        ret None
    end.

(** The body of the loop over the lines of [file]. *)
Definition process_line
    (maybe_write_file : string -> option string -> string -> M Amalgamator unit)
    (file line : string) : M Amalgamator unit :=
  target <- line_step file line ;;
  match target with
  | Some included_file => maybe_write_file included_file (Some file) line
  | None => ret tt
  end.

Fixpoint write_lines
    (maybe_write_file : string -> option string -> string -> M Amalgamator unit)
    (file : string) (lines : list string) : M Amalgamator unit :=
  match lines with
  | [] => ret tt
  | line :: lines' =>
      process_line maybe_write_file file line ;;
      write_lines maybe_write_file file lines'
  end.

(** [open(file.absolute_path, 'r')] *)
Definition open_file (file : string) : M Amalgamator (list string) :=
  a <- get ;;
  match disk_find disk (attribute root include (repository a) file) file with
  | Some lines => ret lines
  | None => raise (CannotOpen file)
  end.

Definition set_processed (file : string) (v : bool) : M Amalgamator unit :=
  on_repository (update_file file (fun f =>
    {| root := root f; include_path := include_path f;
       includes := includes f; included_from := included_from f;
       editor_only_includes := editor_only_includes f;
       editor_only_included_from := editor_only_included_from f;
       processed := Some v |})).

(** [write_file] before its loop: the result is the lines of the file. *)
Definition begin_file (file : string) : M Amalgamator (list string) :=
  a <- get ;;
  assert (negb (bool_decide (file ∈ include_stack a)))
    (CyclicInclude (include_stack a) file) ;;
  modify (fun a => set_include_stack (include_stack a ++ [file]) a) ;;
  set_processed file false ;;
  l <- file_to_str file ;;
  write (OBeginFile l.1 l.2) ("/* begin file " ++ label l ++ " */") ;;
  when (file_eq_str file BUILTIN_BEGIN_H)
    (a <- get ;;
     assert (negb (is_Some_b (active_implementation a))) BuiltinBeginMisplaced ;;
     assert (negb (builtin_implementation a)) BuiltinBeginMisplaced ;;
     modify (set_builtin_implementation true) ;;
     modify (set_active_implementation (Some "SIMDJSON_BUILTIN_IMPLEMENTATION"))) ;;
  a <- get ;;
  assert (negb (editor_only_region a)) EditorOnlyRegionOpen ;;
  open_file file.

(** [write_file] after its loop. *)
Definition end_file (file : string) : M Amalgamator unit :=
  a <- get ;;
  assert (negb (editor_only_region a)) (EndedWithoutEndif file) ;;
  l <- file_to_str file ;;
  write (OEndFile l.1 l.2) ("/* end file " ++ label l ++ " */") ;;
  (if file =? BUILTIN_BEGIN_H then
     a <- get ;;
     assert (builtin_implementation a) BuiltinImplementationNotSet ;;
     modify (set_active_implementation (Some "SIMDJSON_BUILTIN_IMPLEMENTATION"))
   else if file =? BUILTIN_END_H then
     a <- get ;;
     assert (negb (is_Some_b (active_implementation a))) ImplementationStillDefined ;;
     assert (builtin_implementation a) BuiltinImplementationNotSet ;;
     modify (set_active_implementation None)
   else ret tt) ;;
  set_processed file true ;;
  modify (fun a => set_include_stack (removelast (include_stack a)) a).

(** The body of [write_file], with [write_file] itself, as called
    through [maybe_write_file], as a parameter. *)
Definition write_file_body (write_file : string -> M Amalgamator unit)
    (file : string) : M Amalgamator unit :=
  lines <- begin_file file ;;
  write_lines (maybe_write_file_with write_file) file lines ;;
  end_file file.

(** [write_file]: the recursion through the included files is bounded
    by [fuel], the number of nested files that may be opened. *)
Fixpoint write_file (fuel : nat) (file : string) : M Amalgamator unit :=
  match fuel with
  | O => raise OutOfFuel
  | S fuel' => write_file_body (write_file fuel') file
  end.

Definition maybe_write_file (fuel : nat)
    : string -> option string -> string -> M Amalgamator unit :=
  maybe_write_file_with (write_file fuel).

(** What a run leaves behind: the lines printed to the output file,
    whether the file was closed, and the exception that ended the run. *)
Record Artifact := {
  output : list (Origin * string);
  closed : bool;
  failure : option Error;
}.

Definition text (r : Artifact) : list string := map snd (output r).

(** [Amalgamator.amalgamate] up to the closing of the output file: the
    outcome and the amalgamator as the run leaves it. *)
Definition amalgamate_run (fuel : nat) (file : string)
    (roots : list RelativeRoot) (timestamp : string)
    : (Error + unit) * Amalgamator :=
  let amalgamator :=
    new_amalgamator
      [(OTimestamp, "/* auto-generated on " ++ timestamp ++ ". Do not edit! */")]
      {| relative_roots := roots; files := [] |} in
  (f <- on_repository (getitem disk file) ;;
   maybe_write_file fuel f None EmptyString ;;
   on_repository (validate_free_dependency_files disk)) amalgamator.

(** [Amalgamator.amalgamate]: the file is closed when nothing was raised. *)
Definition amalgamate (fuel : nat) (file : string) (roots : list RelativeRoot)
    (timestamp : string) : Artifact :=
  match amalgamate_run fuel file roots timestamp with
  | (inr _, a) => {| output := fid a; closed := true; failure := None |}
  | (inl e, a) => {| output := fid a; closed := false; failure := Some e |}
  end.

End Writer.

(** * Notions used in the statements *)

(** A repository grows at its end only. *)
Definition grows (repo repo' : SimdjsonRepository) : Prop :=
  relative_roots repo' = relative_roots repo
  /\ exists new, files repo' = (files repo ++ new)%list.



Fixpoint no_backslash (s : string) : bool :=
  match s with
  | EmptyString => true
  | String c r => negb (c =? Re.backslash)%char && no_backslash r
  end.

(** A line that is none of the directives dealt with before the uses of
    SIMDJSON_IMPLEMENTATION are looked for. *)
Definition no_earlier_directive (line : string) : Prop :=
  Re.ifndef_amalgamated line = false /\ Re.endif_amalgamated line = false
  /\ Re.included line = None /\ Re.define_implementation line = None
  /\ Re.undef_implementation line = false.

(** ** The completeness check, as a specification *)

(** The object that [free_dependency_file] looks up for [path] is
    already in the repository. *)
Definition dependency_known (repo : SimdjsonRepository) (path : string) : bool :=
  match free_dependency_path path with
  | Some q => contains repo q
  | None => true
  end.

(** Every file of the repository, and every file included from an
    editor-only region, has been classified: the state in which the
    traversal leaves the repository. *)
Definition classified (repo : SimdjsonRepository) : bool :=
  forallb
    (fun f =>
       dependency_known repo (include_path f)
       && forallb (dependency_known repo) (editor_only_includes f))
    (files repo).

(** The free dependencies that the files governed by [self] include
    from editor-only regions, each with the file that includes it, in
    the order in which the check meets them. *)
Definition required (repo : SimdjsonRepository) (self : string)
    : list (string * string) :=
  flat_map
    (fun file =>
       if bool_decide (free_dependency_path file = Some self)
       then map (pair file)
              (List.filter free_dependency_by_path
                 (attribute editor_only_includes [] repo file))
       else [])
    (map include_path (files repo)).

(** The first required file that [self] does not include. *)
Definition first_missing (repo : SimdjsonRepository) (self : string)
    : option (string * string) :=
  List.find (fun fe => negb (bool_decide (fe.2 ∈ attribute includes [] repo self)))
    (required repo self).

(** The includes of [self] that no governed file requires. *)
Definition unnecessary (repo : SimdjsonRepository) (self : string) : gset string :=
  list_to_set (attribute includes [] repo self)
  ∖ list_to_set (map snd (required repo self)).

(** The scan of the required files: the first one that is not among
    [incl], or what is left of [extra]. *)
Fixpoint scan (incl : list string) (req : list (string * string))
    (extra : gset string) : (string * string) + gset string :=
  match req with
  | [] => inr extra
  | (f, e) :: req' =>
      if bool_decide (e ∈ incl) then scan incl req' (extra ∖ {[e]})
      else inl (f, e)
  end.

Definition scan_result (self : string) (repo : SimdjsonRepository)
    (r : (string * string) + gset string)
    : (Error + gset string) * SimdjsonRepository :=
  match r with
  | inl (f, e) => (inl (NotIncludedFromDependencies f e self), repo)
  | inr extra => (inr extra, repo)
  end.

Section CheckFile.

Context (disk : Disk).

(** The body of the loop of [validate_free_dependency_file] over the
    files of the repository. *)
Definition check_file (self : string) (extra : gset string) (file : string)
    : M SimdjsonRepository (gset string) :=
  f <- free_dependency_file disk file ;;
  if bool_decide (f = Some self) then
    repo <- get ;;
    foldM (validate_editor_only_include disk self file)
      (attribute editor_only_includes [] repo file) extra
  else ret extra.

End CheckFile.

(** ** What the output shows of the traversal *)

(** The number of times the annotation that precedes [file], written
    for [variant], occurs in the output. *)
Definition count_including (file : string) (variant : option string)
    (out : list (Origin * string)) : nat :=
  count_occ Origin_eq_dec (map fst out) (OIncluding file variant).

(** The number of times [file], written for [variant], begins. *)
Definition count_begin (file : string) (variant : option string)
    (out : list (Origin * string)) : nat :=
  count_occ Origin_eq_dec (map fst out) (OBeginFile file variant).

(** The lines that neither announce nor begin a file. *)
Definition quiet_origin (o : Origin) : bool :=
  match o with
  | OIncluding _ _ | OBeginFile _ _ => false
  | _ => true
  end.

(** [a'] differs from [a] in nothing that bears on which files have
    been written: the output has grown by quiet lines only, and the
    sets of found files are the same. *)
Definition same_view (a a' : Amalgamator) : Prop :=
  (exists extra, fid a' = (fid a ++ extra)%list
                 /\ forallb (fun l => quiet_origin l.1) extra = true)
  /\ found_includes a' = found_includes a
  /\ found_generic_includes a' = found_generic_includes a.

(** A computation that leaves the view as it is, whatever its outcome. *)
Definition quiet {A} (m : M Amalgamator A) : Prop :=
  forall a, same_view a (m a).2.

(** The variant that [file_to_str] names after [file]. *)
Definition variant_label (file : string) (active : option string) : option string :=
  if is_generic file && negb (free_dependency_by_path file)
  then Some (str_option active)
  else None.

(** No free dependency has been announced twice, none for a variant,
    and each one announced is in [found_includes]. *)
Definition free_dependencies_once (a : Amalgamator) : Prop :=
  forall f, free_dependency_by_path f = true ->
    (forall v, count_including f (Some v) (fid a) = 0)
    /\ count_including f None (fid a) <= 1
    /\ (0 < count_including f None (fid a) -> f ∈ found_includes a).

(** No file has been announced twice for one variant, and each file
    announced for a variant is in [found_generic_includes] with it. *)
Definition generic_once_per_variant (a : Amalgamator) : Prop :=
  forall g X,
    count_including g (Some X) (fid a) <= 1
    /\ (0 < count_including g (Some X) (fid a) ->
        (g, X) ∈ found_generic_includes a).

(** A file has begun no more often than it has been announced; with
    [pending], the file that has been announced and is about to begin. *)
Definition begins_announced (pending : option (string * option string))
    (a : Amalgamator) : Prop :=
  forall f v,
    count_begin f v (fid a)
    + (if bool_decide (pending = Some (f, v)) then 1 else 0)
    <= count_including f v (fid a).

(** [a'] is [a] with one more line of output, printed from [o]. *)
Definition adds_line (o : Origin) (a a' : Amalgamator) : Prop :=
  (exists line, fid a' = (fid a ++ [(o, line)])%list)
  /\ found_includes a' = found_includes a
  /\ found_generic_includes a' = found_generic_includes a.

(** The outcomes of [should_write file] from [a], leaving [a']. *)
Inductive should_write_outcome (file : string) (a : Amalgamator)
    : Error + bool -> Amalgamator -> Prop :=
  | sw_raised e a' :
      same_view a a' ->
      should_write_outcome file a (inl e) a'
  | sw_skipped a' :
      free_dependency_by_path file = true ->
      file ∈ found_includes a ->
      same_view a a' ->
      should_write_outcome file a (inr false) a'
  | sw_free_dependency a' :
      free_dependency_by_path file = true ->
      file ∉ found_includes a ->
      fid a' = fid a ->
      found_includes a' = {[file]} ∪ found_includes a ->
      found_generic_includes a' = found_generic_includes a ->
      should_write_outcome file a (inr true) a'
  | sw_generic X a' :
      free_dependency_by_path file = false ->
      is_generic file = true ->
      active_implementation a = Some X ->
      (file, X) ∉ found_generic_includes a ->
      fid a' = fid a ->
      found_includes a' = found_includes a ->
      found_generic_includes a' = (found_generic_includes a ++ [(file, X)])%list ->
      should_write_outcome file a (inr true) a'
  | sw_amalgamated a' :
      free_dependency_by_path file = false ->
      is_generic file = false ->
      same_view a a' ->
      should_write_outcome file a (inr true) a'.

(** The three facts together. *)
Definition written_once (pending : option (string * option string))
    (a : Amalgamator) : Prop :=
  free_dependencies_once a /\ generic_once_per_variant a
  /\ begins_announced pending a.

(** What is asked of [write_file] as [maybe_write_file] calls it: the
    file has been announced and is about to begin. *)
Definition keeps_written_once (wf : string -> M Amalgamator unit) : Prop :=
  forall f a,
    written_once (Some (f, variant_label f (active_implementation a))) a ->
    written_once None (wf f a).2.

(** ** The include stack and the nesting of files *)

(** A computation that leaves the include stack as it is, whatever its
    outcome. *)
Definition keeps_stack {A} (m : M Amalgamator A) : Prop :=
  forall a, include_stack (m a).2 = include_stack a.

(** A computation that does not run out of fuel. *)
Definition fuel_free {S A} (m : M S A) : Prop :=
  forall s, (m s).1 <> inl OutOfFuel.

(** [m'] does what [m] does wherever [m] does not run out of fuel. *)
Definition refines {A} (m m' : M Amalgamator A) : Prop :=
  forall a, (m a).1 <> inl OutOfFuel -> m' a = m a.

Section Nesting.

Context (disk : Disk).

(** [write_file_body wf file], run from [a], gets to call [wf g] from
    [b]: the file begins, the lines before an include of [g] are dealt
    with, and [g] is to be written and has been announced. *)
Definition calls (wf : string -> M Amalgamator unit) (file : string)
    (a : Amalgamator) (g : string) (b : Amalgamator) : Prop :=
  exists lines a0 before line after a1 a2 a3,
    begin_file disk file a = (inr lines, a0)
    /\ lines = (before ++ line :: after)%list
    /\ write_lines disk (maybe_write_file_with disk wf) file before a0 = (inr tt, a1)
    /\ line_step disk file line a1 = (inr (Some g), a2)
    /\ should_write disk g (Some file) line a2 = (inr true, a3)
    /\ announce disk g line a3 = (inr tt, b).

(** [write_file fuel file], run from [a], gets to run [write_file] for
    [h] from [c], [chain] being the files entered on the way, outermost
    first. *)
Inductive enters
    : nat -> string -> Amalgamator -> list string -> string -> Amalgamator -> Prop :=
  | enters_here fuel file a : enters (S fuel) file a [] file a
  | enters_deeper fuel file a g b chain h c :
      calls (write_file disk fuel) file a g b ->
      enters fuel g b chain h c ->
      enters (S fuel) file a (file :: chain) h c.

(** The same from the start of a run. *)
Definition run_enters (fuel : nat) (file : string) (roots : list RelativeRoot)
    (timestamp : string) (chain : list string) (h : string) (c : Amalgamator)
    : Prop :=
  exists f a1 a2 b,
    on_repository (getitem disk file)
      (new_amalgamator
         [(OTimestamp, "/* auto-generated on " ++ timestamp ++ ". Do not edit! */")]
         {| relative_roots := roots; files := [] |})
    = (inr f, a1)
    /\ should_write disk f None EmptyString a1 = (inr true, a2)
    /\ announce disk f EmptyString a2 = (inr tt, b)
    /\ enters fuel f b chain h c.

(** The paths of the tree. *)
Definition disk_paths : list string := map (fun e => e.1.2) disk.

End Nesting.

(** What is asked of [write_file] as to the include stack: where it
    returns, the stack is what it was. *)
Definition restores_stack (wf : string -> M Amalgamator unit) : Prop :=
  forall f a a', wf f a = (inr tt, a') -> include_stack a' = include_stack a.

(** With [fuel] left, the include stack of [a] leaves room for each
    path of the tree that is not on it: the files on the stack are
    distinct paths of the tree, fewer than [fuel] short of all. *)
Definition room (disk : Disk) (fuel : nat) (a : Amalgamator) : Prop :=
  NoDup (include_stack a)
  /\ include_stack a ⊆ disk_paths disk
  /\ List.length (disk_paths disk) < fuel + List.length (include_stack a).

(** [classified] but for the files of [pending], whose own
    classification may still be missing. *)
Definition classified_but (pending : list string) (repo : SimdjsonRepository)
    : Prop :=
  forall f, f ∈ files repo ->
    (include_path f ∈ pending \/ dependency_known repo (include_path f) = true)
    /\ forall e, e ∈ editor_only_includes f -> dependency_known repo e = true.

(** A computation that, where it returns, turns a repository classified
    but for [before] into one classified but for [after]. *)
Definition classifies {A} (before after : list string) (m : M Amalgamator A)
    : Prop :=
  forall a x a',
    classified_but before (repository a) -> m a = (inr x, a') ->
    classified_but after (repository a').

(** [Amalgamator.amalgamate] up to the validation of the aggregators:
    the traversal of the files from [file]. *)
Definition traversal (disk : Disk) (fuel : nat) (file : string)
    (roots : list RelativeRoot) (timestamp : string)
    : (Error + unit) * Amalgamator :=
  (f <- on_repository (getitem disk file) ;;
   maybe_write_file disk fuel f None EmptyString)
    (new_amalgamator
       [(OTimestamp, "/* auto-generated on " ++ timestamp ++ ". Do not edit! */")]
       {| relative_roots := roots; files := [] |}).

(** * Further notions used in the statements *)

(** What the check of the aggregator [self] finds wrong, if anything:
    the first required file that is missing, or else the includes that
    nothing requires. *)
Definition check_error (repo : SimdjsonRepository) (self : string)
    : option Error :=
  if is_free_dependency_file self then
    match first_missing repo self with
    | Some (f, e) => Some (NotIncludedFromDependencies f e self)
    | None =>
        if bool_decide (unnecessary repo self = ∅) then None
        else Some (UnnecessaryIncludes self (unnecessary repo self))
    end
  else None.

(** The first thing found wrong with the files at [paths], in order. *)
Fixpoint first_error (repo : SimdjsonRepository) (paths : list string)
    : option Error :=
  match paths with
  | [] => None
  | p :: paths' =>
      match check_error repo p with
      | Some e => Some e
      | None => first_error repo paths'
      end
  end.

Fixpoint no_dquote (s : string) : bool :=
  match s with
  | EmptyString => true
  | String c r => negb (c =? Re.dquote)%char && no_dquote r
  end.

Fixpoint no_newline (s : string) : bool :=
  match s with
  | EmptyString => true
  | String c r => negb (c =? Re.newline)%char && no_newline r
  end.

(** A run of white space that is not empty. *)
Definition blank (s : string) : bool :=
  negb (s =? EmptyString) && Re.all_spaces s.

(** The first character of [s] is there and is not white space. *)
Definition starts_with_text (s : string) : bool :=
  match s with
  | String c _ => negb (Py.isspace c)
  | EmptyString => false
  end.

(** [sub in s] *)
Fixpoint mentions (sub s : string) : bool :=
  Py.startswith s sub
  || match s with
     | String _ r => mentions sub r
     | EmptyString => false
     end.

(** ** Specifications of computations *)

(** From a state that satisfies [P], [m] returns a value and a state
    that satisfy [Q], or raises an error in a state that satisfy [E]. *)
Definition triple {A} (P : Amalgamator -> Prop) (m : M Amalgamator A)
    (Q : A -> Amalgamator -> Prop) (E : Error -> Amalgamator -> Prop) : Prop :=
  forall a, P a ->
    match m a with
    | (inr x, a') => Q x a'
    | (inl e, a') => E e a'
    end.

(** [m] keeps the invariant [I], whatever its outcome, and raises only
    errors that satisfy [E]. *)
Definition keeps {A} (I : Amalgamator -> Prop) (E : Error -> Prop)
    (m : M Amalgamator A) : Prop :=
  triple I m (fun _ => I) (fun e a => E e /\ I a).

(** The errors that the lookups of the repository and the bookkeeping
    of the includes raise. *)
Definition lookup_error (e : Error) : bool :=
  match e with
  | ExistsInBothRoots | NotFoundInRoots _ _
  | IncludesAmalgamatedFile _ _ | IncludesWithoutIfndef _ _
  | EditorOnlyInNonAmalgamatedFile _ | EditorOnlyIncludesWithoutIfndef _ _ => true
  | _ => false
  end.

(** The errors of the validation: its two assertions, and the one of an
    iteration over a dict that has changed size. *)
Definition validation_error (e : Error) : bool :=
  match e with
  | NotIncludedFromDependencies _ _ _ | UnnecessaryIncludes _ _
  | DictionaryChangedSize => true
  | _ => false
  end.

(** The errors that the methods of the repository and of its files
    raise. *)
Definition repository_error (e : Error) : bool :=
  lookup_error e || validation_error e.

Definition not_validation_error (e : Error) : Prop :=
  validation_error e = false.

(** A computation on the repository that raises errors of the class
    [ok] only. *)
Definition raises_only {A} (ok : Error -> bool) (m : M SimdjsonRepository A)
    : Prop :=
  forall repo e repo', m repo = (inl e, repo') -> ok e = true.

(** [a'] is [a] but for its repository. *)
Definition same_but_repository (a a' : Amalgamator) : Prop :=
  fid a' = fid a
  /\ builtin_implementation a' = builtin_implementation a
  /\ active_implementation a' = active_implementation a
  /\ found_includes a' = found_includes a
  /\ found_includes_per_amalgamation a' = found_includes_per_amalgamation a
  /\ found_generic_includes a' = found_generic_includes a
  /\ amalgamated_defined a' = amalgamated_defined a
  /\ editor_only_region a' = editor_only_region a
  /\ include_stack a' = include_stack a.

(** [m] keeps the invariant [I] where it returns. *)
Definition preserves {A} (I : Amalgamator -> Prop) (m : M Amalgamator A) : Prop :=
  triple I m (fun _ => I) (fun _ _ => True).

Definition any_error (e : Error) : Prop := True.

(** The flag [builtin_implementation] has not been set. *)
Definition builtin_unset (a : Amalgamator) : Prop :=
  builtin_implementation a = false.

(** The lines that begin one of the two files of [simdjson/builtin] that
    the writer knows by name. *)
Definition builtin_begin (o : Origin) : bool :=
  match o with
  | OBeginFile f _ => (f =? BUILTIN_BEGIN_H) || (f =? BUILTIN_END_H)
  | _ => false
  end.

(** The flag has not been set and neither of the two files has begun. *)
Definition builtin_untouched (a : Amalgamator) : Prop :=
  builtin_implementation a = false
  /\ existsb (fun l => builtin_begin l.1) (fid a) = false.

(** Outside every editor-only region. *)
Definition region_closed (a : Amalgamator) : Prop :=
  editor_only_region a = false.

Definition not_region_open (e : Error) : Prop := e <> EditorOnlyRegionOpen.

(** ** The nesting of the files in the output *)

(** Reads the annotations that begin and end files: [stack] holds the
    files that have begun and not ended, innermost first; [None] when
    an end does not match the innermost begin. *)
Fixpoint nesting (stack : list string) (out : list Origin)
    : option (list string) :=
  match out with
  | [] => Some stack
  | OBeginFile f _ :: out' => nesting (f :: stack) out'
  | OEndFile f _ :: out' =>
      match stack with
      | g :: stack' => if f =? g then nesting stack' out' else None
      | [] => None
      end
  | _ :: out' => nesting stack out'
  end.

(** The files of [stack] are those that the output has begun and not
    ended. *)
Definition nested (stack : list string) (a : Amalgamator) : Prop :=
  nesting [] (map fst (fid a)) = Some stack.

(** The output starts with the lines [p]. *)
Definition starts (p : list (Origin * string)) (a : Amalgamator) : Prop :=
  exists extra, fid a = (p ++ extra)%list.

(** * Small source trees used in the examples *)

Definition inc (path : string) : string := "#include " ++ quoted path.

(** Two free-dependency headers that include each other. *)
Definition tree_cycle : Disk :=
  [ (include, "a.h", [inc "b.h"; "int a;"]);
    (include, "b.h", [inc "a.h"; "int b;"]) ].

Definition repo_ab : SimdjsonRepository :=
  {| relative_roots := [include];
     files := [new_file include "a.h"; new_file include "b.h"] |}.

(** An amalgamated header that is not generic, included twice. *)
Definition tree_twice : Disk :=
  [ (include, "simdjson.h", [inc "simdjson/arm64.h"; "int x;"]);
    (include, "simdjson/arm64.h",
       [inc "simdjson/arm64/begin.h"; inc "simdjson/arm64/begin.h"]);
    (include, "simdjson/arm64/begin.h", ["// begin"]);
    (include, "simdjson/generic/dependencies.h", []) ].

(** An aggregator that lacks two editor-only dependencies. *)
Definition tree_missing : Disk :=
  [ (src, "simdjson.cpp",
       [inc "generic/dependencies.h";
        "#define SIMDJSON_AMALGAMATED";
        "#define SIMDJSON_IMPLEMENTATION arm64";
        inc "generic/amalgamated.h"]);
    (src, "generic/dependencies.h", []);
    (src, "generic/amalgamated.h",
       ["#ifndef SIMDJSON_AMALGAMATED";
        inc "a.h";
        inc "b.h";
        "#endif // SIMDJSON_AMALGAMATED";
        "int g;"]);
    (include, "a.h", []);
    (include, "b.h", []) ].

(** A variant whose name holds a backslash escape, and a use of it. *)
Definition tree_escape : Disk :=
  [ (include, "simdjson.h",
       ["#define SIMDJSON_IMPLEMENTATION a\nb";
        "SIMDJSON_IMPLEMENTATION::f();"]) ].

(** The repository as the traversal of [tree_missing] leaves it. *)
Definition repo_missing : SimdjsonRepository :=
  repository (amalgamate_run tree_missing 3 "simdjson.cpp" [src; include] "now").2.

(** An aggregator that includes a header that nothing requires. *)
Definition tree_unnecessary : Disk :=
  [ (src, "simdjson.cpp", [inc "generic/dependencies.h"]);
    (src, "generic/dependencies.h", [inc "a.h"]);
    (include, "a.h", []) ].

Definition repo_unnecessary : SimdjsonRepository :=
  repository (amalgamate_run tree_unnecessary 3 "simdjson.cpp" [src; include] "now").2.

(** A generic aggregator of free dependencies, included twice while no
    variant is defined. *)
Definition tree_generic_dependencies : Disk :=
  [ (src, "simdjson.cpp",
       [inc "generic/dependencies.h"; inc "generic/dependencies.h"]);
    (src, "generic/dependencies.h", ["// none"]) ].

(** Two amalgamated headers that include each other. *)
Definition tree_amalgamated_cycle : Disk :=
  [ (include, "simdjson.h", [inc "simdjson/arm64.h"]);
    (include, "simdjson/arm64.h", [inc "simdjson/arm64/a.h"]);
    (include, "simdjson/arm64/a.h", [inc "simdjson/arm64.h"]);
    (include, "simdjson/generic/dependencies.h", []) ].

(** A repository in which a generic header, its aggregator and a plain
    header are registered. *)
Definition repo_generic : SimdjsonRepository :=
  {| relative_roots := [src; include];
     files := [new_file src "generic/amalgamated.h";
               new_file src "generic/dependencies.h";
               new_file include "a.h"] |}.

(** A header of [simdjson/builtin] that the writer knows by name. *)
Definition tree_builtin : Disk :=
  [ (include, "simdjson.h", [inc BUILTIN_BEGIN_H]);
    (include, BUILTIN_BEGIN_H, ["// builtin"]) ].

Definition repo_builtin : SimdjsonRepository :=
  {| relative_roots := [include];
     files := [new_file include "simdjson.h"; new_file include BUILTIN_BEGIN_H] |}.

(** An amalgamated file whose editor-only region quotes a definition
    of SIMDJSON_AMALGAMATED while the flag is defined. *)
Definition tree_region_define : Disk :=
  [ (src, "simdjson.cpp",
       [inc "generic/dependencies.h";
        "#define SIMDJSON_AMALGAMATED";
        "#define SIMDJSON_IMPLEMENTATION arm64";
        inc "generic/amalgamated.h"]);
    (src, "generic/dependencies.h", []);
    (src, "generic/amalgamated.h",
       ["#ifndef SIMDJSON_AMALGAMATED";
        "#define SIMDJSON_AMALGAMATED";
        "#endif // SIMDJSON_AMALGAMATED";
        "int g;"]) ].

(** An amalgamated file whose editor-only region holds an [#undef] of
    SIMDJSON_AMALGAMATED. *)
Definition tree_region_undef : Disk :=
  [ (src, "simdjson.cpp",
       [inc "generic/dependencies.h";
        "#define SIMDJSON_AMALGAMATED";
        "#define SIMDJSON_IMPLEMENTATION arm64";
        inc "generic/amalgamated.h";
        "#undef SIMDJSON_AMALGAMATED"]);
    (src, "generic/dependencies.h", []);
    (src, "generic/amalgamated.h",
       ["#ifndef SIMDJSON_AMALGAMATED";
        "#undef SIMDJSON_AMALGAMATED";
        "#endif // SIMDJSON_AMALGAMATED";
        "int g;"]) ].

(** * Properties *)

(** ** The classifier on some paths of the simdjson tree *)

Example classify_examples :
  (implementation "simdjson/arm64/begin.h", implementation "generic/foo.h",
   implementation "westmere.cpp", implementation "simdjson/xarm64.h",
   free_dependency_path "simdjson/arm64/ondemand.h",
   free_dependency_path "generic/stage1/utf8.h",
   free_dependency_path "arm64.cpp",
   free_dependency_path "generic/dependencies.h",
   include_dir "a//b.h", include_dir "/x", filename "a/b/")
  = (Some arm64, None, Some westmere, None,
     Some "simdjson/generic/ondemand/dependencies.h",
     Some "generic/stage1/dependencies.h",
     Some "generic/dependencies.h", None,
     "a", "/", EmptyString).
Proof. reflexivity. Qed.

(** ** Strings *)

Lemma removeprefix_Some p : forall s r, Py.removeprefix p s = Some r -> s = p ++ r.
Proof.
  induction p as [|a p IH]; intros s r H; simpl in *.
  - by inversion H.
  - destruct s as [|b s]; [done|].
    destruct (Ascii.eqb_spec a b) as [->|]; [|done].
    change (String b s = String b (p ++ r)). f_equal. by apply IH.
Qed.

(** ** Computations *)

Lemma bind_inr {S A B} (m : M S A) (k : A -> M S B) s x s' :
  m s = (inr x, s') -> bind m k s = k x s'.
Proof. unfold bind. by intros ->. Qed.

Lemma bind_inl {S A B} (m : M S A) (k : A -> M S B) s e s' :
  m s = (inl e, s') -> bind m k s = (inl e, s').
Proof. unfold bind. by intros ->. Qed.

(** ** The repository *)

Lemma find_app_l {A} (p : A -> bool) l l' :
  List.find p (l ++ l')%list
  = match List.find p l with Some x => Some x | None => List.find p l' end.
Proof.
  induction l as [|x l IH]; simpl; [done|]. by destruct (p x).
Qed.

Lemma lookup_file_app repo new p f :
  lookup_file repo p = Some f ->
  lookup_file {| relative_roots := relative_roots repo;
                 files := (files repo ++ new)%list |} p = Some f.
Proof.
  unfold lookup_file; simpl. rewrite find_app_l. by intros ->.
Qed.

Section RepositoryFacts.

Context (disk : Disk).

Lemma grows_refl repo : grows repo repo.
Proof. split; [done|]. exists []. by rewrite app_nil_r. Qed.

Lemma grows_trans r1 r2 r3 : grows r1 r2 -> grows r2 r3 -> grows r1 r3.
Proof.
  intros [H1 [n1 E1]] [H2 [n2 E2]]. split; [congruence|].
  exists (n1 ++ n2)%list. by rewrite E2, E1, app_assoc.
Qed.

Lemma grows_lookup repo repo' p f :
  grows repo repo' -> lookup_file repo p = Some f -> lookup_file repo' p = Some f.
Proof.
  intros [Hr [new E]] H. destruct repo' as [rr fs]; simpl in *. subst.
  by apply lookup_file_app.
Qed.

Lemma getitem_inr p repo x repo' :
  getitem disk p repo = (inr x, repo') ->
  x = p /\ grows repo repo' /\ contains repo' p = true.
Proof.
  unfold getitem, bind, get. destruct (contains repo p) eqn:Hc.
  - unfold ret. intros [= <- <-]. split; [done|]. split; [apply grows_refl|done].
  - unfold included_filename_root, bind, get.
    destruct (included_filename_root_loop _ _ _ _) as [e|[r|]]; simpl; try done.
    unfold ret. intros [= <- <-]. split; [done|]. split.
    + split; [done|]. by eexists.
    + unfold contains, lookup_file in *; simpl.
      rewrite find_app_l. destruct (find _ (files repo)); [done|].
      simpl. by rewrite String.eqb_refl.
Qed.

Lemma getitem_contains p repo :
  contains repo p = true -> getitem disk p repo = (inr p, repo).
Proof. unfold getitem, bind, get. by intros ->. Qed.

Lemma free_dependency_file_inr p repo o repo' :
  free_dependency_file disk p repo = (inr o, repo') ->
  o = free_dependency_path p /\ grows repo repo'.
Proof.
  unfold free_dependency_file. destruct (free_dependency_path p) as [q|].
  - unfold bind. destruct (getitem disk q repo) as [[e|x] r] eqn:Hg; [done|].
    apply getitem_inr in Hg as (-> & Hgr & _).
    unfold ret. by intros [= <- <-].
  - unfold ret. intros [= <- <-]. split; [done|apply grows_refl].
Qed.

Lemma is_free_dependency_inr p repo b repo' :
  is_free_dependency disk p repo = (inr b, repo') ->
  b = free_dependency_by_path p /\ grows repo repo'.
Proof.
  unfold is_free_dependency, bind.
  destruct (free_dependency_file disk p repo) as [[e|o] r] eqn:Hf; [done|].
  apply free_dependency_file_inr in Hf as [-> Hg].
  unfold ret. intros [= <- <-]. split; [|done].
  unfold free_dependency_by_path. by destruct (free_dependency_path p).
Qed.

Lemma is_amalgamated_inr p repo b repo' :
  is_amalgamated disk p repo = (inr b, repo') ->
  b = negb (free_dependency_by_path p) /\ grows repo repo'.
Proof.
  unfold is_amalgamated, bind.
  destruct (is_free_dependency disk p repo) as [[e|o] r] eqn:Hf; [done|].
  apply is_free_dependency_inr in Hf as [-> Hg].
  unfold ret. by intros [= <- <-].
Qed.

End RepositoryFacts.

(** ** The patterns on lines that carry a SIMDJSON_AMALGAMATED directive *)

Lemma isspace_facts c :
  Py.isspace c = true ->
  Py.isword c = false /\ ("S" =? c)%char = false /\ ("#" =? c)%char = false.
Proof.
  destruct c as [[] [] [] [] [] [] [] []]; vm_compute; intros H;
    repeat split; congruence.
Qed.

Lemma token_at_space c r : Py.isspace c = true -> Re.token_at (String c r) = false.
Proof.
  intros Hc. destruct c as [[] [] [] [] [] [] [] []]; vm_compute in Hc;
    try discriminate Hc; reflexivity.
Qed.

(** Steps [search_token_from] over the characters that are written out,
    at none of which the token starts. *)
Ltac skip_known_characters :=
  repeat (cbn [Re.search_token_from];
          match goal with
          | |- context [Re.token_at (String ?a ?r)] =>
              change (Re.token_at (String a r)) with false
          end; rewrite andb_false_r, orb_false_l).

Lemma search_token_all_spaces r : forall b,
  Re.all_spaces r = true -> Re.search_token_from b r = false.
Proof.
  induction r as [|c r IH]; intros b H;
    cbn [Re.all_spaces Re.search_token_from] in *; [done|].
  apply andb_true_iff in H as [Hc Hr].
  destruct (isspace_facts c Hc) as (Hw & _).
  by rewrite Hw, (IH _ Hr), token_at_space, andb_false_r by done.
Qed.

(** What a line that matches [^<keyword>\s+<macro>\s*$] looks like. *)
Lemma directive_inv keyword macro line :
  Re.directive keyword macro line = true ->
  exists c r0 r2,
    line = keyword ++ String c r0 /\ Py.isspace c = true
    /\ Re.skip_spaces r0 = macro ++ r2 /\ Re.all_spaces r2 = true.
Proof.
  unfold Re.directive.
  destruct (Py.removeprefix keyword line) as [r|] eqn:H1; [|done].
  apply removeprefix_Some in H1.
  destruct r as [|c r0]; simpl; [done|].
  destruct (Py.isspace c) eqn:Hc; [|done].
  destruct (Py.removeprefix macro (Re.skip_spaces r0)) as [r2|] eqn:H2; [|done].
  apply removeprefix_Some in H2. intros H3. by exists c, r0, r2.
Qed.

Lemma search_token_amalgamated r2 : Re.all_spaces r2 = true ->
  forall r0, Re.skip_spaces r0 = "SIMDJSON_AMALGAMATED" ++ r2 ->
  Re.search_token_from false r0 = false.
Proof.
  intros H2. induction r0 as [|c r0 IH]; [done|].
  cbn [Re.skip_spaces].
  destruct (Py.isspace c) eqn:Hc.
  - intros H. destruct (isspace_facts c Hc) as (Hw & _).
    cbn [Re.search_token_from].
    by rewrite Hw, (IH H), token_at_space by done.
  - intros H. cbv [append] in H. injection H as -> ->.
    skip_known_characters. by apply search_token_all_spaces.
Qed.

Lemma search_token_after_keyword keyword c r0 r2 :
  keyword = "#define" \/ keyword = "#undef" ->
  Py.isspace c = true -> Re.all_spaces r2 = true ->
  Re.skip_spaces r0 = "SIMDJSON_AMALGAMATED" ++ r2 ->
  Re.search_token (keyword ++ String c r0) = false.
Proof.
  intros Hk Hc H2 Hr. pose proof (search_token_amalgamated r2 H2 r0 Hr) as Ht.
  destruct (isspace_facts c Hc) as (Hw & _).
  assert (Hs : forall b, Re.search_token_from b (String c r0) = false).
  { intros b. cbn [Re.search_token_from].
    by rewrite Hw, Ht, token_at_space, andb_false_r by done. }
  destruct Hk as [-> | ->]; unfold Re.search_token; cbv [append];
    skip_known_characters; apply Hs.
Qed.

(** A line that defines or undefines SIMDJSON_AMALGAMATED matches no
    other pattern of the writer. *)
Lemma amalgamated_directive_only line :
  Re.define_amalgamated line = true \/ Re.undef_amalgamated line = true ->
  Re.ifndef_amalgamated line = false /\ Re.endif_amalgamated line = false
  /\ Re.included line = None /\ Re.define_implementation line = None
  /\ Re.undef_implementation line = false /\ Re.search_token line = false.
Proof.
  intros [H|H]; apply directive_inv in H as (c & r0 & r2 & -> & Hc & Hr & H2).
  - repeat split; try reflexivity.
    + unfold Re.define_implementation.
      change (Py.removeprefix "#define" ("#define" ++ String c r0))
        with (Some (String c r0)).
      unfold Re.spaces1. by rewrite Hc, Hr.
    + apply (search_token_after_keyword _ c r0 r2); auto.
  - repeat split; try reflexivity.
    + unfold Re.undef_implementation, Re.directive.
      change (Py.removeprefix "#undef" ("#undef" ++ String c r0))
        with (Some (String c r0)).
      unfold Re.spaces1. by rewrite Hc, Hr.
    + apply (search_token_after_keyword _ c r0 r2); auto.
Qed.

(** ** The inclusion legality check *)

Lemma lookup_file_path repo p f : lookup_file repo p = Some f -> include_path f = p.
Proof.
  unfold lookup_file. intros H. apply find_some in H as [_ H].
  by apply String.eqb_eq.
Qed.

Lemma lookup_file_map rr fs h q :
  (forall x, include_path (h x) = include_path x) ->
  lookup_file {| relative_roots := rr; files := map h fs |} q
  = option_map h (lookup_file {| relative_roots := rr; files := fs |} q).
Proof.
  intros Hh. unfold lookup_file; simpl.
  induction fs as [|x fs IH]; simpl; [done|].
  rewrite Hh. by destruct (include_path x =? q).
Qed.

Section Layering.

Context (disk : Disk).


End Layering.


(** ** The directives on SIMDJSON_AMALGAMATED *)

Section Flag.

Context (disk : Disk).

(** Outside an editor-only region, a line that defines or undefines
    SIMDJSON_AMALGAMATED goes through the loop body untouched up to the
    handling of that directive, and is then copied. *)
Lemma line_step_amalgamated_directive file line a :
  editor_only_region a = false ->
  Re.define_amalgamated line = true \/ Re.undef_amalgamated line = true ->
  line_step disk file line a
  = (amalgamated_step disk file line ;; write OSourceLine line ;; ret None) a.
Proof.
  intros Hr Hd.
  destruct (amalgamated_directive_only line Hd) as (H1 & H2 & H3 & H4 & H5 & H6).
  unfold line_step, implementation_step. rewrite H1, H2, H3, H4, H5, H6.
  cbv beta iota zeta delta [bind when get ret assert]. rewrite Hr.
  cbv beta iota zeta delta [negb raise]. reflexivity.
Qed.

Lemma process_line_amalgamated_directive mwf file line a :
  editor_only_region a = false ->
  Re.define_amalgamated line = true \/ Re.undef_amalgamated line = true ->
  process_line disk mwf file line a
  = (amalgamated_step disk file line ;; write OSourceLine line) a.
Proof.
  intros Hr Hd. unfold process_line, bind at 1.
  rewrite (line_step_amalgamated_directive _ _ _ Hr Hd).
  cbv beta iota zeta delta [bind ret].
  by destruct (amalgamated_step disk file line a) as [[e|[]] a'].
Qed.

Lemma undef_not_define line :
  Re.undef_amalgamated line = true -> Re.define_amalgamated line = false.
Proof.
  intros H. apply directive_inv in H as (c & r0 & r2 & -> & _). reflexivity.
Qed.


Lemma on_repository_inv {A} (m : M SimdjsonRepository A) a r a' :
  on_repository m a = (r, a') ->
  m (repository a) = (r, repository a')
  /\ fid a' = fid a
  /\ builtin_implementation a' = builtin_implementation a
  /\ active_implementation a' = active_implementation a
  /\ found_includes a' = found_includes a
  /\ found_includes_per_amalgamation a' = found_includes_per_amalgamation a
  /\ found_generic_includes a' = found_generic_includes a
  /\ amalgamated_defined a' = amalgamated_defined a
  /\ editor_only_region a' = editor_only_region a
  /\ include_stack a' = include_stack a.
Proof.
  unfold on_repository. destruct (m (repository a)) as [r0 repo].
  by intros [= <- <-].
Qed.

Lemma on_repository_is_amalgamated file a b a' :
  on_repository (is_amalgamated disk file) a = (inr b, a') ->
  b = negb (free_dependency_by_path file)
  /\ amalgamated_defined a' = amalgamated_defined a.
Proof.
  intros H. apply on_repository_inv in H as (H & Hf).
  apply is_amalgamated_inr in H as [-> _]. split; [done|]. apply Hf.
Qed.

End Flag.

Lemma is_amalgamated_free_dependency disk f a :
  free_dependency_by_path f = true ->
  on_repository (is_amalgamated disk f) a = (inr false, a).
Proof.
  unfold free_dependency_by_path, on_repository, is_amalgamated,
    is_free_dependency, free_dependency_file.
  destruct (free_dependency_path f); [done|]. intros _. by destruct a.
Qed.

(** Inside an editor-only region, a line that defines or undefines
    SIMDJSON_AMALGAMATED is quoted in a comment and nothing else
    happens. *)
Lemma process_line_amalgamated_directive_in_region disk mwf file line a :
  editor_only_region a = true ->
  Re.define_amalgamated line = true \/ Re.undef_amalgamated line = true ->
  process_line disk mwf file line a
  = (inr tt,
     set_fid (fid a ++ [(OEditorOnly,
                         "/* amalgamation skipped (editor-only): " ++ line ++ " */")])
       a).
Proof.
  intros Hr Hd.
  destruct (amalgamated_directive_only line Hd) as (H1 & H2 & H3 & _).
  unfold process_line, line_step. rewrite H1, H2, H3.
  cbv beta iota zeta delta [bind when get ret assert write modify].
  by rewrite Hr.
Qed.

(** C7, as amended. Outside an editor-only region: a line that defines
    SIMDJSON_AMALGAMATED while it is defined is fatal; where the line
    is accepted the flag was not defined, is defined afterwards and
    [found_includes_per_amalgamation] is empty; and in a free-dependency
    file the line is accepted while the flag is not defined: the flag
    is set, the set is cleared, the annotation is printed and the line
    is copied. A line that undefines it while it is not defined is
    fatal; where the line is accepted the flag was defined and is not
    afterwards; and in a free-dependency file the line is accepted
    while the flag is defined. Inside an editor-only region either
    line is only quoted in a comment, whatever the flag is, and the
    flag and the set stay as they are. *)
Theorem amalgamated_flag_sequencing disk mwf file line a :
  (editor_only_region a = false ->
     (Re.define_amalgamated line = true ->
        (amalgamated_defined a = true ->
           exists e a', process_line disk mwf file line a = (inl e, a'))
        /\ (forall a', process_line disk mwf file line a = (inr tt, a') ->
              amalgamated_defined a = false /\ amalgamated_defined a' = true
              /\ found_includes_per_amalgamation a' = ∅)
        /\ (free_dependency_by_path file = true ->
            amalgamated_defined a = false ->
            process_line disk mwf file line a
            = (inr tt,
               set_fid (fid a ++ [(ODefiningAmalgamated,
                                   "/* defining SIMDJSON_AMALGAMATED */");
                                  (OSourceLine, line)])
                 (set_found_includes_per_amalgamation ∅
                    (set_amalgamated_defined true a)))))
     /\ (Re.undef_amalgamated line = true ->
           (amalgamated_defined a = false ->
              exists e a', process_line disk mwf file line a = (inl e, a'))
           /\ (forall a', process_line disk mwf file line a = (inr tt, a') ->
                 amalgamated_defined a = true /\ amalgamated_defined a' = false)
           /\ (free_dependency_by_path file = true ->
               amalgamated_defined a = true ->
               process_line disk mwf file line a
               = (inr tt,
                  set_fid (fid a ++ [(OUndefiningAmalgamated,
                                      "/* undefining SIMDJSON_AMALGAMATED */");
                                     (OSourceLine, line)])
                    (set_amalgamated_defined false a)))))
  /\ (editor_only_region a = true ->
      Re.define_amalgamated line = true \/ Re.undef_amalgamated line = true ->
      process_line disk mwf file line a
      = (inr tt,
         set_fid (fid a ++ [(OEditorOnly,
                             "/* amalgamation skipped (editor-only): "
                             ++ line ++ " */")])
           a)).
Proof.
  split; [|apply process_line_amalgamated_directive_in_region].
  intros Hr. split; intros Hl.
  - rewrite (process_line_amalgamated_directive disk _ _ _ _ Hr (or_introl Hl)).
    unfold amalgamated_step. rewrite Hl.
    cbv beta iota zeta delta [bind get ret assert raise modify write].
    destruct (on_repository (is_amalgamated disk file) a) as [[e|b] a1] eqn:Ha.
    { split; [eauto|]. split; [done|]. intros Hf.
      by rewrite (is_amalgamated_free_dependency disk file a Hf) in Ha. }
    destruct (free_dependency_by_path file) eqn:Hf.
    + rewrite (is_amalgamated_free_dependency disk file a Hf) in Ha.
      injection Ha as <- <-. simpl.
      destruct (amalgamated_defined a); simpl.
      * split; [eauto|]. split; done.
      * split; [done|]. split; [by intros a' [= <-]|].
        intros _ _. unfold set_fid; simpl. by rewrite <- app_assoc.
    + apply on_repository_is_amalgamated in Ha as [-> Hd]. rewrite Hf. simpl.
      split; [eauto|]. split; done.
  - rewrite (process_line_amalgamated_directive disk _ _ _ _ Hr (or_intror Hl)).
    unfold amalgamated_step. rewrite (undef_not_define _ Hl), Hl.
    cbv beta iota zeta delta [bind get ret assert raise modify write].
    destruct (on_repository (is_amalgamated disk file) a) as [[e|b] a1] eqn:Ha.
    { split; [eauto|]. split; [done|]. intros Hf.
      by rewrite (is_amalgamated_free_dependency disk file a Hf) in Ha. }
    destruct (free_dependency_by_path file) eqn:Hf.
    + rewrite (is_amalgamated_free_dependency disk file a Hf) in Ha.
      injection Ha as <- <-. simpl.
      destruct (amalgamated_defined a); simpl.
      * split; [done|]. split; [by intros a' [= <-]|].
        intros _ _. unfold set_fid; simpl. by rewrite <- app_assoc.
      * split; [eauto|]. split; done.
    + apply on_repository_is_amalgamated in Ha as [-> Hd]. rewrite Hf. simpl.
      split; [eauto|]. split; done.
Qed.

(** C7 fails as stated: [generic/amalgamated.h] is read while
    SIMDJSON_AMALGAMATED is defined, and the [#define] of its
    editor-only region is a second definition with no [#undef] in
    between; the line is quoted in a comment and the run completes. *)
Lemma define_inside_region_is_accepted :
  let r := amalgamate tree_region_define 3 "simdjson.cpp" [src; include] "now" in
  closed r = true /\ failure r = None
  /\ text r
     = [ "/* auto-generated on now. Do not edit! */";
         "/* including simdjson.cpp:  */";
         "/* begin file simdjson.cpp */";
         "/* including generic/dependencies.h: "
           ++ inc "generic/dependencies.h" ++ " */";
         "/* begin file generic/dependencies.h */";
         "/* end file generic/dependencies.h */";
         "/* defining SIMDJSON_AMALGAMATED */";
         "#define SIMDJSON_AMALGAMATED";
         "/* defining SIMDJSON_IMPLEMENTATION to " ++ quoted "arm64" ++ " */";
         "#define SIMDJSON_IMPLEMENTATION arm64";
         "/* including generic/amalgamated.h for arm64: "
           ++ inc "generic/amalgamated.h" ++ " */";
         "/* begin file generic/amalgamated.h for arm64 */";
         "/* amalgamation skipped (editor-only): #ifndef SIMDJSON_AMALGAMATED */";
         "/* amalgamation skipped (editor-only): #define SIMDJSON_AMALGAMATED */";
         "/* amalgamation skipped (editor-only): #endif // SIMDJSON_AMALGAMATED */";
         "int g;";
         "/* end file generic/amalgamated.h for arm64 */";
         "/* end file simdjson.cpp */" ].
Proof. vm_compute. done. Qed.

Lemma amalgamated_flag_sequencing_witness :
  (exists e a',
     process_line tree_cycle (maybe_write_file tree_cycle 0) "a.h"
       "#define SIMDJSON_AMALGAMATED"
       (set_amalgamated_defined true (new_amalgamator [] repo_ab))
     = (inl e, a'))
  /\ process_line tree_cycle (maybe_write_file tree_cycle 0) "a.h"
       "#define SIMDJSON_AMALGAMATED" (new_amalgamator [] repo_ab)
     = (inr tt,
        set_fid [(ODefiningAmalgamated, "/* defining SIMDJSON_AMALGAMATED */");
                 (OSourceLine, "#define SIMDJSON_AMALGAMATED")]
          (set_found_includes_per_amalgamation ∅
             (set_amalgamated_defined true (new_amalgamator [] repo_ab))))
  /\ process_line tree_cycle (maybe_write_file tree_cycle 0) "a.h"
       "#undef SIMDJSON_AMALGAMATED"
       (set_amalgamated_defined true (new_amalgamator [] repo_ab))
     = (inr tt,
        set_fid [(OUndefiningAmalgamated, "/* undefining SIMDJSON_AMALGAMATED */");
                 (OSourceLine, "#undef SIMDJSON_AMALGAMATED")]
          (set_amalgamated_defined false
             (set_amalgamated_defined true (new_amalgamator [] repo_ab))))
  /\ process_line tree_cycle (maybe_write_file tree_cycle 0) "a.h"
       "#define SIMDJSON_AMALGAMATED"
       (set_editor_only_region true
          (set_amalgamated_defined true (new_amalgamator [] repo_ab)))
     = (inr tt,
        set_fid [(OEditorOnly,
                  "/* amalgamation skipped (editor-only): #define SIMDJSON_AMALGAMATED */")]
          (set_editor_only_region true
             (set_amalgamated_defined true (new_amalgamator [] repo_ab)))).
Proof.
  split; [|split; [|split]].
  - exact (proj1 (proj1 (proj1 (amalgamated_flag_sequencing tree_cycle
             (maybe_write_file tree_cycle 0) "a.h" "#define SIMDJSON_AMALGAMATED"
             (set_amalgamated_defined true (new_amalgamator [] repo_ab)))
             eq_refl) eq_refl) eq_refl).
  - exact (proj2 (proj2 (proj1 (proj1 (amalgamated_flag_sequencing tree_cycle
             (maybe_write_file tree_cycle 0) "a.h" "#define SIMDJSON_AMALGAMATED"
             (new_amalgamator [] repo_ab))
             eq_refl) eq_refl)) eq_refl eq_refl).
  - exact (proj2 (proj2 (proj2 (proj1 (amalgamated_flag_sequencing tree_cycle
             (maybe_write_file tree_cycle 0) "a.h" "#undef SIMDJSON_AMALGAMATED"
             (set_amalgamated_defined true (new_amalgamator [] repo_ab)))
             eq_refl) eq_refl)) eq_refl eq_refl).
  - exact (proj2 (amalgamated_flag_sequencing tree_cycle
             (maybe_write_file tree_cycle 0) "a.h" "#define SIMDJSON_AMALGAMATED"
             (set_editor_only_region true
                (set_amalgamated_defined true (new_amalgamator [] repo_ab))))
             eq_refl (or_introl eq_refl)).
Defined.

(** ** Uses of SIMDJSON_IMPLEMENTATION *)

Lemma expand_template_no_backslash X :
  no_backslash X = true -> Re.expand_template X = Some X.
Proof.
  unfold Re.expand_template. induction X as [|c r IH]; [done|].
  cbn [no_backslash Re.expand_template_from]. intros H.
  apply andb_true_iff in H as [Hc Hr]. apply negb_true_iff in Hc.
  by rewrite Hc, (IH Hr).
Qed.

Lemma search_token_not_amalgamated_directive line :
  Re.search_token line = true ->
  Re.define_amalgamated line = false /\ Re.undef_amalgamated line = false.
Proof.
  intros H.
  destruct (Re.define_amalgamated line) eqn:Hd.
  { destruct (amalgamated_directive_only line (or_introl Hd)) as (_&_&_&_&_&E).
    congruence. }
  destruct (Re.undef_amalgamated line) eqn:Hu.
  { destruct (amalgamated_directive_only line (or_intror Hu)) as (_&_&_&_&_&E).
    congruence. }
  done.
Qed.

Section Variant.

Context (disk : Disk).

(** A line that uses SIMDJSON_IMPLEMENTATION, outside an editor-only
    region and not one of the earlier directives: in the file of the
    implementation detection it is copied as it is; elsewhere it is
    fatal when no variant is defined, and when the variant [X] holds no
    backslash the line is copied with each use replaced by [X], unless
    the line so rewritten reads as a directive on SIMDJSON_AMALGAMATED. *)
Lemma uses_of_implementation mwf file line a :
  editor_only_region a = false ->
  no_earlier_directive line ->
  Re.search_token line = true ->
  (file = IMPLEMENTATION_DETECTION_H ->
     process_line disk mwf file line a
     = (inr tt, set_fid (fid a ++ [(OSourceLine, line)]) a))
  /\ (file <> IMPLEMENTATION_DETECTION_H ->
      (active_implementation a = None ->
         process_line disk mwf file line a
         = (inl (UseOfUndefinedImplementation file line), a))
      /\ (forall X,
            active_implementation a = Some X -> X <> EmptyString ->
            no_backslash X = true ->
            Re.define_amalgamated (Re.sub_token_from X false 0 line) = false ->
            Re.undef_amalgamated (Re.sub_token_from X false 0 line) = false ->
            process_line disk mwf file line a
            = (inr tt,
               set_fid (fid a ++ [(OSourceLine, Re.sub_token_from X false 0 line)]) a))).
Proof.
  intros Hr (H1 & H2 & H3 & H4 & H5) Ht.
  destruct (search_token_not_amalgamated_directive line Ht) as [Hd Hu].
  unfold process_line, line_step, implementation_step.
  rewrite H1, H2, H3, H4, H5, Ht.
  cbv beta iota zeta delta [bind when get ret assert]. rewrite Hr.
  cbv beta iota zeta delta [negb raise andb].
  split.
  - intros ->. rewrite String.eqb_refl.
    unfold amalgamated_step. by rewrite Hd, Hu.
  - intros Hf. apply String.eqb_neq in Hf. rewrite Hf. split.
    + by intros ->.
    + intros X -> HX Hb Hd' Hu'. apply String.eqb_neq in HX.
      unfold truthy, str_option, Re.sub_token. rewrite HX.
      rewrite (expand_template_no_backslash X Hb).
      cbv beta iota zeta delta [negb ret].
      unfold amalgamated_step. by rewrite Hd', Hu'.
Qed.

End Variant.

(** C5. The variant is handed to [re.sub] as a replacement template, so
    a variant with a backslash is not what replaces the token: with the
    variant [a\nb] (a backslash and the letter n between a and b) the
    line [SIMDJSON_IMPLEMENTATION::f();] is written with a line feed
    between a and b, not with the variant. *)
Theorem variant_with_backslash_is_not_copied :
  text (amalgamate tree_escape 1 "simdjson.h" [include] "now")
  = [ "/* auto-generated on now. Do not edit! */";
      "/* including simdjson.h:  */";
      "/* begin file simdjson.h */";
      "/* defining SIMDJSON_IMPLEMENTATION to " ++ quoted "a\nb" ++ " */";
      "#define SIMDJSON_IMPLEMENTATION a\nb";
      "a" ++ String Re.newline "b::f();";
      "/* end file simdjson.h */" ]
  /\ "a" ++ String Re.newline "b::f();" <> "a\nb::f();".
Proof. split; [vm_compute; reflexivity|discriminate]. Qed.

(** ** The completeness check *)

Section Validator.

Context (disk : Disk).

Lemma free_dependency_file_known repo p :
  dependency_known repo p = true ->
  free_dependency_file disk p repo = (inr (free_dependency_path p), repo).
Proof.
  unfold dependency_known, free_dependency_file. intros H.
  destruct (free_dependency_path p) as [q|]; [|done].
  unfold bind. by rewrite (getitem_contains disk q repo H).
Qed.

Lemma is_free_dependency_known repo p :
  dependency_known repo p = true ->
  is_free_dependency disk p repo = (inr (free_dependency_by_path p), repo).
Proof.
  intros H. unfold is_free_dependency, bind.
  rewrite (free_dependency_file_known repo p H). unfold ret.
  unfold free_dependency_by_path. by destruct (free_dependency_path p).
Qed.

Lemma scan_app incl req1 req2 extra :
  scan incl (req1 ++ req2)%list extra
  = match scan incl req1 extra with
    | inl fe => inl fe
    | inr extra' => scan incl req2 extra'
    end.
Proof.
  revert extra. induction req1 as [|[f e] req1 IH]; intros extra; simpl; [done|].
  by destruct (bool_decide (e ∈ incl)).
Qed.

Lemma scan_spec incl req extra :
  scan incl req extra
  = match List.find (fun fe => negb (bool_decide (fe.2 ∈ incl))) req with
    | Some fe => inl fe
    | None => inr (extra ∖ list_to_set (map snd req))
    end.
Proof.
  revert extra. induction req as [|[f e] req IH]; intros extra; simpl.
  - f_equal. by rewrite difference_empty_L.
  - destruct (bool_decide (e ∈ incl)); simpl; [|done].
    rewrite IH. destruct (find _ req); [done|]. f_equal.
    by rewrite difference_difference_l_L.
Qed.

Lemma validate_editor_only_includes self file repo es : forall extra,
  (forall e, e ∈ es -> dependency_known repo e = true) ->
  foldM (validate_editor_only_include disk self file) es extra repo
  = scan_result self repo
      (scan (attribute includes [] repo self)
         (map (pair file) (List.filter free_dependency_by_path es)) extra).
Proof.
  induction es as [|e es IH]; intros extra Hk; [done|].
  cbn [foldM]. unfold bind at 1. unfold validate_editor_only_include at 1.
  unfold bind at 1.
  rewrite (is_free_dependency_known repo e) by (apply Hk; left).
  cbn [List.filter]. destruct (free_dependency_by_path e); cbn [map scan].
  - cbv beta iota zeta delta [bind get assert ret raise].
    destruct (bool_decide (e ∈ attribute includes [] repo self)); [|done].
    apply IH. intros e' He'. apply Hk. by right.
  - unfold ret. apply IH. intros e' He'. apply Hk. by right.
Qed.

Lemma iterate_check_file self repo paths : forall extra,
  (forall p, p ∈ paths ->
     dependency_known repo p = true
     /\ forall e, e ∈ attribute editor_only_includes [] repo p ->
          dependency_known repo e = true) ->
  iterate_files (List.length (files repo)) (check_file disk self) paths extra repo
  = scan_result self repo
      (scan (attribute includes [] repo self)
         (flat_map
            (fun file =>
               if bool_decide (free_dependency_path file = Some self)
               then map (pair file)
                      (List.filter free_dependency_by_path
                         (attribute editor_only_includes [] repo file))
               else []) paths) extra).
Proof.
  induction paths as [|p paths IH]; intros extra Hk; cbn [iterate_files flat_map].
  - cbv beta iota zeta delta [bind get ret]. by rewrite Nat.eqb_refl.
  - unfold bind at 1. unfold get at 1. rewrite Nat.eqb_refl. cbn [negb].
    destruct (Hk p) as [Hp He]; [by left|].
    assert (Hrest : forall p', p' ∈ paths ->
      dependency_known repo p' = true
      /\ forall e, e ∈ attribute editor_only_includes [] repo p' ->
           dependency_known repo e = true).
    { intros p' Hp'. apply Hk. by right. }
    unfold bind at 1. unfold check_file at 1. unfold bind at 1.
    rewrite (free_dependency_file_known repo p Hp).
    rewrite scan_app.
    destruct (bool_decide (free_dependency_path p = Some self)).
    + unfold bind at 1. unfold get at 1.
      rewrite (validate_editor_only_includes self p repo _ extra He).
      destruct (scan _ (map _ _) extra) as [[f e]|extra']; [done|].
      cbn [scan_result]. by apply IH.
    + unfold ret at 1. cbn [scan]. by apply IH.
Qed.

(** What [validate_free_dependency_file] returns once the repository
    has been classified: the first required file that the aggregator
    lacks is reported; failing that, the includes that nothing
    requires. *)
Lemma classified_file repo f :
  classified repo = true -> f ∈ files repo ->
  dependency_known repo (include_path f) = true
  /\ forall e, e ∈ editor_only_includes f -> dependency_known repo e = true.
Proof.
  unfold classified. intros H Hf. rewrite forallb_forall in H.
  apply list_elem_of_In, H, andb_true_iff in Hf as [H1 H2]. split; [done|].
  intros e He. rewrite forallb_forall in H2. by apply H2, list_elem_of_In.
Qed.

Lemma validate_free_dependency_file_spec self repo :
  classified repo = true ->
  is_free_dependency_file self = true ->
  validate_free_dependency_file disk self repo
  = match first_missing repo self with
    | Some (f, e) => (inl (NotIncludedFromDependencies f e self), repo)
    | None =>
        if bool_decide (unnecessary repo self = ∅) then (inr tt, repo)
        else (inl (UnnecessaryIncludes self (unnecessary repo self)), repo)
    end.
Proof.
  intros Hc Hs. unfold validate_free_dependency_file. rewrite Hs.
  unfold bind at 1. unfold get at 1. unfold bind at 1.
  unfold for_each_file, bind at 1. unfold get at 1.
  change (iterate_files _ _ _ _ repo)
    with (iterate_files (List.length (files repo)) (check_file disk self)
            (map include_path (files repo))
            (list_to_set (attribute includes [] repo self)) repo).
  rewrite iterate_check_file.
  - fold (required repo self). rewrite scan_spec. fold (first_missing repo self).
    destruct (first_missing repo self) as [[f e]|]; [done|].
    cbn [scan_result]. fold (unnecessary repo self). unfold assert.
    by destruct (bool_decide (unnecessary repo self = ∅)).
  - intros p Hp. apply list_elem_of_fmap in Hp as (f & -> & Hf).
    destruct (classified_file repo f Hc Hf) as [Hk He]. split; [done|].
    unfold attribute. destruct (lookup_file repo (include_path f)) as [f'|] eqn:Hl.
    + apply find_some in Hl as [Hin _]. apply list_elem_of_In in Hin.
      intros e. by apply (classified_file repo f' Hc Hin).
    + intros e He'. by apply elem_of_nil in He'.
Qed.

Lemma first_missing_Some repo self f e :
  first_missing repo self = Some (f, e) ->
  (f, e) ∈ required repo self /\ e ∉ attribute includes [] repo self.
Proof.
  unfold first_missing. intros H. apply find_some in H as [Hin H].
  split; [by apply list_elem_of_In|].
  apply negb_true_iff, bool_decide_eq_false in H. exact H.
Qed.

Lemma first_missing_None repo self :
  first_missing repo self = None ->
  forall f e, (f, e) ∈ required repo self -> e ∈ attribute includes [] repo self.
Proof.
  unfold first_missing. intros H f e Hin.
  apply list_elem_of_In in Hin.
  pose proof (find_none _ _ H _ Hin) as Hn. simpl in Hn.
  apply negb_false_iff, bool_decide_eq_true in Hn. exact Hn.
Qed.

(** C2, as amended. An aggregator that lacks a free dependency which a
    file it governs includes from an editor-only region is refused with
    one fatal error, which names one missing file: the first one that
    the check meets, with the file that includes it. *)
Theorem validate_reports_first_missing self repo f e :
  classified repo = true ->
  is_free_dependency_file self = true ->
  (f, e) ∈ required repo self ->
  e ∉ attribute includes [] repo self ->
  exists f0 e0,
    first_missing repo self = Some (f0, e0)
    /\ validate_free_dependency_file disk self repo
       = (inl (NotIncludedFromDependencies f0 e0 self), repo)
    /\ (f0, e0) ∈ required repo self
    /\ e0 ∉ attribute includes [] repo self.
Proof.
  intros Hc Hs Hin Hnot.
  rewrite (validate_free_dependency_file_spec self repo Hc Hs).
  destruct (first_missing repo self) as [[f0 e0]|] eqn:Hm.
  - exists f0, e0. destruct (first_missing_Some _ _ _ _ Hm). by repeat split.
  - exfalso. apply Hnot. by apply (first_missing_None repo self Hm f e).
Qed.



End Validator.

(** C2 fails as stated: the aggregator of [tree_missing] lacks both
    [a.h] and [b.h], and the run ends with an error that names [a.h]
    alone. *)
Lemma missing_dependencies_are_reported_one_at_a_time :
  (amalgamate_run tree_missing 3 "simdjson.cpp" [src; include] "now").1
  = inl (NotIncludedFromDependencies "generic/amalgamated.h" "a.h"
           "generic/dependencies.h")
  /\ required repo_missing "generic/dependencies.h"
     = [("generic/amalgamated.h", "a.h"); ("generic/amalgamated.h", "b.h")]
  /\ attribute includes [] repo_missing "generic/dependencies.h" = [].
Proof. vm_compute. done. Qed.

Lemma validate_reports_first_missing_witness :
  exists f0 e0,
    first_missing repo_missing "generic/dependencies.h" = Some (f0, e0)
    /\ validate_free_dependency_file tree_missing "generic/dependencies.h"
         repo_missing
       = (inl (NotIncludedFromDependencies f0 e0 "generic/dependencies.h"),
          repo_missing)
    /\ (f0, e0) ∈ required repo_missing "generic/dependencies.h"
    /\ e0 ∉ attribute includes [] repo_missing "generic/dependencies.h".
Proof.
  apply (validate_reports_first_missing tree_missing "generic/dependencies.h"
           repo_missing "generic/amalgamated.h" "b.h").
  - vm_compute. reflexivity.
  - reflexivity.
  - apply (bool_decide_unpack _). vm_compute. exact I.
  - apply (bool_decide_unpack _). vm_compute. exact I.
Defined.


(** ** Computations that do not bear on the view *)

Lemma same_view_refl a : same_view a a.
Proof.
  split; [|done]. exists []. by rewrite app_nil_r.
Qed.

Lemma same_view_trans a1 a2 a3 :
  same_view a1 a2 -> same_view a2 a3 -> same_view a1 a3.
Proof.
  intros [(e1 & E1 & Q1) [F1 G1]] [(e2 & E2 & Q2) [F2 G2]].
  split; [|split; congruence].
  exists (e1 ++ e2)%list. split.
  - by rewrite E2, E1, app_assoc.
  - rewrite forallb_app. by rewrite Q1, Q2.
Qed.

Lemma same_view_counts a a' :
  same_view a a' ->
  (forall f v, count_including f v (fid a') = count_including f v (fid a))
  /\ (forall f v, count_begin f v (fid a') = count_begin f v (fid a)).
Proof.
  intros [(extra & E & Q) _].
  assert (H : forall o, quiet_origin o = false ->
            count_occ Origin_eq_dec (map fst (fid a')) o
            = count_occ Origin_eq_dec (map fst (fid a)) o).
  { intros o Ho. rewrite E, map_app, count_occ_app.
    rewrite (proj1 (count_occ_not_In Origin_eq_dec (map fst extra) o)); [lia|].
    intros Hin. apply in_map_iff in Hin as ([o' l] & Ho' & Hin).
    simpl in Ho'. subst o'. rewrite forallb_forall in Q.
    specialize (Q _ Hin). simpl in Q. congruence. }
  split; intros f v; by apply H.
Qed.

Lemma quiet_ret {A} (x : A) : quiet (ret x).
Proof. intros a. apply same_view_refl. Qed.

Lemma quiet_raise {A} e : quiet (@raise Amalgamator A e).
Proof. intros a. apply same_view_refl. Qed.

Lemma quiet_get : quiet (@get Amalgamator).
Proof. intros a. apply same_view_refl. Qed.

Lemma quiet_assert b e : quiet (@assert Amalgamator b e).
Proof. destruct b; [apply quiet_ret|apply quiet_raise]. Qed.

Lemma quiet_bind {A B} (m : M Amalgamator A) (k : A -> M Amalgamator B) :
  quiet m -> (forall x, quiet (k x)) -> quiet (bind m k).
Proof.
  intros Hm Hk a. unfold bind. specialize (Hm a).
  destruct (m a) as [[e|x] a1]; simpl in *; [done|].
  eapply same_view_trans; [exact Hm|apply Hk].
Qed.

Lemma quiet_when b m : quiet m -> quiet (when b m).
Proof. intros H. destruct b; [done|apply quiet_ret]. Qed.

Lemma quiet_on_repository {A} (m : M SimdjsonRepository A) :
  quiet (on_repository m).
Proof.
  intros a. unfold on_repository. destruct (m (repository a)) as [r repo].
  simpl. split; [|done]. exists []. by rewrite app_nil_r.
Qed.

Lemma quiet_write o line : quiet_origin o = true -> quiet (write o line).
Proof.
  intros Ho a. unfold write, modify; simpl. split; [|done].
  exists [(o, line)]. split; [done|]. simpl. by rewrite Ho.
Qed.

Lemma quiet_modify f : (forall a, same_view a (f a)) -> quiet (modify f).
Proof. intros H a. apply H. Qed.

Lemma same_view_fields a a' :
  fid a' = fid a -> found_includes a' = found_includes a ->
  found_generic_includes a' = found_generic_includes a -> same_view a a'.
Proof.
  intros E F G. split; [|done]. exists []. by rewrite app_nil_r.
Qed.

Create HintDb quiet.

#[export] Hint Resolve quiet_ret quiet_raise quiet_get quiet_assert
  quiet_on_repository quiet_when : quiet.
#[export] Hint Extern 1 (quiet (bind _ _)) => apply quiet_bind; [|intros ?] : quiet.
#[export] Hint Extern 1 (quiet (write _ _)) => apply quiet_write; reflexivity : quiet.
#[export] Hint Extern 1 (quiet (modify _)) =>
  apply quiet_modify; intros ?; by apply same_view_fields : quiet.
#[export] Hint Extern 2 (quiet (match ?x with _ => _ end)) => destruct x : quiet.

Section QuietSteps.

Context (disk : Disk).

Lemma quiet_file_to_str file : quiet (file_to_str disk file).
Proof. unfold file_to_str. auto 20 with quiet. Qed.

Lemma quiet_implementation_step file line :
  quiet (implementation_step file line).
Proof. unfold implementation_step. auto 20 with quiet. Qed.

Lemma quiet_amalgamated_step file line :
  quiet (amalgamated_step disk file line).
Proof. unfold amalgamated_step. auto 20 with quiet. Qed.

Lemma quiet_line_step file line : quiet (line_step disk file line).
Proof.
  pose proof quiet_implementation_step. pose proof quiet_amalgamated_step.
  unfold line_step. auto 30 with quiet.
Qed.

Lemma quiet_end_file file : quiet (end_file disk file).
Proof.
  pose proof quiet_file_to_str.
  unfold end_file, set_processed. auto 30 with quiet.
Qed.

End QuietSteps.

(** ** What the steps that bear on the view do *)

Section Steps.

Context (disk : Disk).

Lemma on_repository_is_amalgamated_inv file a r a' :
  on_repository (is_amalgamated disk file) a = (r, a') ->
  fid a' = fid a
  /\ found_includes a' = found_includes a
  /\ found_generic_includes a' = found_generic_includes a
  /\ active_implementation a' = active_implementation a
  /\ include_stack a' = include_stack a
  /\ forall b, r = inr b -> b = negb (free_dependency_by_path file).
Proof.
  intros H.
  apply on_repository_inv in H as (H & ? & _ & ? & ? & _ & ? & _ & _ & ?).
  repeat split; try done. intros b ->.
  by apply is_amalgamated_inr in H as [-> _].
Qed.

Lemma file_to_str_inv file a r a' :
  file_to_str disk file a = (r, a') ->
  fid a' = fid a
  /\ found_includes a' = found_includes a
  /\ found_generic_includes a' = found_generic_includes a
  /\ active_implementation a' = active_implementation a
  /\ include_stack a' = include_stack a
  /\ forall l, r = inr l ->
       l = (file, variant_label file (active_implementation a)).
Proof.
  unfold file_to_str, variant_label.
  destruct (is_generic file); simpl.
  2:{ unfold ret. intros [= <- <-]. repeat split; try done. by intros l [= <-]. }
  cbv beta iota zeta delta [bind get ret assert raise].
  destruct (on_repository (is_amalgamated disk file) a) as [[e|b] a1] eqn:H.
  - apply on_repository_inv in H as (_ & ? & _ & ? & ? & _ & ? & _ & _ & ?).
    intros [= <- <-]. by repeat split.
  - apply on_repository_inv in H as (H & ? & _ & Hact & ? & _ & ? & _ & _ & ?).
    apply is_amalgamated_inr in H as [-> _].
    destruct (free_dependency_by_path file); simpl.
    + intros [= <- <-]. repeat split; try done. by intros l [= <-].
    + destruct (truthy (active_implementation a1)); intros [= <- <-];
        repeat split; try done. intros l [= <-]. by rewrite Hact.
Qed.

Lemma announce_inv file else_line a r a' :
  announce disk file else_line a = (r, a') ->
  active_implementation a' = active_implementation a
  /\ include_stack a' = include_stack a
  /\ ((exists e, r = inl e) /\ same_view a a'
      \/ r = inr tt
         /\ adds_line (OIncluding file (variant_label file (active_implementation a)))
              a a').
Proof.
  unfold announce, bind.
  destruct (file_to_str disk file a) as [[e|l] a1] eqn:H;
    apply file_to_str_inv in H as (Hfid & Hf & Hg & Hact & Hst & Hl).
  - intros [= <- <-]. repeat split; try done. left. split; [eauto|].
    by apply same_view_fields.
  - rewrite (Hl l eq_refl). unfold write, modify. simpl. intros [= <- <-]. simpl.
    repeat split; try done. right. split; [done|].
    split; [|done]. simpl. rewrite Hfid. eauto.
Qed.

Lemma should_write_inv file including_file else_line a r a' :
  should_write disk file including_file else_line a = (r, a') ->
  should_write_outcome file a r a'
  /\ active_implementation a' = active_implementation a
  /\ include_stack a' = include_stack a.
Proof.
  unfold should_write. unfold bind at 1.
  destruct (on_repository (is_amalgamated disk file) a) as [[e|b] a1] eqn:H;
    apply on_repository_is_amalgamated_inv in H
      as (Hfid & Hf & Hg & Hact & Hst & Hb).
  { intros [= <- <-]. split; [|done]. constructor. by apply same_view_fields. }
  rewrite (Hb b eq_refl). clear Hb.
  destruct (free_dependency_by_path file) eqn:Hfree; cbn [negb].
  - (* a free dependency *)
    cbv beta iota zeta delta [bind get ret write modify].
    destruct (bool_decide (file ∈ found_includes a1)) eqn:Hin.
    + apply bool_decide_eq_true in Hin. rewrite Hf in Hin.
      intros [= <- <-]. simpl. split; [|done].
      apply sw_skipped; [done|done|]. split; [|done].
      simpl. rewrite Hfid. eexists. split; [reflexivity|done].
    + apply bool_decide_eq_false in Hin. rewrite Hf in Hin.
      intros [= <- <-]. simpl. split; [|done].
      apply sw_free_dependency; simpl; try done. by rewrite Hf.
  - (* an amalgamated file *)
    destruct (is_generic file) eqn:Hgen.
    + cbv beta iota zeta delta [bind get ret assert raise modify].
      destruct (found_generic a1 file) eqn:Hfg; cbn [negb].
      { intros [= <- <-]. split; [|done]. constructor. by apply same_view_fields. }
      destruct (active_implementation a1) as [X|] eqn:HX; cbn [truthy].
      2:{ intros [= <- <-]. split; [|split; congruence].
          constructor. by apply same_view_fields. }
      destruct (negb (X =? EmptyString)).
      2:{ intros [= <- <-]. split; [|split; congruence].
          constructor. by apply same_view_fields. }
      intros [= <- <-]. simpl. split; [|split; congruence].
      apply (sw_generic file a X); simpl; try done.
      * unfold found_generic in Hfg. rewrite HX in Hfg.
        apply bool_decide_eq_false in Hfg. by rewrite Hg in Hfg.
      * by rewrite HX, Hg.
    + cbv beta iota zeta delta [bind get ret modify].
      intros [= <- <-]. simpl. split; [|done].
      apply sw_amalgamated; try done. by apply same_view_fields.
Qed.

Lemma begin_file_inv file a r a' :
  begin_file disk file a = (r, a') ->
  active_implementation a' = active_implementation a
  /\ ((exists e, r = inl e) /\ same_view a a'
      \/ adds_line (OBeginFile file (variant_label file (active_implementation a)))
           a a').
Proof.
  unfold begin_file. unfold bind at 1. unfold get at 1. unfold bind at 1.
  destruct (bool_decide (file ∈ include_stack a)); cbn [negb assert].
  { unfold raise. intros [= <- <-]. split; [done|]. left.
    split; [eauto|apply same_view_refl]. }
  unfold ret at 1. unfold bind at 1. unfold modify at 1.
  set (a0 := set_include_stack _ a).
  unfold bind at 1.
  destruct (set_processed file false a0) as [[e|[]] a1] eqn:H1;
    apply on_repository_inv in H1 as (_ & F1 & _ & A1 & I1 & _ & G1 & _ & _ & _);
    subst a0; simpl in F1, A1, I1, G1.
  { intros [= <- <-]. split; [done|]. left. split; [eauto|].
    by apply same_view_fields. }
  unfold bind at 1.
  destruct (file_to_str disk file a1) as [[e|l] a2] eqn:H2;
    apply file_to_str_inv in H2 as (F2 & I2 & G2 & A2 & _ & Hl).
  { intros [= <- <-]. split; [congruence|]. left. split; [eauto|].
    apply same_view_fields; congruence. }
  rewrite (Hl l eq_refl). clear Hl. cbn [fst snd].
  unfold bind at 1. unfold write at 1. unfold modify at 1.
  set (a3 := set_fid _ a2).
  assert (Hadd : adds_line
            (OBeginFile file (variant_label file (active_implementation a)))
            a a3).
  { subst a3. split; simpl.
    - rewrite F2, F1, A1. simpl. eauto.
    - split; congruence. }
  assert (Hact : active_implementation a3 = active_implementation a).
  { subst a3. simpl. congruence. }
  clearbody a3. unfold file_eq_str. cbn [when].
  cbv beta iota zeta delta [bind get ret assert raise open_file].
  destruct (editor_only_region a3); cbn [negb].
  { intros [= <- <-]. split; [done|]. by right. }
  destruct (disk_find disk _ file); intros [= <- <-]; split; try done; by right.
Qed.

End Steps.

(** ** Each file is written once *)

Lemma count_occ_snoc {A} (dec : forall x y : A, {x = y} + {x <> y}) l x y :
  count_occ dec (l ++ [x])%list y
  = count_occ dec l y + (if dec x y then 1 else 0).
Proof. rewrite count_occ_app. simpl. destruct (dec x y); lia. Qed.

Lemma adds_including f v a a' :
  adds_line (OIncluding f v) a a' ->
  (forall g w, count_including g w (fid a')
               = count_including g w (fid a)
                 + (if bool_decide ((g, w) = (f, v)) then 1 else 0))
  /\ (forall g w, count_begin g w (fid a') = count_begin g w (fid a)).
Proof.
  intros [[line E] _]. unfold count_including, count_begin. rewrite E.
  split; intros g w; rewrite map_app; cbn [map fst]; rewrite count_occ_snoc.
  - destruct (Origin_eq_dec _ _) as [Heq|Hne]; case_bool_decide; try lia.
    + exfalso. injection Heq as -> ->. done.
    + exfalso. apply Hne. congruence.
  - destruct (Origin_eq_dec _ _); [done|lia].
Qed.

Lemma adds_begin f v a a' :
  adds_line (OBeginFile f v) a a' ->
  (forall g w, count_begin g w (fid a')
               = count_begin g w (fid a)
                 + (if bool_decide ((g, w) = (f, v)) then 1 else 0))
  /\ (forall g w, count_including g w (fid a') = count_including g w (fid a)).
Proof.
  intros [[line E] _]. unfold count_including, count_begin. rewrite E.
  split; intros g w; rewrite map_app; cbn [map fst]; rewrite count_occ_snoc.
  - destruct (Origin_eq_dec _ _) as [Heq|Hne]; case_bool_decide; try lia.
    + exfalso. injection Heq as -> ->. done.
    + exfalso. apply Hne. congruence.
  - destruct (Origin_eq_dec _ _); [done|lia].
Qed.

Lemma written_once_same_view p a a' :
  same_view a a' -> written_once p a -> written_once p a'.
Proof.
  intros Hv (K & G & L). destruct (same_view_counts _ _ Hv) as [Hi Hb].
  destruct Hv as (_ & Hf & Hg). split; [|split].
  - intros f Hfree. destruct (K f Hfree) as (K1 & K2 & K3).
    rewrite Hi, Hf. split; [|by split]. intros v. by rewrite Hi.
  - intros g X. rewrite Hi, Hg. apply G.
  - intros f v. rewrite Hi, Hb. apply L.
Qed.

Lemma written_once_weaken p a : written_once (Some p) a -> written_once None a.
Proof.
  intros (K & G & L). split; [done|]. split; [done|].
  intros f v. specialize (L f v). rewrite bool_decide_eq_false_2 by done.
  destruct (bool_decide _); lia.
Qed.

Lemma written_once_begin f v a a' :
  written_once (Some (f, v)) a -> adds_line (OBeginFile f v) a a' ->
  written_once None a'.
Proof.
  intros (K & G & L) Ha. destruct (adds_begin _ _ _ _ Ha) as [Hb Hi].
  destruct Ha as (_ & Hf & Hg). split; [|split].
  - intros g Hfree. destruct (K g Hfree) as (K1 & K2 & K3).
    rewrite Hi, Hf. split; [|by split]. intros w. by rewrite Hi.
  - intros g X. rewrite Hi, Hg. apply G.
  - intros g w. rewrite Hi, Hb. specialize (L g w).
    repeat case_bool_decide; try lia; congruence.
Qed.

Lemma written_once_should_write f a r a' :
  written_once None a -> should_write_outcome f a r a' -> written_once None a'.
Proof.
  intros H Ho. destruct Ho as [e a' Hv| a' _ _ Hv | a' _ _ Hfid Hf Hg
                              | X a' _ _ _ _ Hfid Hf Hg | a' _ _ Hv];
    try by apply (written_once_same_view None a a').
  - destruct H as (K & G & L). unfold count_including, count_begin in *.
    split; [|split].
    + intros g Hfree. destruct (K g Hfree) as (K1 & K2 & K3).
      rewrite Hfid, Hf. split; [done|]. split; [done|].
      intros Hc. apply elem_of_union_r. by apply K3.
    + intros g X. rewrite Hfid, Hg. apply G.
    + intros g w. rewrite Hfid. apply L.
  - destruct H as (K & G & L). unfold count_including, count_begin in *.
    split; [|split].
    + intros g Hfree. rewrite Hfid, Hf. by apply K.
    + intros g Y. rewrite Hfid, Hg. destruct (G g Y) as [G1 G2].
      split; [done|]. intros Hc. apply elem_of_app. left. by apply G2.
    + intros g w. rewrite Hfid. apply L.
Qed.

Lemma variant_label_free f active :
  free_dependency_by_path f = true -> variant_label f active = None.
Proof. unfold variant_label. intros ->. by rewrite andb_false_r. Qed.

(** The view after an announcement of [f] with label [v], from a state
    where nothing announced so far clashes with it. *)
Lemma written_once_including f v a a' :
  written_once None a ->
  adds_line (OIncluding f v) a a' ->
  (free_dependency_by_path f = true ->
     v = None /\ count_including f None (fid a) = 0 /\ f ∈ found_includes a) ->
  (forall X, v = Some X ->
     free_dependency_by_path f = false
     /\ count_including f (Some X) (fid a) = 0
     /\ (f, X) ∈ found_generic_includes a) ->
  written_once (Some (f, v)) a'.
Proof.
  intros (K & G & L) Ha Hfree Hvar.
  destruct (adds_including _ _ _ _ Ha) as [Hi Hb].
  destruct Ha as (_ & Hf & Hg). split; [|split].
  - intros g Hg'. destruct (K g Hg') as (K1 & K2 & K3).
    rewrite !Hi, Hf. split; [|split].
    + intros w. rewrite Hi. case_bool_decide as E; [|by rewrite K1].
      injection E as -> <-. destruct (Hvar w eq_refl) as (Hc & _). congruence.
    + case_bool_decide as E; [|lia]. injection E as -> <-.
      destruct (Hfree Hg') as (_ & -> & _). lia.
    + case_bool_decide as E; [|rewrite Nat.add_0_r; exact K3].
      injection E as -> <-. intros _. by apply Hfree.
  - intros g X. destruct (G g X) as [G1 G2]. rewrite Hi, Hg.
    case_bool_decide as E; [|by rewrite Nat.add_0_r].
    injection E as -> <-. destruct (Hvar X eq_refl) as (_ & -> & Hin). split; [lia|done].
  - intros g w. rewrite Hi, Hb. specialize (L g w).
    repeat case_bool_decide; try lia; congruence.
Qed.

Lemma written_once_announce f a a1 a2 :
  written_once None a ->
  should_write_outcome f a (inr true) a1 ->
  active_implementation a1 = active_implementation a ->
  adds_line (OIncluding f (variant_label f (active_implementation a1))) a1 a2 ->
  written_once (Some (f, variant_label f (active_implementation a1))) a2.
Proof.
  intros H Ho Hact Ha. pose proof (written_once_should_write _ _ _ _ H Ho) as H1.
  apply (written_once_including _ _ a1 a2 H1 Ha).
  - (* a free dependency *)
    intros Hfree. split; [by apply variant_label_free|].
    destruct H as (K & _).
    inversion Ho as [| | a' _ Hnin Hfid Hf Hg | X a' Hc | a' Hc]; subst;
      try congruence.
    rewrite Hfid, Hf. split; [|apply elem_of_union_l; by apply elem_of_singleton].
    destruct (K f Hfree) as (_ & _ & Hin).
    destruct (count_including f None (fid a)); [done|]. exfalso. apply Hnin, Hin. lia.
  - (* a label with a variant *)
    intros X HX. unfold variant_label in HX.
    destruct (is_generic f) eqn:Hgen; [|done].
    destruct (free_dependency_by_path f) eqn:Hfree; [done|]. split; [done|].
    simpl in HX. destruct H as (_ & G & _).
    inversion Ho as [| | a' Hc | Y a' _ _ HY Hnin Hfid Hf Hg | a' _ Hc]; subst;
      try congruence.
    rewrite Hact, HY in HX. simpl in HX. injection HX as ->.
    rewrite Hfid, Hg. split; [|apply elem_of_app; right; by left].
    destruct (G f X) as (_ & Hin).
    destruct (count_including f (Some X) (fid a)); [done|]. exfalso. apply Hnin, Hin. lia.
Qed.

Section WrittenOnce.

Context (disk : Disk).

Lemma maybe_write_file_written_once wf :
  keeps_written_once wf ->
  forall f inc line a,
    written_once None a ->
    written_once None (maybe_write_file_with disk wf f inc line a).2.
Proof.
  intros Hwf f inc line a H. unfold maybe_write_file_with, bind.
  destruct (should_write disk f inc line a) as [[e|b] a1] eqn:Hs;
    apply should_write_inv in Hs as (Ho & Hact & _).
  { simpl. exact (written_once_should_write f a _ a1 H Ho). }
  destruct b; cbn [when].
  2:{ simpl. exact (written_once_should_write f a _ a1 H Ho). }
  destruct (announce disk f line a1) as [[e|[]] a2] eqn:Ha;
    apply announce_inv in Ha as (Hact2 & _ & [[He Hv] | [He Hadd]]).
  - simpl. apply (written_once_same_view None a1 a2 Hv).
    exact (written_once_should_write f a _ a1 H Ho).
  - discriminate He.
  - by destruct He.
  - apply Hwf. rewrite Hact2. by apply (written_once_announce f a a1 a2).
Qed.

Lemma write_lines_written_once wf :
  keeps_written_once wf ->
  forall file lines a,
    written_once None a ->
    written_once None
      (write_lines disk (maybe_write_file_with disk wf) file lines a).2.
Proof.
  intros Hwf file lines. induction lines as [|line lines IH]; intros a H; [done|].
  cbn [write_lines]. unfold bind at 1. unfold process_line, bind at 1.
  pose proof (quiet_line_step disk file line a) as Hq.
  destruct (line_step disk file line a) as [[e|target] a1]; simpl in Hq.
  { simpl. by apply (written_once_same_view None a a1). }
  pose proof (written_once_same_view None a a1 Hq H) as H1.
  destruct target as [g|].
  - pose proof (maybe_write_file_written_once wf Hwf g (Some file) line a1 H1) as H2.
    destruct (maybe_write_file_with disk wf g (Some file) line a1) as [[e|[]] a2];
      simpl in *; [done|]. by apply IH.
  - unfold ret. by apply IH.
Qed.

Lemma write_file_body_written_once wf :
  keeps_written_once wf -> keeps_written_once (write_file_body disk wf).
Proof.
  intros Hwf f a H. unfold write_file_body, bind.
  destruct (begin_file disk f a) as [r a1] eqn:Hb.
  apply begin_file_inv in Hb as (Hact & Hb).
  assert (H1 : written_once None a1).
  { destruct Hb as [[_ Hv] | Hadd].
    - apply (written_once_same_view None a a1 Hv).
      by apply (written_once_weaken (f, variant_label f (active_implementation a))).
    - exact (written_once_begin f _ a a1 H Hadd). }
  destruct r as [e|lines]; [done|].
  pose proof (write_lines_written_once wf Hwf f lines a1 H1) as H2.
  destruct (write_lines disk _ f lines a1) as [[e|[]] a2]; simpl in *; [done|].
  apply (written_once_same_view None a2); [|done].
  apply quiet_end_file.
Qed.

Lemma write_file_written_once fuel : keeps_written_once (write_file disk fuel).
Proof.
  induction fuel as [|fuel IH]; cbn [write_file].
  - intros f a H. simpl.
    by apply (written_once_weaken (f, variant_label f (active_implementation a))).
  - by apply write_file_body_written_once.
Qed.

Lemma written_once_initially out repo :
  (forall l, l ∈ out -> quiet_origin l.1 = true) ->
  written_once None (new_amalgamator out repo).
Proof.
  intros Hq.
  assert (H0 : forall o, quiet_origin o = false ->
            count_occ Origin_eq_dec (map fst out) o = 0).
  { intros o Ho. apply count_occ_not_In. intros Hin.
    apply in_map_iff in Hin as (l & <- & Hin). apply list_elem_of_In in Hin.
    specialize (Hq l Hin). congruence. }
  unfold written_once, free_dependencies_once, generic_once_per_variant,
    begins_announced, count_including, count_begin.
  change (fid (new_amalgamator out repo)) with out.
  split; [|split].
  - intros f _. rewrite !H0 by done. split; [|split; [lia|lia]].
    intros v. by apply H0.
  - intros g X. rewrite H0 by done. split; lia.
  - intros f v. rewrite !H0 by done. simpl. lia.
Qed.

(** Whatever the tree and however the run ends, the amalgamator is
    left with each file written once in the sense of [written_once]. *)
Lemma amalgamate_run_written_once fuel file roots timestamp :
  written_once None (amalgamate_run disk fuel file roots timestamp).2.
Proof.
  unfold amalgamate_run. set (a0 := new_amalgamator _ _).
  assert (H0 : written_once None a0).
  { apply written_once_initially. intros l Hl.
    apply list_elem_of_singleton in Hl. by subst. }
  clearbody a0. unfold bind at 1.
  pose proof (quiet_on_repository (getitem disk file) a0) as Hq.
  destruct (on_repository (getitem disk file) a0) as [[e|f] a1]; simpl in Hq.
  { simpl. by apply (written_once_same_view None a0). }
  pose proof (written_once_same_view None a0 a1 Hq H0) as H1.
  unfold bind at 1.
  pose proof (maybe_write_file_written_once (write_file disk fuel)
                (write_file_written_once fuel) f None EmptyString a1 H1) as H2.
  fold (maybe_write_file disk fuel) in H2.
  destruct (maybe_write_file disk fuel f None EmptyString a1) as [[e|[]] a2];
    simpl in *; [done|].
  apply (written_once_same_view None a2); [|done].
  apply quiet_on_repository.
Qed.

End WrittenOnce.

Lemma output_amalgamate disk fuel file roots timestamp :
  output (amalgamate disk fuel file roots timestamp)
  = fid (amalgamate_run disk fuel file roots timestamp).2.
Proof.
  unfold amalgamate.
  by destruct (amalgamate_run disk fuel file roots timestamp) as [[e|[]] a].
Qed.


(** C1, as amended. A free-dependency file is written at most once in
    a run: it is announced and begun at most once, and never for a
    variant.  When it is included and is already in [found_includes],
    nothing but the skipped-duplicate annotation is written; when it is
    not, it is added to [found_includes], announced and written. *)
Theorem free_dependency_files_are_written_once disk f :
  free_dependency_by_path f = true ->
  (forall fuel file roots timestamp,
     let out := output (amalgamate disk fuel file roots timestamp) in
     count_including f None out <= 1 /\ count_begin f None out <= 1
     /\ forall v, count_including f (Some v) out = 0
                  /\ count_begin f (Some v) out = 0)
  /\ (forall fuel inc line a,
        f ∈ found_includes a ->
        maybe_write_file disk fuel f inc line a
        = (inr tt,
           set_fid
             (fid a ++ [(OSkippedDuplicate,
                         ("/* skipped duplicate " ++ line ++ " */")%string)])%list
             a))
  /\ (forall fuel inc line a,
        f ∉ found_includes a ->
        maybe_write_file disk fuel f inc line a
        = (announce disk f line ;; write_file disk fuel f)
            (set_found_includes ({[f]} ∪ found_includes a) a)).
Proof.
  intros Hfree. split; [|split].
  - intros fuel file roots timestamp out. subst out.
    rewrite output_amalgamate.
    destruct (amalgamate_run_written_once disk fuel file roots timestamp)
      as (K & _ & L).
    destruct (K f Hfree) as (K1 & K2 & _).
    pose proof (L f None) as L1. rewrite bool_decide_eq_false_2 in L1 by done.
    split; [done|]. split; [lia|]. intros v. split; [done|].
    pose proof (L f (Some v)) as L2. rewrite bool_decide_eq_false_2 in L2 by done.
    rewrite K1 in L2. lia.
  - intros fuel inc line a Hin.
    unfold maybe_write_file, maybe_write_file_with, should_write.
    unfold bind at 1 2. rewrite (is_amalgamated_free_dependency disk f a Hfree).
    cbv beta iota zeta delta [bind get ret write modify when].
    by rewrite bool_decide_eq_true_2.
  - intros fuel inc line a Hin.
    unfold maybe_write_file, maybe_write_file_with, should_write.
    unfold bind at 1 2. rewrite (is_amalgamated_free_dependency disk f a Hfree).
    cbv beta iota zeta delta [bind get ret write modify when].
    by rewrite bool_decide_eq_false_2.
Qed.

Lemma free_dependency_files_are_written_once_witness :
  count_begin "a.h" None (output (amalgamate tree_cycle 5 "a.h" [include] "now")) <= 1.
Proof.
  exact (proj1 (proj2 (proj1
    (free_dependency_files_are_written_once tree_cycle "a.h" eq_refl)
    5 "a.h" [include] "now"))).
Defined.

(** C1 fails as stated: [simdjson/arm64/begin.h] is not generic, it is
    included twice by [simdjson/arm64.h], and the output holds it twice
    and no skipped-duplicate annotation. *)
Lemma amalgamated_files_are_written_again :
  let r := amalgamate tree_twice 3 "simdjson.h" [include] "now" in
  is_generic "simdjson/arm64/begin.h" = false
  /\ closed r = true
  /\ count_begin "simdjson/arm64/begin.h" None (output r) = 2
  /\ count_occ Origin_eq_dec (map fst (output r)) OSkippedDuplicate = 0.
Proof. vm_compute. done. Qed.

(** C4, as amended. A generic file that is amalgamated (any generic
    file but a [dependencies.h]) is written at most once for each
    variant in a run.  Including it while it is in
    [found_generic_includes] with the active variant is fatal, and so
    is including it while no variant is active: the errors are the
    duplicate and the missing-variant one whenever the classification
    of the file can be looked up.  Otherwise the file is recorded with
    the variant, announced and written. *)
Theorem generic_files_are_written_once_per_variant disk g :
  is_generic g = true ->
  free_dependency_by_path g = false ->
  (forall fuel file roots timestamp X,
     let out := output (amalgamate disk fuel file roots timestamp) in
     count_including g (Some X) out <= 1 /\ count_begin g (Some X) out <= 1)
  /\ (forall fuel inc line a,
        found_generic a g = true \/ truthy (active_implementation a) = false ->
        (exists e a', maybe_write_file disk fuel g inc line a = (inl e, a'))
        /\ forall a1,
             on_repository (is_amalgamated disk g) a = (inr true, a1) ->
             maybe_write_file disk fuel g inc line a
             = (inl (if found_generic a g
                     then GenericIncludedTwice g inc (active_implementation a)
                     else NoImplementation g), a1))
  /\ (forall fuel inc line a a1 X,
        on_repository (is_amalgamated disk g) a = (inr true, a1) ->
        found_generic a g = false ->
        active_implementation a = Some X -> X <> EmptyString ->
        maybe_write_file disk fuel g inc line a
        = (announce disk g line ;; write_file disk fuel g)
            (set_found_generic_includes
               (found_generic_includes a1 ++ [(g, X)])%list a1)).
Proof.
  intros Hgen Hfree.
  assert (Hstep : forall fuel inc line a a1,
    on_repository (is_amalgamated disk g) a = (inr true, a1) ->
    maybe_write_file disk fuel g inc line a
    = if found_generic a g
      then (inl (GenericIncludedTwice g inc (active_implementation a)), a1)
      else if truthy (active_implementation a)
      then (announce disk g line ;; write_file disk fuel g)
             (set_found_generic_includes
                (found_generic_includes a1
                 ++ [(g, str_option (active_implementation a))])%list a1)
      else (inl (NoImplementation g), a1)).
  { intros fuel inc line a a1 Ha.
    unfold maybe_write_file, maybe_write_file_with, should_write.
    unfold bind at 1 2. rewrite Ha, Hgen.
    pose proof (on_repository_is_amalgamated_inv disk g a _ a1 Ha)
      as (_ & _ & Hg & Hact & _).
    assert (Hfg : found_generic a1 g = found_generic a g).
    { unfold found_generic. by rewrite Hact, Hg. }
    cbv beta iota zeta delta [bind get ret assert raise modify when].
    rewrite Hfg, Hact. destruct (found_generic a g); cbn [negb]; [done|].
    destruct (truthy (active_implementation a)); [|done].
    cbv beta iota zeta. by rewrite Hact. }
  split; [|split].
  - intros fuel file roots timestamp X out. subst out.
    rewrite output_amalgamate.
    destruct (amalgamate_run_written_once disk fuel file roots timestamp)
      as (_ & G & L).
    destruct (G g X) as [G1 _]. split; [done|].
    pose proof (L g (Some X)) as L1.
    rewrite bool_decide_eq_false_2 in L1 by done. lia.
  - intros fuel inc line a Hbad.
    assert (Hfatal : forall a1,
      on_repository (is_amalgamated disk g) a = (inr true, a1) ->
      maybe_write_file disk fuel g inc line a
      = (inl (if found_generic a g
              then GenericIncludedTwice g inc (active_implementation a)
              else NoImplementation g), a1)).
    { intros a1 Ha. rewrite (Hstep fuel inc line a a1 Ha).
      destruct (found_generic a g); [done|].
      destruct Hbad as [Hbad|Hbad]; [done|]. by rewrite Hbad. }
    split; [|done].
    destruct (on_repository (is_amalgamated disk g) a) as [[e|b] a1] eqn:Ha.
    + exists e, a1.
      unfold maybe_write_file, maybe_write_file_with, should_write.
      unfold bind at 1 2. by rewrite Ha.
    + pose proof (on_repository_is_amalgamated_inv disk g a _ a1 Ha)
        as (_ & _ & _ & _ & _ & Hb).
      specialize (Hb b eq_refl). rewrite Hfree in Hb. cbn [negb] in Hb. subst b.
      rewrite (Hfatal a1 eq_refl). eauto.
  - intros fuel inc line a a1 X Ha Hfg HX Hne.
    rewrite (Hstep fuel inc line a a1 Ha), Hfg, HX. cbn [truthy str_option].
    apply String.eqb_neq in Hne. by rewrite Hne.
Qed.

Lemma generic_files_are_written_once_per_variant_witness :
  count_begin "generic/amalgamated.h" (Some "arm64")
    (output (amalgamate tree_missing 3 "simdjson.cpp" [src; include] "now")) <= 1.
Proof.
  exact (proj2 (proj1
    (generic_files_are_written_once_per_variant tree_missing
       "generic/amalgamated.h" eq_refl eq_refl)
    3 "simdjson.cpp" [src; include] "now" "arm64")).
Defined.

(** C4 fails as stated: [generic/dependencies.h] is a generic file; it
    is included twice while no variant is active, is written the first
    time and skipped the second, and the run completes. *)
Lemma generic_dependencies_need_no_variant :
  let r := amalgamate tree_generic_dependencies 2 "simdjson.cpp" [src] "now" in
  is_generic "generic/dependencies.h" = true
  /\ closed r = true /\ failure r = None
  /\ text r
     = [ "/* auto-generated on now. Do not edit! */";
         "/* including simdjson.cpp:  */";
         "/* begin file simdjson.cpp */";
         "/* including generic/dependencies.h: " ++ inc "generic/dependencies.h" ++ " */";
         "/* begin file generic/dependencies.h */";
         "// none";
         "/* end file generic/dependencies.h */";
         "/* skipped duplicate " ++ inc "generic/dependencies.h" ++ " */";
         "/* end file simdjson.cpp */" ].
Proof. vm_compute. done. Qed.

(** ** The include stack *)

Lemma keeps_stack_ret {A} (x : A) : keeps_stack (ret x).
Proof. by intros a. Qed.

Lemma keeps_stack_raise {A} e : keeps_stack (@raise Amalgamator A e).
Proof. by intros a. Qed.

Lemma keeps_stack_get : keeps_stack (@get Amalgamator).
Proof. by intros a. Qed.

Lemma keeps_stack_assert b e : keeps_stack (@assert Amalgamator b e).
Proof. by destruct b. Qed.

Lemma keeps_stack_bind {A B} (m : M Amalgamator A) (k : A -> M Amalgamator B) :
  keeps_stack m -> (forall x, keeps_stack (k x)) -> keeps_stack (bind m k).
Proof.
  intros Hm Hk a. unfold bind. specialize (Hm a).
  destruct (m a) as [[e|x] a1]; simpl in *; [done|].
  by rewrite Hk.
Qed.

Lemma keeps_stack_when b m : keeps_stack m -> keeps_stack (when b m).
Proof. intros H. by destruct b. Qed.

Lemma keeps_stack_on_repository {A} (m : M SimdjsonRepository A) :
  keeps_stack (on_repository m).
Proof.
  intros a. unfold on_repository. by destruct (m (repository a)).
Qed.

Lemma keeps_stack_write o line : keeps_stack (write o line).
Proof. by intros a. Qed.

Lemma keeps_stack_modify f :
  (forall a, include_stack (f a) = include_stack a) -> keeps_stack (modify f).
Proof. intros H a. apply H. Qed.

Create HintDb stack.

#[export] Hint Resolve keeps_stack_ret keeps_stack_raise keeps_stack_get
  keeps_stack_assert keeps_stack_on_repository keeps_stack_when
  keeps_stack_write : stack.
#[export] Hint Extern 1 (keeps_stack (bind _ _)) =>
  apply keeps_stack_bind; [|intros ?] : stack.
#[export] Hint Extern 1 (keeps_stack (modify _)) =>
  apply keeps_stack_modify; intros ?; reflexivity : stack.
#[export] Hint Extern 2 (keeps_stack (match ?x with _ => _ end)) =>
  destruct x : stack.

Section Stack.

Context (disk : Disk).

Lemma keeps_stack_file_to_str file : keeps_stack (file_to_str disk file).
Proof. unfold file_to_str. auto 20 with stack. Qed.

Lemma keeps_stack_line_step file line : keeps_stack (line_step disk file line).
Proof.
  unfold line_step, implementation_step, amalgamated_step. auto 40 with stack.
Qed.

Lemma begin_file_stack file a lines a0 :
  begin_file disk file a = (inr lines, a0) ->
  (file ∉ include_stack a)
  /\ include_stack a0 = (include_stack a ++ [file])%list
  /\ exists r, disk_find disk r file = Some lines.
Proof.
  unfold begin_file. unfold bind at 1. unfold get at 1. unfold bind at 1.
  destruct (bool_decide (file ∈ include_stack a)) eqn:Hin; cbn [negb assert];
    [done|].
  apply bool_decide_eq_false in Hin.
  unfold ret at 1. unfold bind at 1. unfold modify at 1.
  set (a0' := set_include_stack _ a).
  assert (Hk : keeps_stack
    (set_processed file false ;;
     l <- file_to_str disk file ;;
     write (OBeginFile l.1 l.2) ("/* begin file " ++ label l ++ " */") ;;
     when (file_eq_str file BUILTIN_BEGIN_H)
       (a <- get ;;
        assert (negb (is_Some_b (active_implementation a))) BuiltinBeginMisplaced ;;
        assert (negb (builtin_implementation a)) BuiltinBeginMisplaced ;;
        modify (set_builtin_implementation true) ;;
        modify (set_active_implementation (Some "SIMDJSON_BUILTIN_IMPLEMENTATION"))) ;;
     a <- get ;;
     assert (negb (editor_only_region a)) EditorOnlyRegionOpen ;;
     ret tt)).
  { pose proof keeps_stack_file_to_str. unfold set_processed. auto 40 with stack. }
  specialize (Hk a0'). revert Hk.
  cbv beta iota zeta delta [bind get ret assert raise open_file].
  destruct (set_processed file false a0') as [[e|[]] a1]; [done|].
  destruct (file_to_str disk file a1) as [[e|l] a2]; [done|].
  destruct (write _ _ a2) as [[e|[]] a3]; [done|].
  destruct (when _ _ a3) as [[e|[]] a4]; [done|].
  destruct (editor_only_region a4); cbn [negb]; [done|].
  cbn [snd]. intros Hst.
  destruct (disk_find disk _ file) as [ls|] eqn:Hd; [|done].
  intros [= <- <-]. split; [done|]. split; [by rewrite Hst|]. eauto.
Qed.

Lemma end_file_stack file a a' :
  end_file disk file a = (inr tt, a') ->
  include_stack a' = removelast (include_stack a).
Proof.
  unfold end_file.
  assert (Hk : keeps_stack
    (a <- get ;;
     assert (negb (editor_only_region a)) (EndedWithoutEndif file) ;;
     l <- file_to_str disk file ;;
     write (OEndFile l.1 l.2) ("/* end file " ++ label l ++ " */") ;;
     (if file =? BUILTIN_BEGIN_H then
        a <- get ;;
        assert (builtin_implementation a) BuiltinImplementationNotSet ;;
        modify (set_active_implementation (Some "SIMDJSON_BUILTIN_IMPLEMENTATION"))
      else if file =? BUILTIN_END_H then
        a <- get ;;
        assert (negb (is_Some_b (active_implementation a))) ImplementationStillDefined ;;
        assert (builtin_implementation a) BuiltinImplementationNotSet ;;
        modify (set_active_implementation None)
      else ret tt) ;;
     set_processed file true)).
  { pose proof keeps_stack_file_to_str. unfold set_processed. auto 40 with stack. }
  specialize (Hk a). revert Hk.
  cbv beta iota zeta delta [bind get ret assert raise modify].
  destruct (editor_only_region a); cbn [negb]; [done|].
  destruct (file_to_str disk file a) as [[e|l] a1]; [done|].
  destruct (write _ _ a1) as [[e|[]] a2]; [done|].
  destruct (file =? BUILTIN_BEGIN_H); [|destruct (file =? BUILTIN_END_H)];
    cbv beta iota zeta;
    repeat match goal with
    | |- context [if negb (is_Some_b (active_implementation a2)) then _ else _] =>
        destruct (negb (is_Some_b (active_implementation a2))); [|done]
    | |- context [if builtin_implementation a2 then _ else _] =>
        destruct (builtin_implementation a2); [|done]
    end;
    (destruct (set_processed file true _) as [[e|[]] a4]; [done|]);
    cbn [snd]; intros Hst [= <-]; simpl; by rewrite Hst.
Qed.

Lemma write_lines_app mwf file l1 l2 a :
  write_lines disk mwf file (l1 ++ l2)%list a
  = (write_lines disk mwf file l1 ;; write_lines disk mwf file l2) a.
Proof.
  revert a. induction l1 as [|l l1 IH]; intros a; [done|].
  cbn [app write_lines]. unfold bind in IH |- *.
  destruct (process_line disk mwf file l a) as [[e|[]] a1]; [done|].
  apply IH.
Qed.

Lemma maybe_write_file_restores wf :
  restores_stack wf ->
  forall f inc line a a',
    maybe_write_file_with disk wf f inc line a = (inr tt, a') ->
    include_stack a' = include_stack a.
Proof.
  intros Hwf f inc line a a'. unfold maybe_write_file_with, bind.
  destruct (should_write disk f inc line a) as [[e|b] a1] eqn:Hs; [done|].
  apply should_write_inv in Hs as (_ & _ & Hst1).
  destruct b; cbn [when].
  2:{ unfold ret. intros [= <-]. done. }
  destruct (announce disk f line a1) as [[e|[]] a2] eqn:Ha; [done|].
  apply announce_inv in Ha as (_ & Hst2 & _).
  intros H. rewrite (Hwf f a2 a' H). congruence.
Qed.

Lemma write_lines_restores wf :
  restores_stack wf ->
  forall file lines a a',
    write_lines disk (maybe_write_file_with disk wf) file lines a = (inr tt, a') ->
    include_stack a' = include_stack a.
Proof.
  intros Hwf file lines. induction lines as [|line lines IH]; intros a a'.
  { unfold write_lines, ret. by intros [= <-]. }
  cbn [write_lines]. unfold bind at 1. unfold process_line, bind at 1.
  pose proof (keeps_stack_line_step file line a) as Hk.
  destruct (line_step disk file line a) as [[e|target] a1]; [done|].
  simpl in Hk. destruct target as [g|].
  - destruct (maybe_write_file_with disk wf g (Some file) line a1)
      as [[e|[]] a2] eqn:Hm; [done|].
    apply (maybe_write_file_restores wf Hwf) in Hm.
    intros H. rewrite (IH a2 a' H). congruence.
  - unfold ret. intros H. rewrite (IH a1 a' H). congruence.
Qed.

Lemma write_file_body_restores wf :
  restores_stack wf -> restores_stack (write_file_body disk wf).
Proof.
  intros Hwf f a a'. unfold write_file_body, bind.
  destruct (begin_file disk f a) as [[e|lines] a0] eqn:Hb; [done|].
  apply begin_file_stack in Hb as (_ & Hst0 & _).
  destruct (write_lines disk _ f lines a0) as [[e|[]] a1] eqn:Hl; [done|].
  apply (write_lines_restores wf Hwf) in Hl.
  intros He. apply end_file_stack in He.
  by rewrite He, Hl, Hst0, removelast_last.
Qed.

Lemma write_file_restores fuel : restores_stack (write_file disk fuel).
Proof.
  induction fuel as [|fuel IH]; cbn [write_file]; [done|].
  by apply write_file_body_restores.
Qed.

(** The include stack where a file is entered is the stack at the
    start followed by the files entered on the way. *)
Lemma enters_stack fuel file a chain h c :
  enters disk fuel file a chain h c ->
  include_stack c = (include_stack a ++ chain)%list.
Proof.
  induction 1 as [fuel file a|fuel file a g b chain h c Hc _ IH].
  { by rewrite app_nil_r. }
  destruct Hc as (lines & a0 & before & line & after & a1 & a2 & a3
                  & Hb & -> & Hl & Hs & Hw & Ha).
  apply begin_file_stack in Hb as (_ & Hst0 & _).
  apply (write_lines_restores _ (write_file_restores fuel)) in Hl.
  pose proof (keeps_stack_line_step file line a1) as Hk.
  rewrite Hs in Hk. simpl in Hk.
  apply should_write_inv in Hw as (_ & _ & Hst3).
  apply announce_inv in Ha as (_ & Hst4 & _).
  rewrite IH, Hst4, Hst3, Hk, Hl, Hst0. by rewrite <- app_assoc.
Qed.

(** Entering a file that is on the include stack makes the outermost
    [write_file] raise the cyclic-include error, with that stack. *)
Lemma enters_cyclic fuel file a chain h c :
  enters disk fuel file a chain h c ->
  h ∈ include_stack c ->
  write_file disk fuel file a = (inl (CyclicInclude (include_stack c) h), c).
Proof.
  induction 1 as [fuel file a|fuel file a g b chain h c Hc _ IH]; intros Hin.
  { cbn [write_file]. unfold write_file_body, begin_file.
    cbv beta iota zeta delta [bind get assert raise].
    by rewrite bool_decide_eq_true_2. }
  specialize (IH Hin).
  destruct Hc as (lines & a0 & before & line & after & a1 & a2 & a3
                  & Hb & -> & Hl & Hs & Hw & Ha).
  cbn [write_file]. unfold write_file_body. unfold bind at 1. rewrite Hb.
  unfold bind at 1. rewrite write_lines_app. unfold bind at 1. rewrite Hl.
  cbn [write_lines]. unfold bind at 1. unfold process_line, bind at 1.
  rewrite Hs. unfold maybe_write_file_with, bind at 1. rewrite Hw.
  cbn [when]. unfold bind at 1. by rewrite Ha, IH.
Qed.

(** C6, as amended. A run in which [write_file] is entered for a file
    that is among the files in progress ends with the cyclic-include
    error, which reports those files, outermost first, and the file
    entered again; the output file is not closed. *)
Theorem cyclic_include_aborts fuel file roots timestamp chain h c :
  run_enters disk fuel file roots timestamp chain h c ->
  h ∈ chain ->
  include_stack c = chain
  /\ amalgamate disk fuel file roots timestamp
     = {| output := fid c; closed := false;
          failure := Some (CyclicInclude chain h) |}.
Proof.
  intros (f & a1 & a2 & b & Hg & Hw & Ha & He) Hin.
  pose proof (enters_stack _ _ _ _ _ _ He) as Hst.
  assert (Hb : include_stack b = []).
  { apply should_write_inv in Hw as (_ & _ & Hst2).
    apply announce_inv in Ha as (_ & Hst3 & _).
    apply on_repository_inv in Hg as (_ & _ & _ & _ & _ & _ & _ & _ & _ & Hst1).
    rewrite Hst3, Hst2, Hst1. done. }
  rewrite Hb in Hst. simpl in Hst. split; [done|].
  rewrite <- Hst in Hin. pose proof (enters_cyclic _ _ _ _ _ _ He Hin) as Hc.
  unfold amalgamate, amalgamate_run. unfold bind at 1. rewrite Hg.
  unfold bind at 1. unfold maybe_write_file, maybe_write_file_with.
  unfold bind at 1. rewrite Hw. cbn [when]. unfold bind at 1.
  rewrite Ha, Hc. by rewrite Hst.
Qed.

End Stack.

(** Closes an equation between a computation on a closed state and its
    outcome, of which only the shape is given. *)
Ltac run_step := vm_compute; reflexivity.

Ltac show_calls before line after :=
  unfold calls; do 2 eexists; exists before, line, after; do 3 eexists;
  split; [run_step|];
  split; [reflexivity|];
  split; [run_step|];
  split; [run_step|];
  split; [run_step|run_step].

Lemma cyclic_include_aborts_witness :
  exists c,
    include_stack c = ["simdjson.h"; "simdjson/arm64.h"; "simdjson/arm64/a.h"]
    /\ amalgamate tree_amalgamated_cycle 4 "simdjson.h" [include] "now"
       = {| output := fid c; closed := false;
            failure :=
              Some (CyclicInclude
                      ["simdjson.h"; "simdjson/arm64.h"; "simdjson/arm64/a.h"]
                      "simdjson/arm64.h") |}.
Proof.
  eexists.
  apply (cyclic_include_aborts tree_amalgamated_cycle 4 "simdjson.h" [include] "now").
  - unfold run_enters. do 4 eexists.
    split; [run_step|]. split; [run_step|]. split; [run_step|].
    eapply enters_deeper.
    { show_calls (@nil string) (inc "simdjson/arm64.h") (@nil string). }
    eapply enters_deeper.
    { show_calls (@nil string) (inc "simdjson/arm64/a.h") (@nil string). }
    eapply enters_deeper.
    { show_calls (@nil string) (inc "simdjson/arm64.h") (@nil string). }
    apply enters_here.
  - apply (bool_decide_unpack _). vm_compute. exact I.
Defined.

(** C6 fails as stated: [a.h] includes [b.h], which includes [a.h]
    while it is in progress; both are free dependencies, the second
    inclusion of [a.h] is skipped as a duplicate, and the run
    completes. *)
Lemma free_dependency_cycle_is_skipped :
  let r := amalgamate tree_cycle 2 "a.h" [include] "now" in
  closed r = true /\ failure r = None
  /\ text r
     = [ "/* auto-generated on now. Do not edit! */";
         "/* including a.h:  */";
         "/* begin file a.h */";
         "/* including b.h: " ++ inc "b.h" ++ " */";
         "/* begin file b.h */";
         "/* skipped duplicate " ++ inc "a.h" ++ " */";
         "int b;";
         "/* end file b.h */";
         "int a;";
         "/* end file a.h */" ].
Proof. vm_compute. done. Qed.

(** ** Fuel *)

Lemma refines_refl {A} (m : M Amalgamator A) : refines m m.
Proof. by intros a _. Qed.

Lemma refines_bind {A B} (m m' : M Amalgamator A) (k k' : A -> M Amalgamator B) :
  refines m m' -> (forall x, refines (k x) (k' x)) ->
  refines (bind m k) (bind m' k').
Proof.
  intros Hm Hk a. unfold bind. specialize (Hm a).
  destruct (m a) as [[e|x] a1] eqn:E; simpl in *; intros H.
  - rewrite Hm; [done|]. intros [= ->]. by apply H.
  - rewrite Hm; [|done]. by apply Hk.
Qed.

Section Fuel.

Context (disk : Disk).

Lemma maybe_write_file_refines wf wf' :
  (forall f, refines (wf f) (wf' f)) ->
  forall f inc line,
    refines (maybe_write_file_with disk wf f inc line)
            (maybe_write_file_with disk wf' f inc line).
Proof.
  intros H f inc line. unfold maybe_write_file_with.
  apply refines_bind; [apply refines_refl|]. intros [|]; cbn [when].
  - apply refines_bind; [apply refines_refl|]. intros _. apply H.
  - apply refines_refl.
Qed.

Lemma write_lines_refines wf wf' :
  (forall f, refines (wf f) (wf' f)) ->
  forall file lines,
    refines (write_lines disk (maybe_write_file_with disk wf) file lines)
            (write_lines disk (maybe_write_file_with disk wf') file lines).
Proof.
  intros H file lines. induction lines as [|line lines IH]; cbn [write_lines].
  { apply refines_refl. }
  apply refines_bind; [|by intros _]. unfold process_line.
  apply refines_bind; [apply refines_refl|]. intros [g|].
  - by apply maybe_write_file_refines.
  - apply refines_refl.
Qed.

Lemma write_file_body_refines wf wf' :
  (forall f, refines (wf f) (wf' f)) ->
  forall f, refines (write_file_body disk wf f) (write_file_body disk wf' f).
Proof.
  intros H f. unfold write_file_body.
  apply refines_bind; [apply refines_refl|]. intros lines.
  apply refines_bind; [by apply write_lines_refines|]. intros _.
  apply refines_refl.
Qed.

Lemma write_file_refines fuel :
  forall f, refines (write_file disk fuel f) (write_file disk (S fuel) f).
Proof.
  induction fuel as [|fuel IH]; intros f.
  - intros a H. by destruct H.
  - cbn [write_file]. by apply write_file_body_refines.
Qed.

Lemma write_file_more_fuel fuel fuel' f :
  fuel <= fuel' -> refines (write_file disk fuel f) (write_file disk fuel' f).
Proof.
  induction 1 as [|fuel' _ IH]; [apply refines_refl|].
  intros a H. rewrite <- (IH a H).
  apply write_file_refines. by rewrite (IH a H).
Qed.

Lemma amalgamate_run_more_fuel fuel fuel' file roots timestamp :
  fuel <= fuel' ->
  (amalgamate_run disk fuel file roots timestamp).1 <> inl OutOfFuel ->
  amalgamate_run disk fuel' file roots timestamp
  = amalgamate_run disk fuel file roots timestamp.
Proof.
  intros Hle. unfold amalgamate_run.
  set (a0 := new_amalgamator _ _). generalize a0. clear a0.
  change (refines
    (f <- on_repository (getitem disk file) ;;
     maybe_write_file disk fuel f None EmptyString ;;
     on_repository (validate_free_dependency_files disk))
    (f <- on_repository (getitem disk file) ;;
     maybe_write_file disk fuel' f None EmptyString ;;
     on_repository (validate_free_dependency_files disk))).
  apply refines_bind; [apply refines_refl|]. intros f.
  apply refines_bind; [|intros _; apply refines_refl].
  apply maybe_write_file_refines. intros g. by apply write_file_more_fuel.
Qed.

Lemma failure_amalgamate fuel file roots timestamp :
  failure (amalgamate disk fuel file roots timestamp) = Some OutOfFuel
  <-> (amalgamate_run disk fuel file roots timestamp).1 = inl OutOfFuel.
Proof.
  unfold amalgamate.
  destruct (amalgamate_run disk fuel file roots timestamp) as [[e|[]] a]; simpl.
  - split; congruence.
  - split; congruence.
Qed.

(** Two runs that do not run out of fuel leave the same artifact. *)
Lemma amalgamate_fuel_independent fuel1 fuel2 file roots timestamp :
  failure (amalgamate disk fuel1 file roots timestamp) <> Some OutOfFuel ->
  failure (amalgamate disk fuel2 file roots timestamp) <> Some OutOfFuel ->
  amalgamate disk fuel1 file roots timestamp
  = amalgamate disk fuel2 file roots timestamp.
Proof.
  rewrite !failure_amalgamate. intros H1 H2. unfold amalgamate.
  destruct (Nat.le_ge_cases fuel1 fuel2) as [Hle|Hle].
  - by rewrite (amalgamate_run_more_fuel fuel1 fuel2 file roots timestamp Hle H1).
  - by rewrite (amalgamate_run_more_fuel fuel2 fuel1 file roots timestamp Hle H2).
Qed.

End Fuel.

(** *** Nothing but [write_file] runs out of fuel *)

Lemma fuel_free_ret {S A} (x : A) : fuel_free (@ret S A x).
Proof. by intros s. Qed.

Lemma fuel_free_raise {S A} e : e <> OutOfFuel -> fuel_free (@raise S A e).
Proof. intros H s [= E]. by apply H. Qed.

Lemma fuel_free_get {S} : fuel_free (@get S).
Proof. by intros s. Qed.

Lemma fuel_free_modify {S} (f : S -> S) : fuel_free (modify f).
Proof. by intros s. Qed.

Lemma fuel_free_assert {S} b e : e <> OutOfFuel -> fuel_free (@assert S b e).
Proof. intros H. destruct b; [apply fuel_free_ret|by apply fuel_free_raise]. Qed.

Lemma fuel_free_bind {S A B} (m : M S A) (k : A -> M S B) :
  fuel_free m -> (forall x, fuel_free (k x)) -> fuel_free (bind m k).
Proof.
  intros Hm Hk s. unfold bind. specialize (Hm s).
  destruct (m s) as [[e|x] s1]; simpl in *.
  - intros [= E]. apply Hm. by rewrite E.
  - apply Hk.
Qed.

Lemma fuel_free_when {S} b (m : M S unit) : fuel_free m -> fuel_free (when b m).
Proof. intros H. destruct b; [done|apply fuel_free_ret]. Qed.

Lemma fuel_free_on_repository {A} (m : M SimdjsonRepository A) :
  fuel_free m -> fuel_free (on_repository m).
Proof.
  intros H a. unfold on_repository. specialize (H (repository a)).
  by destruct (m (repository a)).
Qed.

Lemma fuel_free_write o line : fuel_free (write o line).
Proof. by intros a. Qed.

Lemma fuel_free_foldM {S A B} (f : A -> B -> M S A) l :
  (forall a x, fuel_free (f a x)) -> forall a, fuel_free (foldM f l a).
Proof.
  intros H. induction l as [|x l IH]; intros a; cbn [foldM].
  - apply fuel_free_ret.
  - apply fuel_free_bind; [apply H|]. intros a'. apply IH.
Qed.

Create HintDb fuel.

#[export] Hint Resolve fuel_free_ret fuel_free_get fuel_free_modify
  fuel_free_when fuel_free_write fuel_free_on_repository : fuel.
#[export] Hint Extern 1 (fuel_free (raise _)) =>
  apply fuel_free_raise; discriminate : fuel.
#[export] Hint Extern 1 (fuel_free (assert _ _)) =>
  apply fuel_free_assert; discriminate : fuel.
#[export] Hint Extern 1 (fuel_free (bind _ _)) =>
  apply fuel_free_bind; [|intros ?] : fuel.
#[export] Hint Extern 1 (fuel_free (foldM _ _ _)) =>
  apply fuel_free_foldM; intros ? ? : fuel.
#[export] Hint Extern 2 (fuel_free (match ?x with _ => _ end)) => destruct x : fuel.

Lemma fuel_free_iterate_files {A} size (body : A -> string -> M SimdjsonRepository A)
    paths :
  (forall a p, fuel_free (body a p)) ->
  forall a, fuel_free (iterate_files size body paths a).
Proof.
  intros H. induction paths as [|p paths IH]; intros a; cbn [iterate_files];
    auto 10 with fuel.
Qed.

Section FuelFree.

Context (disk : Disk).

Lemma fuel_free_included_filename_root filename :
  fuel_free (included_filename_root disk filename).
Proof.
  unfold included_filename_root.
  apply fuel_free_bind; [apply fuel_free_get|]. intros self.
  assert (H : forall roots result e,
    included_filename_root_loop disk roots filename result = inl e ->
    e <> OutOfFuel).
  { induction roots as [|r roots IH]; intros result e; cbn; [done|].
    destruct (path_exists disk r filename); [|apply IH].
    destruct result; [by intros [= <-]|apply IH]. }
  destruct (included_filename_root_loop _ _ _ _) as [e|[r|]] eqn:E;
    auto with fuel.
  apply fuel_free_raise. by apply (H _ _ _ E).
Qed.

Lemma fuel_free_getitem path : fuel_free (getitem disk path).
Proof.
  pose proof fuel_free_included_filename_root.
  unfold getitem, append_file. auto 10 with fuel.
Qed.

Lemma fuel_free_free_dependency_file path :
  fuel_free (free_dependency_file disk path).
Proof.
  pose proof fuel_free_getitem. unfold free_dependency_file. auto 10 with fuel.
Qed.

Lemma fuel_free_is_free_dependency path :
  fuel_free (is_free_dependency disk path).
Proof.
  pose proof fuel_free_free_dependency_file.
  unfold is_free_dependency. auto 10 with fuel.
Qed.

Lemma fuel_free_is_amalgamated path : fuel_free (is_amalgamated disk path).
Proof.
  pose proof fuel_free_is_free_dependency.
  unfold is_amalgamated. auto 10 with fuel.
Qed.

Lemma fuel_free_add_include self included :
  fuel_free (add_include disk self included).
Proof.
  pose proof fuel_free_is_free_dependency.
  unfold add_include, update_file. auto 20 with fuel.
Qed.

Lemma fuel_free_add_editor_only_include self included :
  fuel_free (add_editor_only_include disk self included).
Proof.
  pose proof fuel_free_is_free_dependency. pose proof fuel_free_is_amalgamated.
  pose proof fuel_free_free_dependency_file.
  unfold add_editor_only_include, update_file. auto 20 with fuel.
Qed.

Lemma fuel_free_validate_free_dependency_files :
  fuel_free (validate_free_dependency_files disk).
Proof.
  pose proof fuel_free_is_free_dependency.
  pose proof fuel_free_free_dependency_file.
  unfold validate_free_dependency_files, for_each_file.
  apply fuel_free_bind; [apply fuel_free_get|]. intros repo.
  apply fuel_free_iterate_files. intros [] self.
  unfold validate_free_dependency_file, for_each_file.
  destruct (is_free_dependency_file self); [|apply fuel_free_ret].
  apply fuel_free_bind; [apply fuel_free_get|]. intros repo'.
  apply fuel_free_bind; [|intros ?; auto with fuel].
  apply fuel_free_bind; [apply fuel_free_get|]. intros repo''.
  apply fuel_free_iterate_files. intros extra file.
  unfold validate_editor_only_include. auto 20 with fuel.
Qed.

Lemma fuel_free_file_to_str file : fuel_free (file_to_str disk file).
Proof.
  pose proof fuel_free_is_amalgamated. unfold file_to_str. auto 20 with fuel.
Qed.

Lemma fuel_free_line_step file line : fuel_free (line_step disk file line).
Proof.
  pose proof fuel_free_is_amalgamated. pose proof fuel_free_getitem.
  pose proof fuel_free_add_include. pose proof fuel_free_add_editor_only_include.
  unfold line_step, implementation_step, amalgamated_step. auto 40 with fuel.
Qed.

Lemma fuel_free_should_write file inc line :
  fuel_free (should_write disk file inc line).
Proof.
  pose proof fuel_free_is_amalgamated. unfold should_write. auto 30 with fuel.
Qed.

Lemma fuel_free_announce file line : fuel_free (announce disk file line).
Proof.
  pose proof fuel_free_file_to_str. unfold announce. auto 20 with fuel.
Qed.

Lemma fuel_free_begin_file file : fuel_free (begin_file disk file).
Proof.
  pose proof fuel_free_file_to_str.
  unfold begin_file, set_processed, open_file, update_file. auto 40 with fuel.
Qed.

Lemma fuel_free_end_file file : fuel_free (end_file disk file).
Proof.
  pose proof fuel_free_file_to_str.
  unfold end_file, set_processed, update_file. auto 40 with fuel.
Qed.

End FuelFree.

(** *** Enough fuel *)

Section Termination.

Context (disk : Disk).

Lemma disk_find_path r p lines :
  disk_find disk r p = Some lines -> p ∈ disk_paths disk.
Proof.
  unfold disk_find, disk_paths.
  destruct (find _ disk) as [e|] eqn:E; [|done]. intros _.
  apply find_some in E as [Hin He]. apply andb_true_iff in He as [_ He].
  apply String.eqb_eq in He. subst p.
  apply list_elem_of_In, in_map_iff. by exists e.
Qed.

Lemma room_same_stack fuel a a' :
  include_stack a' = include_stack a -> room disk fuel a -> room disk fuel a'.
Proof. unfold room. by intros ->. Qed.

Lemma room_begin_file fuel file a lines a0 :
  begin_file disk file a = (inr lines, a0) ->
  room disk (S fuel) a -> room disk fuel a0.
Proof.
  intros Hb (Hnd & Hsub & Hlen).
  apply begin_file_stack in Hb as (Hnin & Hst & (r & Hd)).
  apply disk_find_path in Hd. unfold room. rewrite Hst. split; [|split].
  - apply NoDup_app. split; [done|]. split; [|apply NoDup_singleton].
    intros x Hx Hx'. apply list_elem_of_singleton in Hx'. by subst.
  - intros x Hx. apply elem_of_app in Hx as [Hx|Hx]; [by apply Hsub|].
    apply list_elem_of_singleton in Hx. by subst.
  - rewrite length_app. simpl. lia.
Qed.

Lemma room_fuel a : room disk 0 a -> False.
Proof.
  intros (Hnd & Hsub & Hlen).
  pose proof (submseteq_length _ _ (NoDup_submseteq _ _ Hnd Hsub)). simpl in *. lia.
Qed.

Lemma maybe_write_file_terminates fuel wf :
  (forall g b, room disk fuel b -> (wf g b).1 <> inl OutOfFuel) ->
  forall f inc line a,
    room disk fuel a ->
    (maybe_write_file_with disk wf f inc line a).1 <> inl OutOfFuel.
Proof.
  intros Hwf f inc line a Hr. unfold maybe_write_file_with, bind.
  pose proof (fuel_free_should_write disk f inc line a) as H1.
  destruct (should_write disk f inc line a) as [[e|b] a1] eqn:Hs; simpl in *.
  { intros [= ->]. done. }
  apply should_write_inv in Hs as (_ & _ & Hst1).
  destruct b; cbn [when]; [|done].
  pose proof (fuel_free_announce disk f line a1) as H2.
  destruct (announce disk f line a1) as [[e|[]] a2] eqn:Ha; simpl in *.
  { intros [= ->]. done. }
  apply announce_inv in Ha as (_ & Hst2 & _).
  apply Hwf. apply (room_same_stack fuel a); [congruence|done].
Qed.

Lemma write_lines_terminates fuel wf :
  (forall g b, room disk fuel b -> (wf g b).1 <> inl OutOfFuel) ->
  restores_stack wf ->
  forall file lines a,
    room disk fuel a ->
    (write_lines disk (maybe_write_file_with disk wf) file lines a).1
    <> inl OutOfFuel.
Proof.
  intros Hwf Hrs file lines.
  induction lines as [|line lines IH]; intros a Hr; [done|].
  cbn [write_lines]. unfold bind at 1. unfold process_line, bind at 1.
  pose proof (fuel_free_line_step disk file line a) as H1.
  pose proof (keeps_stack_line_step disk file line a) as Hk.
  destruct (line_step disk file line a) as [[e|target] a1]; simpl in *.
  { intros [= ->]. done. }
  pose proof (room_same_stack fuel a a1 Hk Hr) as Hr1.
  destruct target as [g|].
  - pose proof (maybe_write_file_terminates fuel wf Hwf g (Some file) line a1 Hr1)
      as H2.
    destruct (maybe_write_file_with disk wf g (Some file) line a1)
      as [[e|[]] a2] eqn:Hm; simpl in *.
    { intros [= ->]. done. }
    apply IH. apply (room_same_stack fuel a1); [|done].
    by apply (maybe_write_file_restores disk wf Hrs g (Some file) line).
  - unfold ret. by apply IH.
Qed.

(** [write_file] does not run out of fuel where the stack leaves room. *)
Lemma write_file_terminates fuel :
  forall f a, room disk fuel a -> (write_file disk fuel f a).1 <> inl OutOfFuel.
Proof.
  induction fuel as [|fuel IH]; intros f a Hr.
  { by destruct (room_fuel a Hr). }
  cbn [write_file]. unfold write_file_body, bind.
  pose proof (fuel_free_begin_file disk f a) as H1.
  destruct (begin_file disk f a) as [[e|lines] a0] eqn:Hb; simpl in *.
  { intros [= ->]. done. }
  pose proof (room_begin_file fuel f a lines a0 Hb Hr) as Hr0.
  pose proof (write_lines_terminates fuel (write_file disk fuel) IH
                (write_file_restores disk fuel) f lines a0 Hr0) as H2.
  destruct (write_lines disk _ f lines a0) as [[e|[]] a1]; simpl in *.
  { intros [= ->]. done. }
  apply fuel_free_end_file.
Qed.

(** A run with one unit of fuel more than the tree has paths does not
    run out of fuel. *)
Lemma amalgamate_terminates file roots timestamp :
  failure (amalgamate disk (S (List.length (disk_paths disk))) file roots timestamp)
  <> Some OutOfFuel.
Proof.
  rewrite failure_amalgamate. unfold amalgamate_run.
  set (a0 := new_amalgamator _ _).
  assert (Hr0 : room disk (S (List.length (disk_paths disk))) a0).
  { subst a0. unfold room. simpl. split; [apply NoDup_nil_2|].
    split; [|lia]. intros x Hx. by apply elem_of_nil in Hx. }
  clearbody a0. unfold bind at 1.
  pose proof (fuel_free_on_repository _ (fuel_free_getitem disk file) a0) as H1.
  pose proof (keeps_stack_on_repository (getitem disk file) a0) as Hk.
  destruct (on_repository (getitem disk file) a0) as [[e|f] a1]; simpl in *.
  { intros [= ->]. done. }
  pose proof (room_same_stack _ a0 a1 Hk Hr0) as Hr1.
  unfold bind at 1.
  pose proof (maybe_write_file_terminates _ (write_file disk _)
                (write_file_terminates _) f None EmptyString a1 Hr1) as H2.
  fold (maybe_write_file disk (S (List.length (disk_paths disk)))) in H2.
  destruct (maybe_write_file disk _ f None EmptyString a1) as [[e|[]] a2];
    simpl in *.
  { intros [= ->]. done. }
  apply fuel_free_on_repository, fuel_free_validate_free_dependency_files.
Qed.

End Termination.

(** C8. The artifact of a run is determined by the tree, the file, the
    roots and the timestamp.  A run is a function of these and of the
    bound on the nesting of files that the embedding adds; the run with
    one unit of fuel more than the tree has paths does not run out of
    fuel, and every run that does not run out of fuel leaves the
    artifact of that one: the same lines, closed or not alike, and the
    same failure. *)
Theorem amalgamation_is_deterministic disk file roots timestamp :
  let enough := S (List.length (disk_paths disk)) in
  failure (amalgamate disk enough file roots timestamp) <> Some OutOfFuel
  /\ forall fuel,
       failure (amalgamate disk fuel file roots timestamp) <> Some OutOfFuel ->
       amalgamate disk fuel file roots timestamp
       = amalgamate disk enough file roots timestamp.
Proof.
  intros enough. split.
  - apply amalgamate_terminates.
  - intros fuel H. apply amalgamate_fuel_independent; [done|].
    apply amalgamate_terminates.
Qed.

Lemma amalgamation_is_deterministic_witness :
  amalgamate tree_twice 9 "simdjson.h" [include] "now"
  = amalgamate tree_twice 5 "simdjson.h" [include] "now".
Proof.
  apply (proj2 (amalgamation_is_deterministic tree_twice "simdjson.h" [include] "now")).
  vm_compute. discriminate.
Defined.

(** ** The traversal leaves the repository classified *)

Lemma basename_dependencies d :
  Py.basename (d ++ "/dependencies.h") = "dependencies.h".
Proof.
  unfold Py.basename.
  assert (H : Py.split_last_slash (d ++ "/dependencies.h")
              = (Some (d ++ "/"), "dependencies.h")).
  { induction d as [|c d IH]; [done|].
    change (String c d ++ "/dependencies.h")
      with (String c (d ++ "/dependencies.h")).
    cbn [Py.split_last_slash]. by rewrite IH. }
  by rewrite H.
Qed.

Lemma free_dependency_path_aggregator p q :
  free_dependency_path p = Some q -> free_dependency_path q = None.
Proof.
  unfold free_dependency_path at 1.
  destruct (is_free_dependency_file p); [done|].
  assert (Hq : forall q', is_free_dependency_file q' = true ->
                 free_dependency_path q' = None).
  { intros q' H. unfold free_dependency_path. by rewrite H. }
  destruct (is_Some_b (implementation p)).
  - destruct (include_dir p =? EmptyString); [by intros [= <-]|].
    destruct (filename p =? "ondemand.h"); by intros [= <-].
  - destruct (is_generic p); [|done]. intros [= <-]. apply Hq.
    unfold is_free_dependency_file, filename. by rewrite basename_dependencies.
Qed.

Lemma contains_grows repo repo' p :
  grows repo repo' -> contains repo p = true -> contains repo' p = true.
Proof.
  unfold contains. intros Hg.
  destruct (lookup_file repo p) as [f|] eqn:Hl; [|done].
  by rewrite (grows_lookup repo repo' p f Hg Hl).
Qed.

Lemma dependency_known_grows repo repo' p :
  grows repo repo' ->
  dependency_known repo p = true -> dependency_known repo' p = true.
Proof.
  unfold dependency_known. destruct (free_dependency_path p); [|done].
  apply contains_grows.
Qed.

Lemma classified_iff repo : classified repo = true <-> classified_but [] repo.
Proof.
  split.
  - intros H f Hf. destruct (classified_file repo f H Hf) as [H1 H2].
    split; [by right|done].
  - intros H. unfold classified. apply forallb_forall. intros f Hf.
    apply list_elem_of_In in Hf. destruct (H f Hf) as [[H1|H1] H2].
    + by apply elem_of_nil in H1.
    + rewrite H1. simpl. apply forallb_forall. intros e He.
      by apply H2, list_elem_of_In.
Qed.

Lemma classified_but_weaken P P' repo :
  P ⊆ P' -> classified_but P repo -> classified_but P' repo.
Proof.
  intros Hs H f Hf. destruct (H f Hf) as [[H1|H1] H2]; split; auto.
Qed.

Lemma classified_but_resolve p P repo :
  dependency_known repo p = true ->
  classified_but (p :: P) repo -> classified_but P repo.
Proof.
  intros Hk H f Hf. destruct (H f Hf) as [[H1|H1] H2]; split; auto.
  apply elem_of_cons in H1 as [->|H1]; auto.
Qed.

(** A step that only adds files at the end, each of them pending or
    classified, and keeps what is known. *)
Lemma classified_but_grows P repo repo' new :
  relative_roots repo' = relative_roots repo ->
  files repo' = (files repo ++ new)%list ->
  (forall f, f ∈ new ->
     (include_path f ∈ P \/ dependency_known repo' (include_path f) = true)
     /\ editor_only_includes f = []) ->
  classified_but P repo -> classified_but P repo'.
Proof.
  intros Hr Hfs Hnew H f Hf.
  assert (Hg : grows repo repo') by (split; eauto).
  rewrite Hfs in Hf. apply elem_of_app in Hf as [Hold|Hf].
  - destruct (H f Hold) as [H1 H2]. split.
    + destruct H1 as [H1|H1]; [by left|].
      right. by apply (dependency_known_grows repo).
    + intros e He. by apply (dependency_known_grows repo), H2.
  - destruct (Hnew f Hf) as [H1 H2]. split; [done|].
    rewrite H2. intros e He. by apply elem_of_nil in He.
Qed.

Section Classified.

Context (disk : Disk).

Lemma getitem_files p repo x repo' :
  getitem disk p repo = (inr x, repo') ->
  repo' = repo
  \/ exists r, files repo' = (files repo ++ [new_file r p])%list
               /\ relative_roots repo' = relative_roots repo.
Proof.
  unfold getitem, bind, get. destruct (contains repo p).
  - unfold ret. intros [= _ <-]. by left.
  - unfold included_filename_root, bind, get.
    destruct (included_filename_root_loop _ _ _ _) as [e|[r|]]; simpl; try done.
    unfold ret. intros [= _ <-]. right. by exists r.
Qed.

Lemma getitem_classified P p repo x repo' :
  classified_but P repo -> getitem disk p repo = (inr x, repo') ->
  classified_but (p :: P) repo'.
Proof.
  intros H Hg.
  assert (Hsub : P ⊆ p :: P) by (intros y Hy; by right).
  apply getitem_files in Hg as [->|(r & Hf & Hr)].
  { by apply (classified_but_weaken P). }
  apply (classified_but_grows _ repo repo' _ Hr Hf).
  - intros f Hin. apply list_elem_of_singleton in Hin. subst f. split; [|done].
    left. simpl. by left.
  - by apply (classified_but_weaken P).
Qed.

(** Looking a dependency aggregator up keeps the repository as it is
    or adds the aggregator, which is classified as it is. *)
Lemma getitem_aggregator_classified P p q repo x repo' :
  free_dependency_path p = Some q ->
  classified_but P repo -> getitem disk q repo = (inr x, repo') ->
  classified_but P repo' /\ dependency_known repo' p = true.
Proof.
  intros Hq H Hg.
  pose proof (getitem_inr disk q repo x repo' Hg) as (_ & Hgr & Hc).
  split.
  - apply getitem_files in Hg as [->|(r & Hf & Hr)]; [done|].
    apply (classified_but_grows _ repo repo' _ Hr Hf); [|done].
    intros f Hin. apply list_elem_of_singleton in Hin. subst f. split; [|done].
    right. simpl. unfold dependency_known.
    by rewrite (free_dependency_path_aggregator p q Hq).
  - unfold dependency_known. by rewrite Hq.
Qed.

Lemma free_dependency_file_classified P p repo o repo' :
  classified_but P repo ->
  free_dependency_file disk p repo = (inr o, repo') ->
  classified_but P repo' /\ dependency_known repo' p = true.
Proof.
  intros H. unfold free_dependency_file.
  destruct (free_dependency_path p) as [q|] eqn:Hq.
  - unfold bind. destruct (getitem disk q repo) as [[e|x] r] eqn:Hg; [done|].
    unfold ret. intros [= _ <-].
    by apply (getitem_aggregator_classified P p q repo x r).
  - unfold ret. intros [= _ <-]. split; [done|].
    unfold dependency_known. by rewrite Hq.
Qed.

Lemma is_free_dependency_classified P p repo b repo' :
  classified_but P repo ->
  is_free_dependency disk p repo = (inr b, repo') ->
  classified_but P repo' /\ dependency_known repo' p = true.
Proof.
  intros H. unfold is_free_dependency, bind.
  destruct (free_dependency_file disk p repo) as [[e|o] r] eqn:Hf; [done|].
  unfold ret. intros [= _ <-].
  by apply (free_dependency_file_classified P p repo o r).
Qed.

Lemma is_amalgamated_classified P p repo b repo' :
  classified_but P repo ->
  is_amalgamated disk p repo = (inr b, repo') ->
  classified_but P repo' /\ dependency_known repo' p = true.
Proof.
  intros H. unfold is_amalgamated, bind.
  destruct (is_free_dependency disk p repo) as [[e|o] r] eqn:Hf; [done|].
  unfold ret. intros [= _ <-].
  by apply (is_free_dependency_classified P p repo o r).
Qed.

Lemma contains_update p h repo q :
  (forall x, include_path (h x) = include_path x) ->
  contains
    {| relative_roots := relative_roots repo;
       files := map (fun x => if include_path x =? p then h x else x) (files repo) |}
    q
  = contains repo q.
Proof.
  intros Hh. unfold contains. destruct repo as [rr fs]. simpl.
  rewrite lookup_file_map by (intros x; destruct (include_path x =? p); auto).
  by destruct (lookup_file _ q).
Qed.

Lemma dependency_known_update p h repo q :
  (forall x, include_path (h x) = include_path x) ->
  dependency_known
    {| relative_roots := relative_roots repo;
       files := map (fun x => if include_path x =? p then h x else x) (files repo) |}
    q
  = dependency_known repo q.
Proof.
  intros Hh. unfold dependency_known.
  destruct (free_dependency_path q); [|done]. by apply contains_update.
Qed.

Lemma update_file_classified P p h repo repo' :
  (forall x, include_path (h x) = include_path x) ->
  (forall x e, x ∈ files repo -> include_path x = p ->
     e ∈ editor_only_includes (h x) ->
     e ∈ editor_only_includes x \/ dependency_known repo e = true) ->
  classified_but P repo ->
  update_file p h repo = (inr tt, repo') ->
  classified_but P repo'.
Proof.
  intros Hh He H [= <-] f Hf. simpl in Hf.
  apply list_elem_of_fmap in Hf as (x & -> & Hx).
  destruct (H x Hx) as [H1 H2].
  rewrite dependency_known_update by done.
  destruct (include_path x =? p) eqn:E.
  - rewrite Hh. split; [done|]. intros e Hin.
    rewrite dependency_known_update by done.
    apply String.eqb_eq in E.
    destruct (He x e Hx E Hin) as [Hold|Hk]; [by apply H2|done].
  - split; [done|]. intros e Hin. rewrite dependency_known_update by done.
    by apply H2.
Qed.

Lemma add_include_classified P self included repo repo' :
  classified_but (included :: P) repo ->
  add_include disk self included repo = (inr tt, repo') ->
  classified_but P repo'.
Proof.
  intros H. unfold add_include. unfold bind at 1.
  destruct (is_free_dependency disk self repo) as [[e|b1] repo1] eqn:H1; [done|].
  apply (is_free_dependency_classified _ _ _ _ _ H) in H1 as [C1 _].
  unfold bind at 1.
  assert (Hcheck : forall (m : M SimdjsonRepository unit) r2,
    (exists k : bool -> M SimdjsonRepository unit,
       m = (included_free <- is_free_dependency disk included ;; k included_free)
       /\ forall b r r', k b r = (inr tt, r') -> r' = r) ->
    m repo1 = (inr tt, r2) -> classified_but P r2).
  { intros m r2 (k & -> & Hk). unfold bind.
    destruct (is_free_dependency disk included repo1) as [[e|b2] repo2] eqn:H2;
      [done|].
    apply (is_free_dependency_classified _ _ _ _ _ C1) in H2 as [C2 K2].
    intros Hr. rewrite (Hk _ _ _ Hr).
    by apply (classified_but_resolve included). }
  match goal with
  | |- context [(if b1 then ?m1 else ?m2) repo1] =>
      destruct ((if b1 then m1 else m2) repo1) as [[e|[]] repo2] eqn:H2; [done|]
  end.
  assert (C2 : classified_but P repo2).
  { destruct b1; apply (Hcheck _ _) in H2; try done.
    - eexists (fun b => repo <- get ;; assert (b || file_is_amalgamator repo included) _).
      split; [reflexivity|]. intros b r r'.
      cbv beta iota zeta delta [bind get assert ret raise].
      destruct (b || _); by intros [= <-].
    - eexists (fun b => assert (negb b) _).
      split; [reflexivity|]. intros b r r'.
      cbv beta iota zeta delta [assert ret raise].
      destruct (negb b); by intros [= <-]. }
  unfold bind at 1.
  destruct (update_file self _ repo2) as [[e|[]] repo3] eqn:H3; [done|].
  apply (update_file_classified P) in H3; [|done|by left|done].
  intros H4.
  apply (update_file_classified P) in H4; [done|done|by left|done].
Qed.

Lemma add_editor_only_include_classified P self included repo repo' :
  classified_but (included :: P) repo ->
  add_editor_only_include disk self included repo = (inr tt, repo') ->
  classified_but P repo'.
Proof.
  intros H. unfold add_editor_only_include. unfold bind at 1.
  destruct (is_amalgamated disk self repo) as [[e|b1] repo1] eqn:H1; [done|].
  apply (is_amalgamated_classified _ _ _ _ _ H) in H1 as [C1 _].
  unfold bind at 1. destruct b1; cbn [assert]; [|done]. unfold ret at 1.
  unfold bind at 1.
  destruct (is_free_dependency disk included repo1) as [[e|b2] repo2] eqn:H2;
    [done|].
  apply (is_free_dependency_classified _ _ _ _ _ C1) in H2 as [C2 K2].
  apply (classified_but_resolve included) in C2; [|done].
  unfold bind at 1.
  destruct (when b2 _ repo2) as [[e|[]] repo3] eqn:H3; [done|].
  assert (C3 : classified_but P repo3 /\ dependency_known repo3 included = true).
  { destruct b2; cbn [when] in H3.
    - revert H3. unfold bind.
      destruct (free_dependency_file disk self repo2) as [[e|o] r] eqn:Hf; [done|].
      pose proof (free_dependency_file_inr disk _ _ _ _ Hf) as [_ Hgr].
      apply (free_dependency_file_classified _ _ _ _ _ C2) in Hf as [C _].
      destruct (is_Some_b o); cbn [assert]; [|done]. unfold ret. intros [= <-].
      split; [done|]. by apply (dependency_known_grows repo2).
    - revert H3. unfold ret. by intros [= <-]. }
  destruct C3 as [C3 K3]. unfold bind at 1.
  destruct (update_file self _ repo3) as [[e|[]] repo4] eqn:H4; [done|].
  apply (update_file_classified P) in H4; [|done| |done].
  2:{ intros x e _ _ Hin. simpl in Hin.
      apply elem_of_app in Hin as [Hin|Hin]; [by left|].
      apply list_elem_of_singleton in Hin. subst e. by right. }
  intros H5.
  apply (update_file_classified P) in H5; [done|done|by left|done].
Qed.

End Classified.

Lemma classifies_ret {A} P (x : A) : classifies P P (ret x).
Proof. by intros a y a' H [= _ <-]. Qed.

Lemma classifies_raise {A} P Q e : classifies P Q (@raise Amalgamator A e).
Proof. by intros a y a' H. Qed.

Lemma classifies_get P : classifies P P (@get Amalgamator).
Proof. by intros a y a' H [= _ <-]. Qed.

Lemma classifies_assert P b e : classifies P P (@assert Amalgamator b e).
Proof. intros a y a' H. destruct b; [by intros [= _ <-]|done]. Qed.

Lemma classifies_bind {A B} P Q R (m : M Amalgamator A)
    (k : A -> M Amalgamator B) :
  classifies P Q m -> (forall x, classifies Q R (k x)) ->
  classifies P R (bind m k).
Proof.
  intros Hm Hk a y a' H. unfold bind.
  destruct (m a) as [[e|x] a1] eqn:E; [done|].
  intros E'. exact (Hk x a1 y a' (Hm a x a1 H E) E').
Qed.

Lemma classifies_when P b m : classifies P P m -> classifies P P (when b m).
Proof. destruct b; [done|]. intros _. apply classifies_ret. Qed.

Lemma classifies_on_repository {A} P Q (m : M SimdjsonRepository A) :
  (forall repo x repo',
     classified_but P repo -> m repo = (inr x, repo') -> classified_but Q repo') ->
  classifies P Q (on_repository m).
Proof.
  intros Hm a x a' H E. apply on_repository_inv in E as [E _].
  exact (Hm _ _ _ H E).
Qed.

Lemma classifies_write P o line : classifies P P (write o line).
Proof. by intros a [] a' H [= <-]. Qed.

Lemma classifies_modify P f :
  (forall a, repository (f a) = repository a) -> classifies P P (modify f).
Proof. intros Hf a [] a' H [= <-]. by rewrite Hf. Qed.

Lemma classifies_weaken {A} P P' Q Q' (m : M Amalgamator A) :
  P' ⊆ P -> Q ⊆ Q' -> classifies P Q m -> classifies P' Q' m.
Proof.
  intros HP HQ Hm a x a' H E.
  apply (classified_but_weaken Q Q'); [done|].
  apply (Hm a x a'); [|done]. by apply (classified_but_weaken P' P).
Qed.

Create HintDb classified.

#[export] Hint Resolve classifies_ret classifies_raise classifies_get
  classifies_assert classifies_when classifies_write : classified.
#[export] Hint Extern 1 (classifies ?P ?P (bind _ _)) =>
  apply (classifies_bind P P P); [|intros ?] : classified.
#[export] Hint Extern 1 (classifies _ _ (modify _)) =>
  apply classifies_modify; reflexivity : classified.
#[export] Hint Extern 2 (classifies _ _ (match ?x with _ => _ end)) =>
  destruct x : classified.

Section Classifies.

Context (disk : Disk).

Lemma classifies_is_amalgamated P file :
  classifies P P (on_repository (is_amalgamated disk file)).
Proof.
  apply classifies_on_repository. intros repo b repo' H E.
  by apply (is_amalgamated_classified disk P file repo b repo').
Qed.

Lemma classifies_is_amalgamated_resolve P file :
  classifies (file :: P) P (on_repository (is_amalgamated disk file)).
Proof.
  apply classifies_on_repository. intros repo b repo' H E.
  apply (is_amalgamated_classified disk _ file repo b repo' H) in E as [C K].
  by apply (classified_but_resolve file).
Qed.

Lemma classifies_getitem {A} P Q path (k : string -> M Amalgamator A) :
  classifies (path :: P) Q (k path) ->
  classifies P Q (x <- on_repository (getitem disk path) ;; k x).
Proof.
  intros Hk a y a' H. unfold bind.
  destruct (on_repository (getitem disk path) a) as [[e|x] a1] eqn:E; [done|].
  apply on_repository_inv in E as [E _].
  pose proof (getitem_inr disk _ _ _ _ E) as [-> _].
  apply (getitem_classified disk P) in E; [|done].
  by apply Hk.
Qed.

Lemma classifies_add_include P self included :
  classifies (included :: P) P (on_repository (add_include disk self included)).
Proof.
  apply classifies_on_repository. intros repo [] repo'.
  apply add_include_classified.
Qed.

Lemma classifies_add_editor_only_include P self included :
  classifies (included :: P) P
    (on_repository (add_editor_only_include disk self included)).
Proof.
  apply classifies_on_repository. intros repo [] repo'.
  apply add_editor_only_include_classified.
Qed.

Lemma classifies_set_processed P file v :
  classifies P P (set_processed file v).
Proof.
  apply classifies_on_repository. intros repo [] repo' H E.
  apply (update_file_classified P) in E; [done|done|by left|done].
Qed.

#[local] Hint Resolve classifies_is_amalgamated classifies_set_processed
  : classified.

Lemma classifies_file_to_str P file : classifies P P (file_to_str disk file).
Proof. unfold file_to_str. auto 12 with classified. Qed.

Lemma classifies_implementation_step P file line :
  classifies P P (implementation_step file line).
Proof. unfold implementation_step. auto 12 with classified. Qed.

Lemma classifies_amalgamated_step P file line :
  classifies P P (amalgamated_step disk file line).
Proof. unfold amalgamated_step. auto 14 with classified. Qed.

#[local] Hint Resolve classifies_file_to_str classifies_implementation_step
  classifies_amalgamated_step : classified.

Lemma classifies_line_step P file line :
  classifies P P (line_step disk file line).
Proof.
  unfold line_step.
  apply (classifies_bind P P P); [auto 14 with classified|intros _].
  apply (classifies_bind P P P); [auto with classified|intros a].
  destruct (editor_only_region a).
  - apply (classifies_bind P P P); [auto with classified|intros _].
    apply (classifies_bind P P P); [|auto 8 with classified].
    destruct (Re.included line) as [path|]; [|auto with classified].
    apply classifies_getitem, classifies_add_editor_only_include.
  - apply (classifies_bind P P P); [auto with classified|intros _].
    destruct (Re.included line) as [path|]; [|auto 10 with classified].
    apply classifies_getitem.
    apply (classifies_bind _ P P); [|auto with classified].
    apply classifies_add_include.
Qed.

Lemma classifies_should_write P file including_file else_line :
  classifies (file :: P) P (should_write disk file including_file else_line).
Proof.
  unfold should_write.
  apply (classifies_bind _ P P); [apply classifies_is_amalgamated_resolve|].
  intros amalgamated. auto 14 with classified.
Qed.

Lemma classifies_announce P file else_line :
  classifies P P (announce disk file else_line).
Proof. unfold announce. auto with classified. Qed.

Lemma classifies_begin_file P file : classifies P P (begin_file disk file).
Proof. unfold begin_file, open_file. auto 20 with classified. Qed.

Lemma classifies_end_file P file : classifies P P (end_file disk file).
Proof. unfold end_file. auto 20 with classified. Qed.

Lemma classifies_maybe_write_file P wf file including_file else_line :
  (forall f, classifies P P (wf f)) ->
  classifies (file :: P) P
    (maybe_write_file_with disk wf file including_file else_line).
Proof.
  intros Hwf. unfold maybe_write_file_with.
  apply (classifies_bind _ P P); [apply classifies_should_write|].
  intros proceed. apply classifies_when.
  apply (classifies_bind P P P); [apply classifies_announce|auto].
Qed.

Lemma classifies_write_lines P wf file lines :
  (forall f, classifies P P (wf f)) ->
  classifies P P (write_lines disk (maybe_write_file_with disk wf) file lines).
Proof.
  intros Hwf. induction lines as [|line lines IH]; [apply classifies_ret|].
  cbn [write_lines].
  apply (classifies_bind P P P); [|by intros _].
  unfold process_line.
  apply (classifies_bind P P P); [apply classifies_line_step|].
  intros [included|]; [|apply classifies_ret].
  apply (classifies_weaken (included :: P) P P P);
    [by right|done|by apply classifies_maybe_write_file].
Qed.

Lemma classifies_write_file P fuel : forall file,
  classifies P P (write_file disk fuel file).
Proof.
  induction fuel as [|fuel IH]; intros file; [apply classifies_raise|].
  cbn [write_file]. unfold write_file_body.
  apply (classifies_bind P P P); [apply classifies_begin_file|intros lines].
  apply (classifies_bind P P P); [by apply classifies_write_lines|intros _].
  apply classifies_end_file.
Qed.

End Classifies.

(** The validation of the aggregators starts from the amalgamator that
    the traversal leaves, and only where the traversal raised nothing. *)
Lemma amalgamate_run_traversal disk fuel file roots timestamp :
  amalgamate_run disk fuel file roots timestamp
  = match traversal disk fuel file roots timestamp with
    | (inr _, a) => on_repository (validate_free_dependency_files disk) a
    | (inl e, a) => (inl e, a)
    end.
Proof.
  unfold amalgamate_run, traversal.
  cbv beta iota zeta delta [bind].
  destruct (on_repository (getitem disk file) _) as [[e|f] a1]; [done|].
  by destruct (maybe_write_file disk fuel f None EmptyString a1) as [[e|[]] a2].
Qed.

(** A traversal that raised nothing leaves every file of the repository
    classified: the state from which the aggregators are validated. *)
Lemma traversal_classified disk fuel file roots timestamp a :
  traversal disk fuel file roots timestamp = (inr tt, a) ->
  classified (repository a) = true.
Proof.
  intros E. apply classified_iff. revert E. unfold traversal.
  apply (classifies_getitem disk [] []).
  - apply classifies_maybe_write_file. intros f. apply classifies_write_file.
  - intros f Hf. simpl in Hf. by apply elem_of_nil in Hf.
Qed.

(** * Further properties of the repository and of the classifier *)

Lemma included_filename_root_loop_filter disk roots filename : forall result,
  included_filename_root_loop disk roots filename result
  = match result, List.filter (fun r => path_exists disk r filename) roots with
    | _, [] => inr result
    | None, [r] => inr (Some r)
    | _, _ => inl ExistsInBothRoots
    end.
Proof.
  induction roots as [|r roots IH]; intros result; [by destruct result|].
  cbn [included_filename_root_loop List.filter].
  destruct (path_exists disk r filename).
  - destruct result as [r0|]; [done|]. rewrite IH.
    by destruct (List.filter _ roots).
  - apply IH.
Qed.

Lemma getitem_new_path disk p repo :
  contains repo p = false ->
  getitem disk p repo
  = match List.filter (fun r => path_exists disk r p) (relative_roots repo) with
    | [] => (inl (NotFoundInRoots p (relative_roots repo)), repo)
    | [r] =>
        (inr p, {| relative_roots := relative_roots repo;
                   files := (files repo ++ [new_file r p])%list |})
    | _ => (inl ExistsInBothRoots, repo)
    end.
Proof.
  intros Hc. unfold getitem, bind, get. rewrite Hc.
  unfold included_filename_root, bind, get.
  rewrite included_filename_root_loop_filter.
  by destruct (List.filter _ (relative_roots repo)) as [|r [|r' l]].
Qed.

(** X1. [__getitem__] on a path that is not yet registered resolves its
    root among the roots of the repository: the object is created,
    last in [files], when the path exists under exactly one entry of
    [relative_roots]; no entry raises the not-found error, two or more
    (a root listed twice counts twice) raise the both-roots error, and
    an error registers nothing. *)
Theorem getitem_resolves_root disk p repo :
  contains repo p = false ->
  getitem disk p repo
  = match List.filter (fun r => path_exists disk r p) (relative_roots repo) with
    | [] => (inl (NotFoundInRoots p (relative_roots repo)), repo)
    | [r] =>
        (inr p, {| relative_roots := relative_roots repo;
                   files := (files repo ++ [new_file r p])%list |})
    | _ => (inl ExistsInBothRoots, repo)
    end.
Proof.
  intros Hc. unfold getitem, bind, get. rewrite Hc.
  unfold included_filename_root, bind, get.
  rewrite included_filename_root_loop_filter.
  by destruct (List.filter _ (relative_roots repo)) as [|r [|r' l]].
Qed.

Lemma getitem_resolves_root_witness :
  getitem tree_cycle "b.h"
    {| relative_roots := [include]; files := [new_file include "a.h"] |}
  = (inr "b.h", repo_ab).
Proof.
  exact (getitem_resolves_root tree_cycle "b.h"
           {| relative_roots := [include]; files := [new_file include "a.h"] |}
           eq_refl).
Defined.

(** X2. [__getitem__] memoises: a lookup that returns gives back the
    path it was asked for, leaves every object registered before as it
    was, changes nothing when the path was registered already, and
    makes the same lookup, from then on, a read that changes nothing. *)
Theorem getitem_memoises disk p repo x repo' :
  getitem disk p repo = (inr x, repo') ->
  x = p
  /\ (contains repo p = true -> repo' = repo)
  /\ (forall q f, lookup_file repo q = Some f -> lookup_file repo' q = Some f)
  /\ getitem disk p repo' = (inr p, repo')
  /\ forall q, contains repo q = true -> getitem disk q repo' = (inr q, repo').
Proof.
  intros H. pose proof (getitem_inr disk p repo x repo' H) as (-> & Hg & Hc).
  split; [done|]. split.
  { intros Hin. rewrite (getitem_contains disk p repo Hin) in H. congruence. }
  split; [intros q f; by apply grows_lookup|].
  split; [by apply getitem_contains|].
  intros q Hq. apply getitem_contains. by apply (contains_grows repo).
Qed.

Lemma getitem_memoises_witness :
  getitem tree_cycle "b.h" repo_ab = (inr "b.h", repo_ab).
Proof.
  exact (proj1 (proj2 (proj2 (proj2
    (getitem_memoises tree_cycle "b.h"
       {| relative_roots := [include]; files := [new_file include "a.h"] |}
       "b.h" repo_ab eq_refl))))).
Defined.

Lemma append_cons c s t : (String c s ++ t)%string = String c (s ++ t).
Proof. reflexivity. Qed.

Lemma append_nil_l t : (EmptyString ++ t)%string = t.
Proof. reflexivity. Qed.

Lemma split_last_slash_prefix w r :
  exists h t, Py.split_last_slash (w ++ String "/" r) = (Some (w ++ String "/" h), t).
Proof.
  induction w as [|c w (h & t & IH)].
  - rewrite append_nil_l. cbn [Py.split_last_slash].
    destruct (Py.split_last_slash r) as [[h|] t].
    + by exists h, t.
    + exists EmptyString, t. done.
  - exists h, t. rewrite append_cons. cbn [Py.split_last_slash]. by rewrite IH.
Qed.

Lemma is_generic_include_dir p :
  is_generic p = true -> is_generic (include_dir p ++ "/dependencies.h") = true.
Proof.
  unfold is_generic, Py.startswith. intros H.
  apply orb_true_iff in H as [H|H].
  - destruct (Py.removeprefix "generic/" p) as [r|] eqn:E; [|done].
    apply removeprefix_Some in E. subst p.
    destruct (split_last_slash_prefix "generic" r) as (h & t & Hs).
    unfold include_dir, Py.dirname.
    change ("generic/" ++ r) with ("generic" ++ String "/" r). rewrite Hs.
    cbn [fst]. rewrite !append_cons, append_nil_l.
    cbn [Py.all_slashes Ascii.eqb Bool.eqb andb Py.rstrip_slashes].
    destruct (Py.rstrip_slashes h =? EmptyString) eqn:Eh.
    + reflexivity.
    + reflexivity.
  - destruct (Py.removeprefix "simdjson/generic/" p) as [r|] eqn:E; [|done].
    apply removeprefix_Some in E. subst p.
    destruct (split_last_slash_prefix "simdjson/generic" r) as (h & t & Hs).
    unfold include_dir, Py.dirname.
    change ("simdjson/generic/" ++ r) with ("simdjson/generic" ++ String "/" r).
    rewrite Hs.
    cbn [fst]. rewrite !append_cons, append_nil_l.
    cbn [Py.all_slashes Ascii.eqb Bool.eqb andb Py.rstrip_slashes String.eqb].
    destruct (Py.rstrip_slashes h =? EmptyString) eqn:Eh.
    + reflexivity.
    + reflexivity.
Qed.

(** X3. The file that governs a file (the value of the property
    [free_dependency_file]) is always an aggregator of a generic
    directory: its name is [dependencies.h], it is generic, and no file
    governs it, so that it is itself a free dependency. *)
Theorem aggregators_are_generic_free_dependencies p q :
  free_dependency_path p = Some q ->
  filename q = "dependencies.h"
  /\ is_generic q = true
  /\ free_dependency_path q = None
  /\ free_dependency_by_path q = true.
Proof.
  intros H. pose proof (free_dependency_path_aggregator p q H) as Hq.
  assert (Hg : filename q = "dependencies.h" /\ is_generic q = true).
  { revert H. unfold free_dependency_path.
    destruct (is_free_dependency_file p); [done|].
    destruct (is_Some_b (implementation p)).
    - destruct (include_dir p =? EmptyString); [by intros [= <-]|].
      destruct (filename p =? "ondemand.h"); by intros [= <-].
    - destruct (is_generic p) eqn:G; [|done]. intros [= <-]. split.
      + apply basename_dependencies.
      + by apply is_generic_include_dir. }
  destruct Hg as [Hf Hg]. repeat split; try done.
  unfold free_dependency_by_path. by rewrite Hq.
Qed.

Lemma aggregators_are_generic_free_dependencies_witness :
  filename "simdjson/generic/ondemand/dependencies.h" = "dependencies.h"
  /\ is_generic "simdjson/generic/ondemand/dependencies.h" = true
  /\ free_dependency_path "simdjson/generic/ondemand/dependencies.h" = None
  /\ free_dependency_by_path "simdjson/generic/ondemand/dependencies.h" = true.
Proof.
  exact (aggregators_are_generic_free_dependencies
           "simdjson/generic/ondemand/value.h" _ eq_refl).
Defined.

Lemma is_amalgamated_lookup disk p repo :
  is_amalgamated disk p repo
  = match free_dependency_path p with
    | None => (inr false, repo)
    | Some q =>
        if contains repo q then (inr true, repo)
        else
          match List.filter (fun r => path_exists disk r q) (relative_roots repo) with
          | [] => (inl (NotFoundInRoots q (relative_roots repo)), repo)
          | [r] =>
              (inr true, {| relative_roots := relative_roots repo;
                            files := (files repo ++ [new_file r q])%list |})
          | _ => (inl ExistsInBothRoots, repo)
          end
    end.
Proof.
  unfold is_amalgamated, is_free_dependency, free_dependency_file.
  destruct (free_dependency_path p) as [q|]; [|done].
  destruct (contains repo q) eqn:Hc.
  - unfold bind at 1 2 3. by rewrite (getitem_contains disk q repo Hc).
  - unfold bind at 1 2 3. rewrite (getitem_new_path disk q repo Hc).
    by destruct (List.filter _ (relative_roots repo)) as [|r [|r' l]].
Qed.

(** X4. Whether a file is amalgamated is decided by its path, but the
    question is put to the repository: for a governed file the
    aggregator is looked up, and registered on first use; where the
    aggregator is neither registered nor to be found under exactly one
    root, the question itself raises. *)
Theorem is_amalgamated_by_path disk p repo :
  is_amalgamated disk p repo
  = match free_dependency_path p with
    | None => (inr false, repo)
    | Some q =>
        if contains repo q then (inr true, repo)
        else
          match List.filter (fun r => path_exists disk r q) (relative_roots repo) with
          | [] => (inl (NotFoundInRoots q (relative_roots repo)), repo)
          | [r] =>
              (inr true, {| relative_roots := relative_roots repo;
                            files := (files repo ++ [new_file r q])%list |})
          | _ => (inl ExistsInBothRoots, repo)
          end
    end.
Proof.
  unfold is_amalgamated, is_free_dependency, free_dependency_file.
  destruct (free_dependency_path p) as [q|]; [|done].
  destruct (contains repo q) eqn:Hc.
  - unfold bind at 1 2 3. by rewrite (getitem_contains disk q repo Hc).
  - unfold bind at 1 2 3. rewrite (getitem_new_path disk q repo Hc).
    by destruct (List.filter _ (relative_roots repo)) as [|r [|r' l]].
Qed.

Lemma is_amalgamated_known disk p repo b repo' :
  is_amalgamated disk p repo = (inr b, repo') ->
  dependency_known repo' p = true.
Proof.
  unfold is_amalgamated, is_free_dependency, free_dependency_file, dependency_known.
  destruct (free_dependency_path p) as [q|]; [|done].
  unfold bind. destruct (getitem disk q repo) as [[e|x] r] eqn:Hg; [done|].
  unfold ret. intros [= _ <-].
  by destruct (getitem_inr disk q repo x r Hg) as (_ & _ & Hc).
Qed.

(** X5. The second assertion of [add_editor_only_include] (line 168)
    never fails: it is reached only after [self.is_amalgamated] was
    found true, which is to say that [self.free_dependency_file] is an
    object. *)
Theorem add_editor_only_include_second_assertion_holds
    disk self included repo s i :
  (add_editor_only_include disk self included repo).1
  <> inl (EditorOnlyIncludesWithoutIfndef s i).
Proof.
  unfold add_editor_only_include. unfold bind at 1.
  destruct (is_amalgamated disk self repo) as [[e|b1] repo1] eqn:H1.
  { simpl. intros [= ->]. revert H1. rewrite is_amalgamated_lookup.
    destruct (free_dependency_path self) as [q|]; [|done].
    destruct (contains repo q); [done|].
    by destruct (List.filter _ (relative_roots repo)) as [|r [|r' l]]. }
  pose proof (is_amalgamated_known disk self repo b1 repo1 H1) as K1.
  pose proof (is_amalgamated_inr disk self repo b1 repo1 H1) as [-> _].
  unfold bind at 1. destruct (free_dependency_by_path self) eqn:Hfree; [done|].
  cbn [negb assert]. unfold ret at 1. unfold bind at 1.
  destruct (is_free_dependency disk included repo1) as [[e|b2] repo2] eqn:H2.
  { simpl. intros [= ->]. revert H2.
    unfold is_free_dependency, free_dependency_file.
    destruct (free_dependency_path included) as [q|]; [|done].
    unfold bind. destruct (contains repo1 q) eqn:Hc.
    - by rewrite (getitem_contains disk q repo1 Hc).
    - rewrite (getitem_new_path disk q repo1 Hc).
      by destruct (List.filter _ (relative_roots repo1)) as [|r [|r' l]]. }
  pose proof (is_free_dependency_inr disk included repo1 b2 repo2 H2) as [_ G2].
  pose proof (dependency_known_grows repo1 repo2 self G2 K1) as K2.
  unfold bind at 1.
  assert (Hw : forall e,
    when b2 (f <- free_dependency_file disk self ;; assert (is_Some_b f) e) repo2
    = (inr tt, repo2)).
  { intros e. destruct b2; [|done]. cbn [when]. unfold bind.
    rewrite (free_dependency_file_known disk repo2 self K2).
    revert Hfree. unfold free_dependency_by_path.
    by destruct (free_dependency_path self). }
  rewrite Hw. done.
Qed.

(** X6. [add_editor_only_include], called on two files of the
    repository whose classification can be looked up: in a file that is
    not amalgamated it raises; in an amalgamated file it succeeds,
    whatever the included file is, appends the included file to
    [editor_only_includes] of the including file and adds the including
    file to [editor_only_included_from] of the included one; the
    [includes] of the including file stay as they are. *)
Theorem add_editor_only_include_registers
    disk repo self included fself fincl b1 repo1 b2 repo2 :
  lookup_file repo self = Some fself ->
  lookup_file repo included = Some fincl ->
  is_amalgamated disk self repo = (inr b1, repo1) ->
  is_free_dependency disk included repo1 = (inr b2, repo2) ->
  if free_dependency_by_path self then
    add_editor_only_include disk self included repo
    = (inl (EditorOnlyInNonAmalgamatedFile self), repo1)
  else
    exists repo',
      add_editor_only_include disk self included repo = (inr tt, repo')
      /\ attribute editor_only_includes [] repo' self
         = (editor_only_includes fself ++ [included])%list
      /\ attribute editor_only_included_from ∅ repo' included
         = {[self]} ∪ editor_only_included_from fincl
      /\ attribute includes [] repo' self = includes fself
      /\ map include_path (files repo') = map include_path (files repo2).
Proof.
  intros Hs Hi H1 H2.
  pose proof (is_amalgamated_known disk self repo b1 repo1 H1) as K1.
  pose proof (is_amalgamated_inr _ _ _ _ _ H1) as [-> G1].
  pose proof (is_free_dependency_inr _ _ _ _ _ H2) as [-> G2].
  pose proof (dependency_known_grows repo1 repo2 self G2 K1) as K2.
  pose proof (grows_lookup _ _ _ _ (grows_trans _ _ _ G1 G2) Hs) as Hs2.
  pose proof (grows_lookup _ _ _ _ (grows_trans _ _ _ G1 G2) Hi) as Hi2.
  pose proof (lookup_file_path _ _ _ Hs) as Ps.
  pose proof (lookup_file_path _ _ _ Hi) as Pi.
  unfold add_editor_only_include.
  rewrite (bind_inr _ _ _ _ _ H1).
  destruct (free_dependency_by_path self) eqn:Hfree; [done|].
  cbn [negb assert]. unfold ret at 1. unfold bind at 1.
  rewrite (bind_inr _ _ _ _ _ H2).
  assert (Hw : forall e,
    when (free_dependency_by_path included)
      (f <- free_dependency_file disk self ;; assert (is_Some_b f) e) repo2
    = (inr tt, repo2)).
  { intros e. destruct (free_dependency_by_path included); [|done].
    cbn [when]. unfold bind.
    rewrite (free_dependency_file_known disk repo2 self K2).
    revert Hfree. unfold free_dependency_by_path.
    by destruct (free_dependency_path self). }
  rewrite (bind_inr _ _ _ _ _ (Hw _)).
  eexists. split; [reflexivity|].
  destruct repo2 as [rr fs]; simpl in *. unfold attribute.
  rewrite !lookup_file_map by (intros x; by destruct (include_path x =? _)).
  rewrite Hs2, Hi2; simpl. rewrite Ps, Pi, !String.eqb_refl.
  split; [|split; [|split]]; simpl.
  - by destruct (self =? included).
  - destruct (included =? self); simpl; by rewrite ?Pi, ?String.eqb_refl.
  - by destruct (self =? included).
  - rewrite !map_map. apply map_ext. intros x.
    destruct (include_path x =? self) eqn:E1; simpl;
      destruct (include_path x =? included) eqn:E2; simpl; try done;
      by rewrite ?E2.
Qed.

Lemma add_editor_only_include_registers_witness :
  exists repo',
    add_editor_only_include tree_missing "generic/amalgamated.h" "a.h" repo_generic
    = (inr tt, repo')
    /\ attribute editor_only_includes [] repo' "generic/amalgamated.h" = ["a.h"]
    /\ attribute editor_only_included_from ∅ repo' "a.h"
       = {["generic/amalgamated.h"]} ∪ ∅
    /\ attribute includes [] repo' "generic/amalgamated.h" = []
    /\ map include_path (files repo') = map include_path (files repo_generic).
Proof.
  exact (add_editor_only_include_registers tree_missing repo_generic
           "generic/amalgamated.h" "a.h"
           (new_file src "generic/amalgamated.h") (new_file include "a.h")
           true repo_generic true repo_generic eq_refl eq_refl eq_refl eq_refl).
Defined.

Lemma validate_free_dependency_file_check_error disk self repo :
  classified repo = true ->
  validate_free_dependency_file disk self repo
  = match check_error repo self with
    | Some e => (inl e, repo)
    | None => (inr tt, repo)
    end.
Proof.
  intros Hc. unfold check_error.
  destruct (is_free_dependency_file self) eqn:Hf.
  - rewrite (validate_free_dependency_file_spec disk self repo Hc Hf).
    destruct (first_missing repo self) as [[f e]|]; [done|].
    by destruct (bool_decide _).
  - unfold validate_free_dependency_file. by rewrite Hf.
Qed.

(** X7. On a classified repository (the state in which a traversal
    that raised nothing leaves it) [validate_free_dependency_files]
    only reads: it checks the registered files in the order of their
    registration and raises what the first aggregator that fails its
    check raises; it returns when every aggregator passes. *)
Theorem validate_free_dependency_files_reports_first disk repo :
  classified repo = true ->
  validate_free_dependency_files disk repo
  = match first_error repo (map include_path (files repo)) with
    | Some e => (inl e, repo)
    | None => (inr tt, repo)
    end.
Proof.
  intros Hc. unfold validate_free_dependency_files, for_each_file.
  unfold bind at 1, get at 1.
  generalize (map include_path (files repo)). intros paths.
  induction paths as [|p paths IH].
  - cbn [iterate_files first_error]. unfold bind, get.
    by rewrite Nat.eqb_refl.
  - cbn [iterate_files first_error]. unfold bind at 1, get at 1.
    rewrite Nat.eqb_refl. cbn [negb]. unfold bind at 1.
    rewrite (validate_free_dependency_file_check_error disk p repo Hc).
    destruct (check_error repo p) as [e|]; [done|]. apply IH.
Qed.

Lemma validate_free_dependency_files_reports_first_witness :
  validate_free_dependency_files tree_unnecessary repo_unnecessary
  = (inl (UnnecessaryIncludes "generic/dependencies.h" {["a.h"]}),
     repo_unnecessary).
Proof.
  rewrite (validate_free_dependency_files_reports_first
             tree_unnecessary repo_unnecessary);
    [|vm_compute; reflexivity].
  vm_compute. reflexivity.
Defined.

(** * Further properties of the loop over the lines *)

Lemma line_step_in_region disk file line a :
  editor_only_region a = true ->
  Re.ifndef_amalgamated line = false ->
  line_step disk file line a
  = (write OEditorOnly ("/* amalgamation skipped (editor-only): " ++ line ++ " */") ;;
     match Re.included line with
     | Some path =>
         included_file <- on_repository (getitem disk path) ;;
         on_repository (add_editor_only_include disk file included_file)
     | None => ret tt
     end ;;
     when (Re.endif_amalgamated line) (modify (set_editor_only_region false)) ;;
     ret None) a.
Proof.
  intros Hr Hi. unfold line_step. rewrite Hi.
  cbn [when]. unfold bind at 1, ret at 1. unfold bind at 1, get at 1.
  by rewrite Hr.
Qed.

Lemma line_step_ifndef_in_region disk file line a :
  editor_only_region a = true ->
  Re.ifndef_amalgamated line = true ->
  exists e a', line_step disk file line a = (inl e, a').
Proof.
  intros Hr Hi. unfold line_step. rewrite Hi. cbn [when].
  unfold bind at 1. unfold bind at 1.
  destruct (on_repository (is_amalgamated disk file) a) as [[e|b] a1] eqn:E;
    [by eauto|].
  apply on_repository_inv in E as (_&_&_&_&_&_&_&Hd&Hr1&_).
  cbv beta iota zeta delta [bind get assert ret raise].
  destruct b; [|by eauto].
  destruct (amalgamated_defined a1); [|by eauto].
  rewrite Hr1, Hr. cbn [negb]. by eauto.
Qed.

Lemma line_step_region_outcome disk file line a r a' :
  editor_only_region a = true ->
  line_step disk file line a = (r, a') ->
  (forall g, r <> inr (Some g))
  /\ (r = inr None ->
      fid a'
      = (fid a ++ [(OEditorOnly,
                    ("/* amalgamation skipped (editor-only): " ++ line ++ " */")%string)])%list
      /\ editor_only_region a' = negb (Re.endif_amalgamated line)
      /\ active_implementation a' = active_implementation a
      /\ amalgamated_defined a' = amalgamated_defined a
      /\ found_includes a' = found_includes a
      /\ found_generic_includes a' = found_generic_includes a
      /\ include_stack a' = include_stack a
      /\ match Re.included line with
         | None => repository a' = repository a
         | Some path =>
             exists repo1,
               getitem disk path (repository a) = (inr path, repo1)
               /\ add_editor_only_include disk file path repo1
                  = (inr tt, repository a')
         end).
Proof.
  intros Hr. destruct (Re.ifndef_amalgamated line) eqn:Hi.
  { destruct (line_step_ifndef_in_region disk file line a Hr Hi) as (e & a1 & E).
    rewrite E. by intros [= <- <-]. }
  rewrite (line_step_in_region disk file line a Hr Hi).
  unfold bind at 1. unfold write at 1, modify at 1.
  set (a0 := set_fid _ a).
  assert (Hend : forall a1 : Amalgamator,
    fid a1 = fid a0 -> editor_only_region a1 = true ->
    active_implementation a1 = active_implementation a ->
    amalgamated_defined a1 = amalgamated_defined a ->
    found_includes a1 = found_includes a ->
    found_generic_includes a1 = found_generic_includes a ->
    include_stack a1 = include_stack a ->
    exists a2,
      (when (Re.endif_amalgamated line) (modify (set_editor_only_region false)) ;;
       ret (@None string)) a1 = (inr None, a2)
      /\ fid a2 = fid a0
      /\ editor_only_region a2 = negb (Re.endif_amalgamated line)
      /\ active_implementation a2 = active_implementation a
      /\ amalgamated_defined a2 = amalgamated_defined a
      /\ found_includes a2 = found_includes a
      /\ found_generic_includes a2 = found_generic_includes a
      /\ include_stack a2 = include_stack a
      /\ repository a2 = repository a1).
  { intros a1 F1 F2 F3 F4 F5 F6 F7.
    destruct (Re.endif_amalgamated line); eexists; (split; [reflexivity|]);
      by repeat split. }
  destruct (Re.included line) as [path|] eqn:Hp.
  - unfold bind at 1. unfold bind at 1.
    destruct (on_repository (getitem disk path) a0) as [[e|f] a1] eqn:E1;
      [by intros [= <- <-]|].
    destruct (on_repository (add_editor_only_include disk file f) a1)
      as [[e|[]] a2] eqn:E2; [by intros [= <- <-]|].
    apply on_repository_inv in E1 as (E1&?&_&?&?&_&?&?&?&?).
    apply on_repository_inv in E2 as (E2&?&_&?&?&_&?&?&?&?).
    pose proof (getitem_inr disk _ _ _ _ E1) as [-> _].
    destruct (Hend a2) as (a3 & -> & G1 & G2 & G3 & G4 & G5 & G6 & G7 & G8);
      try (subst a0; simpl in *; congruence).
    intros [= <- <-]. split; [done|]. intros _. repeat split; try done.
    exists (repository a1). rewrite G8. by split.
  - unfold bind at 1. unfold ret at 1.
    destruct (Hend a0) as (a3 & -> & G1 & G2 & G3 & G4 & G5 & G6 & G7 & G8);
      try done.
    intros [= <- <-]. split; [done|]. intros _. repeat split; try done.
Qed.

(** X8. Inside an editor-only region nothing is copied and nothing is
    expanded: whatever the line is, an include or a directive as well,
    the loop body does not call [maybe_write_file]; where it returns,
    it has printed the one comment that quotes the line, the region is
    left exactly at the closing [#endif // SIMDJSON_AMALGAMATED], the
    variant, the SIMDJSON_AMALGAMATED flag, the found files and the
    include stack are as before, and the repository has changed only
    by the registration of an editor-only include. *)
Theorem editor_only_lines_are_not_copied disk mwf file line a :
  editor_only_region a = true ->
  (forall mwf', process_line disk mwf' file line a
                = process_line disk mwf file line a)
  /\ forall a',
       process_line disk mwf file line a = (inr tt, a') ->
       fid a'
       = (fid a ++ [(OEditorOnly,
                     ("/* amalgamation skipped (editor-only): " ++ line ++ " */")%string)])%list
       /\ editor_only_region a' = negb (Re.endif_amalgamated line)
       /\ active_implementation a' = active_implementation a
       /\ amalgamated_defined a' = amalgamated_defined a
       /\ found_includes a' = found_includes a
       /\ found_generic_includes a' = found_generic_includes a
       /\ include_stack a' = include_stack a
       /\ match Re.included line with
          | None => repository a' = repository a
          | Some path =>
              exists repo1,
                getitem disk path (repository a) = (inr path, repo1)
                /\ add_editor_only_include disk file path repo1
                   = (inr tt, repository a')
          end.
Proof.
  intros Hr. unfold process_line, bind.
  destruct (line_step disk file line a) as [[e|[g|]] a1] eqn:E.
  - by split.
  - by destruct (proj1 (line_step_region_outcome disk file line a _ a1 Hr E) g).
  - split; [done|]. intros a' [= <-].
    exact (proj2 (line_step_region_outcome disk file line a _ a1 Hr E) eq_refl).
Qed.

Lemma editor_only_lines_are_not_copied_witness :
  fid (process_line tree_missing (maybe_write_file tree_missing 0)
         "generic/amalgamated.h" "#include <vector>"
         (set_editor_only_region true (new_amalgamator [] repo_generic))).2
  = [(OEditorOnly, "/* amalgamation skipped (editor-only): #include <vector> */")].
Proof.
  exact (proj1 (proj2 (editor_only_lines_are_not_copied tree_missing
                         (maybe_write_file tree_missing 0)
                         "generic/amalgamated.h" "#include <vector>"
                         (set_editor_only_region true (new_amalgamator [] repo_generic))
                         eq_refl) _ eq_refl)).
Defined.

Lemma ifndef_amalgamated_only line :
  Re.ifndef_amalgamated line = true ->
  Re.endif_amalgamated line = false /\ Re.included line = None.
Proof.
  intros H. apply directive_inv in H as (c & r0 & r2 & -> & _). by split.
Qed.

Lemma endif_amalgamated_only line :
  Re.endif_amalgamated line = true -> Re.ifndef_amalgamated line = false.
Proof.
  unfold Re.endif_amalgamated.
  destruct (Py.removeprefix "#endif" line) as [r|] eqn:E; [|done].
  apply removeprefix_Some in E. by subst line.
Qed.

Lemma line_step_ifndef disk file line a r a' :
  Re.ifndef_amalgamated line = true ->
  line_step disk file line a = (r, a') ->
  (forall g, r <> inr (Some g))
  /\ (free_dependency_by_path file = true \/ amalgamated_defined a = false
      \/ editor_only_region a = true -> exists e, r = inl e)
  /\ (r = inr None ->
      free_dependency_by_path file = false
      /\ amalgamated_defined a = true
      /\ editor_only_region a = false
      /\ editor_only_region a' = true
      /\ fid a'
         = (fid a ++ [(OEditorOnly,
                       ("/* amalgamation skipped (editor-only): "
                        ++ line ++ " */")%string)])%list).
Proof.
  intros Hi. destruct (ifndef_amalgamated_only line Hi) as [He Hinc].
  unfold line_step. rewrite Hi, He, Hinc. cbn [when].
  unfold bind at 1. unfold bind at 1.
  destruct (on_repository (is_amalgamated disk file) a) as [[e|b] a1] eqn:E.
  { intros [= <- <-]. split; [done|]. split; [by eauto|done]. }
  pose proof (on_repository_is_amalgamated disk file a b a1 E) as [-> _].
  apply on_repository_inv in E as (_&F1&_&_&_&_&_&F2&F3&_).
  cbv beta iota zeta delta [bind get assert ret raise modify write when].
  destruct (free_dependency_by_path file); cbn [negb].
  { intros [= <- <-]. split; [done|]. split; [by eauto|done]. }
  rewrite F2. destruct (amalgamated_defined a); cbn [negb].
  2:{ intros [= <- <-]. split; [done|]. split; [by eauto|done]. }
  rewrite F3. destruct (editor_only_region a); cbn [negb].
  { intros [= <- <-]. split; [done|]. split; [by eauto|done]. }
  cbn. intros [= <- <-]. split; [done|]. split.
  - intros [?|[?|?]]; done.
  - intros _. cbn. by rewrite F1.
Qed.

(** X9. The directives that open and close an editor-only region.
    [#ifndef SIMDJSON_AMALGAMATED] is fatal in a file that is not
    amalgamated, before SIMDJSON_AMALGAMATED has been defined, and
    inside a region that is open already; where it is accepted the
    region is open from this line on, and the line itself is printed
    as the comment of a skipped line.  [#endif // SIMDJSON_AMALGAMATED]
    outside a region is fatal. *)
Theorem editor_only_region_directives disk mwf file line a :
  (Re.ifndef_amalgamated line = true ->
     (free_dependency_by_path file = true \/ amalgamated_defined a = false
      \/ editor_only_region a = true ->
      exists e a', process_line disk mwf file line a = (inl e, a'))
     /\ forall a',
          process_line disk mwf file line a = (inr tt, a') ->
          free_dependency_by_path file = false
          /\ amalgamated_defined a = true
          /\ editor_only_region a = false
          /\ editor_only_region a' = true
          /\ fid a'
             = (fid a ++ [(OEditorOnly,
                           ("/* amalgamation skipped (editor-only): "
                            ++ line ++ " */")%string)])%list)
  /\ (Re.endif_amalgamated line = true ->
      editor_only_region a = false ->
      process_line disk mwf file line a = (inl (EndifWithoutIfndef file), a)).
Proof.
  split.
  - intros Hi. unfold process_line, bind.
    destruct (line_step disk file line a) as [[e|[g|]] a1] eqn:E;
      destruct (line_step_ifndef disk file line a _ a1 Hi E) as (H1 & H2 & H3).
    + split; [by eauto|done].
    + by destruct (H1 g).
    + split.
      * intros Hbad. by destruct (H2 Hbad).
      * intros a' [= <-]. by apply H3.
  - intros He Hr. pose proof (endif_amalgamated_only line He) as Hi.
    unfold process_line, line_step. rewrite Hi, He.
    cbv beta iota zeta delta [bind get assert ret raise modify write when].
    by rewrite Hr.
Qed.

Lemma editor_only_region_directives_witness :
  process_line tree_missing (maybe_write_file tree_missing 0) "a.h"
    "#endif // SIMDJSON_AMALGAMATED" (new_amalgamator [] repo_generic)
  = (inl (EndifWithoutIfndef "a.h"), new_amalgamator [] repo_generic).
Proof.
  exact (proj2 (editor_only_region_directives tree_missing
                  (maybe_write_file tree_missing 0) "a.h"
                  "#endif // SIMDJSON_AMALGAMATED"
                  (new_amalgamator [] repo_generic)) eq_refl eq_refl).
Defined.

Lemma define_implementation_only line v :
  Re.define_implementation line = Some v ->
  Re.ifndef_amalgamated line = false /\ Re.endif_amalgamated line = false
  /\ Re.included line = None
  /\ Re.define_amalgamated line = false /\ Re.undef_amalgamated line = false.
Proof.
  intros H.
  assert (Hd : Re.define_amalgamated line = false).
  { destruct (Re.define_amalgamated line) eqn:Hd; [|done].
    destruct (amalgamated_directive_only line (or_introl Hd)) as (_&_&_&E&_).
    congruence. }
  revert H. unfold Re.define_implementation.
  destruct (Py.removeprefix "#define" line) as [r|] eqn:E; [|done].
  apply removeprefix_Some in E. subst line. intros _. by repeat split.
Qed.

Lemma undef_implementation_only line :
  Re.undef_implementation line = true ->
  Re.ifndef_amalgamated line = false /\ Re.endif_amalgamated line = false
  /\ Re.included line = None /\ Re.define_implementation line = None
  /\ Re.define_amalgamated line = false /\ Re.undef_amalgamated line = false.
Proof.
  intros H.
  assert (Hu : Re.undef_amalgamated line = false).
  { destruct (Re.undef_amalgamated line) eqn:Hu; [|done].
    destruct (amalgamated_directive_only line (or_intror Hu)) as (_&_&_&_&E&_).
    congruence. }
  apply directive_inv in H as (c & r0 & r2 & -> & _). by repeat split.
Qed.

(** X10. The directives on SIMDJSON_IMPLEMENTATION, outside an
    editor-only region.  A [#define] makes the text after the macro the
    active variant, whatever the variant was, and prints an annotation
    that tells a first definition from a redefinition; an [#undef]
    clears the variant and prints an annotation that quotes the old
    one, and is accepted when no variant is defined (the annotation
    then quotes [None]).  In both cases the directive itself is then
    copied to the output as it is, and nothing else changes. *)
Theorem implementation_directives disk mwf file line a :
  editor_only_region a = false ->
  (forall v,
     Re.define_implementation line = Some v ->
     process_line disk mwf file line a
     = (inr tt,
        set_fid
          (fid a
           ++ [match active_implementation a with
               | None =>
                   (ODefiningImplementation,
                    ("/* defining SIMDJSON_IMPLEMENTATION to "
                     ++ quoted v ++ " */")%string)
               | Some old =>
                   (ORedefiningImplementation,
                    ("/* redefining SIMDJSON_IMPLEMENTATION from "
                     ++ quoted old ++ " to " ++ quoted v ++ " */")%string)
               end;
               (OSourceLine, line)])%list
          (set_active_implementation (Some v) a)))
  /\ (Re.undef_implementation line = true ->
      process_line disk mwf file line a
      = (inr tt,
         set_fid
           (fid a
            ++ [(OUndefiningImplementation,
                 ("/* undefining SIMDJSON_IMPLEMENTATION from "
                  ++ quoted (str_option (active_implementation a)) ++ " */")%string);
                (OSourceLine, line)])%list
           (set_active_implementation None a))).
Proof.
  intros Hr. split.
  - intros v Hv.
    destruct (define_implementation_only line v Hv) as (H1 & H2 & H3 & H4 & H5).
    unfold process_line, line_step, implementation_step.
    rewrite H1, H2, H3, Hv.
    cbv beta iota zeta delta [bind when get ret assert]. rewrite Hr.
    cbv beta iota zeta delta [negb raise modify].
    unfold amalgamated_step.
    destruct (active_implementation a) as [old|];
      cbv beta iota zeta delta [write modify]; rewrite H4, H5;
      cbv beta iota zeta delta [ret]; cbn;
      by rewrite <- app_assoc.
  - intros Hu.
    destruct (undef_implementation_only line Hu) as (H1 & H2 & H3 & H4 & H5 & H6).
    unfold process_line, line_step, implementation_step.
    rewrite H1, H2, H3, H4, Hu.
    cbv beta iota zeta delta [bind when get ret assert]. rewrite Hr.
    cbv beta iota zeta delta [negb raise modify write].
    unfold amalgamated_step. rewrite H5, H6.
    cbv beta iota zeta delta [ret]. cbn.
    by rewrite <- app_assoc.
Qed.

Lemma implementation_directives_witness :
  process_line tree_missing (maybe_write_file tree_missing 0) "a.h"
    "#undef SIMDJSON_IMPLEMENTATION" (new_amalgamator [] repo_generic)
  = (inr tt,
     set_fid
       [(OUndefiningImplementation,
         "/* undefining SIMDJSON_IMPLEMENTATION from " ++ quoted "None" ++ " */");
        (OSourceLine, "#undef SIMDJSON_IMPLEMENTATION")]
       (new_amalgamator [] repo_generic)).
Proof.
  exact (proj2 (implementation_directives tree_missing
                  (maybe_write_file tree_missing 0) "a.h"
                  "#undef SIMDJSON_IMPLEMENTATION"
                  (new_amalgamator [] repo_generic) eq_refl) eq_refl).
Defined.

(** * The patterns of the writer *)

Lemma string_app_assoc s t u : ((s ++ t) ++ u)%string = (s ++ (t ++ u))%string.
Proof. induction s as [|c s IH]; [done|]. rewrite !append_cons. by rewrite IH. Qed.

Lemma removeprefix_app k s : Py.removeprefix k (k ++ s) = Some s.
Proof.
  induction k as [|c k IH]; [done|].
  rewrite append_cons. cbn [Py.removeprefix]. by rewrite Ascii.eqb_refl.
Qed.

Lemma inc_app p rest :
  inc p ++ rest
  = ("#include " ++ String Re.dquote EmptyString) ++ (p ++ String Re.dquote rest).
Proof.
  unfold inc, quoted. by rewrite !string_app_assoc.
Qed.

Lemma until_dquote_app p rest :
  no_dquote p = true ->
  Re.until_dquote (p ++ String Re.dquote rest) = Some p.
Proof.
  induction p as [|c p IH]; cbn [no_dquote]; intros H.
  - rewrite append_nil_l. cbn [Re.until_dquote]. by rewrite Ascii.eqb_refl.
  - apply andb_true_iff in H as [Hc Hp]. apply negb_true_iff in Hc.
    rewrite append_cons. cbn [Re.until_dquote]. by rewrite Hc, (IH Hp).
Qed.

Lemma until_dquote_Some s : forall p,
  Re.until_dquote s = Some p ->
  no_dquote p = true /\ exists rest, s = p ++ String Re.dquote rest.
Proof.
  induction s as [|c s IH]; intros p; cbn [Re.until_dquote]; [done|].
  destruct (c =? Re.dquote)%char eqn:Hc.
  - intros [= <-]. split; [done|]. exists s.
    apply Ascii.eqb_eq in Hc. by subst c.
  - destruct (Re.until_dquote s) as [p'|]; [|done].
    intros [= <-]. destruct (IH p' eq_refl) as (Hp & rest & ->).
    split; [cbn [no_dquote]; by rewrite Hc|]. by exists rest.
Qed.

(** X12. The include pattern, used for the includes that are expanded
    and for those of editor-only regions alike, recognises exactly the
    lines that start with [#include], one space and a double quote,
    and hold a second double quote: the path is the text between the
    two, and what follows the second one is ignored. *)
Theorem included_recognises line p :
  Re.included line = Some p
  <-> no_dquote p = true /\ exists rest, line = inc p ++ rest.
Proof.
  unfold Re.included. split.
  - destruct (Py.removeprefix _ line) as [r|] eqn:E; [|done].
    apply removeprefix_Some in E. subst line. intros H.
    apply until_dquote_Some in H as (Hp & rest & ->).
    split; [done|]. exists rest. by rewrite inc_app.
  - intros (Hp & rest & ->). rewrite inc_app, removeprefix_app.
    by apply until_dquote_app.
Qed.

Lemma dot_star_eol_no_newline v :
  no_newline v = true -> Re.dot_star_eol v = Some v.
Proof.
  induction v as [|c v IH]; [done|]. cbn [no_newline Re.dot_star_eol].
  intros H. apply andb_true_iff in H as [Hc Hv]. apply negb_true_iff in Hc.
  by rewrite Hc, (IH Hv).
Qed.

Lemma dot_star_eol_Some s : forall v,
  Re.dot_star_eol s = Some v ->
  no_newline v = true
  /\ (s = v \/ s = v ++ String Re.newline EmptyString).
Proof.
  induction s as [|c s IH]; intros v; cbn [Re.dot_star_eol].
  - intros [= <-]. by split; [|left].
  - destruct (c =? Re.newline)%char eqn:Hc.
    + destruct (s =? EmptyString) eqn:Hs; [|done].
      intros [= <-]. apply String.eqb_eq in Hs. apply Ascii.eqb_eq in Hc.
      subst. by split; [|right].
    + destruct (Re.dot_star_eol s) as [v'|]; [|done]. intros [= <-].
      destruct (IH v' eq_refl) as (Hn & Hs). split.
      * cbn [no_newline]. by rewrite Hc.
      * destruct Hs as [->| ->]; [by left|by right].
Qed.

Lemma spaces_dot_plus_eol_text ws v :
  Re.all_spaces ws = true -> starts_with_text v = true -> no_newline v = true ->
  Re.spaces_dot_plus_eol (ws ++ v) = Some v.
Proof.
  intros Hws Hv Hn.
  assert (Hbase : Re.spaces_dot_plus_eol v = Some v).
  { destruct v as [|c v]; [done|]. cbn [starts_with_text] in Hv.
    apply negb_true_iff in Hv. cbn [Re.spaces_dot_plus_eol]. rewrite Hv.
    unfold Re.dot_plus_eol. by rewrite (dot_star_eol_no_newline _ Hn). }
  induction ws as [|c ws IH]; [done|].
  cbn [Re.all_spaces] in Hws. apply andb_true_iff in Hws as [Hc Hws].
  rewrite append_cons. cbn [Re.spaces_dot_plus_eol]. by rewrite Hc, (IH Hws).
Qed.

Lemma skip_spaces_text ws v :
  Re.all_spaces ws = true -> starts_with_text v = true ->
  Re.skip_spaces (ws ++ v) = v.
Proof.
  intros Hws Hv. induction ws as [|c ws IH].
  - rewrite append_nil_l. destruct v as [|c v]; [done|].
    cbn [starts_with_text] in Hv. apply negb_true_iff in Hv.
    cbn [Re.skip_spaces]. by rewrite Hv.
  - cbn [Re.all_spaces] in Hws. apply andb_true_iff in Hws as [Hc Hws].
    rewrite append_cons. cbn [Re.skip_spaces]. by rewrite Hc, (IH Hws).
Qed.

Lemma spaces_dot_plus_eol_Some s : forall v,
  Re.spaces_dot_plus_eol s = Some v ->
  v <> EmptyString /\ no_newline v = true
  /\ exists before, s = before ++ v \/ s = before ++ v ++ String Re.newline EmptyString.
Proof.
  assert (Hplus : forall t v, Re.dot_plus_eol t = Some v ->
    v <> EmptyString /\ no_newline v = true
    /\ (t = v \/ t = v ++ String Re.newline EmptyString)).
  { intros t v. unfold Re.dot_plus_eol.
    destruct (Re.dot_star_eol t) as [[|c g]|] eqn:E; [done| |done].
    intros [= <-]. by destruct (dot_star_eol_Some _ _ E). }
  induction s as [|c s IH]; intros v; cbn [Re.spaces_dot_plus_eol]; [done|].
  assert (Hhere : Re.dot_plus_eol (String c s) = Some v ->
    v <> EmptyString /\ no_newline v = true
    /\ exists before, String c s = before ++ v
         \/ String c s = before ++ v ++ String Re.newline EmptyString).
  { intros H. destruct (Hplus _ _ H) as (H1 & H2 & H3).
    split; [done|]. split; [done|]. exists EmptyString.
    by rewrite !append_nil_l. }
  destruct (Py.isspace c); [|exact Hhere].
  destruct (Re.spaces_dot_plus_eol s) as [v'|]; [|exact Hhere].
  intros [= <-]. destruct (IH v' eq_refl) as (H1 & H2 & before & H3).
  split; [done|]. split; [done|]. exists (String c before).
  rewrite !append_cons. destruct H3 as [->| ->]; [by left|by right].
Qed.

(** X13. The pattern of the definition of SIMDJSON_IMPLEMENTATION.
    After [#define], white space, the macro and white space again, the
    variant is the whole rest of the line, from its first character
    that is not white space: trailing spaces and a trailing comment
    are part of it.  Conversely the variant that the pattern finds is
    never empty and is a final part of the line. *)
Theorem define_implementation_recognises :
  (forall ws1 ws2 v,
     blank ws1 = true -> blank ws2 = true ->
     starts_with_text v = true -> no_newline v = true ->
     Re.define_implementation
       ("#define" ++ ws1 ++ "SIMDJSON_IMPLEMENTATION" ++ ws2 ++ v) = Some v)
  /\ (forall line v,
        Re.define_implementation line = Some v ->
        v <> EmptyString /\ no_newline v = true
        /\ exists before,
             line = before ++ v
             \/ line = before ++ v ++ String Re.newline EmptyString).
Proof.
  split.
  - intros ws1 ws2 v H1 H2 Hv Hn.
    apply andb_true_iff in H1 as [N1 S1]. apply andb_true_iff in H2 as [N2 S2].
    unfold Re.define_implementation. rewrite removeprefix_app.
    destruct ws1 as [|c1 ws1]; [done|]. destruct ws2 as [|c2 ws2]; [done|].
    cbn [Re.all_spaces] in S1, S2.
    apply andb_true_iff in S1 as [C1 S1]. apply andb_true_iff in S2 as [C2 S2].
    rewrite append_cons. cbn [Re.spaces1]. rewrite C1.
    rewrite (skip_spaces_text ws1) by done.
    rewrite removeprefix_app, append_cons, C2.
    by apply spaces_dot_plus_eol_text.
  - intros line v. unfold Re.define_implementation.
    destruct (Py.removeprefix "#define" line) as [r|] eqn:E1; [|done].
    apply removeprefix_Some in E1. subst line.
    destruct (Re.spaces1 r) as [r1|] eqn:E2; [|done].
    destruct (Py.removeprefix "SIMDJSON_IMPLEMENTATION" r1) as [[|c r2]|] eqn:E3;
      [done| |done].
    apply removeprefix_Some in E3. subst r1.
    destruct (Py.isspace c) eqn:Hc; [|done]. intros H.
    destruct (spaces_dot_plus_eol_Some _ _ H) as (H1 & H2 & before & H3).
    split; [done|]. split; [done|].
    destruct r as [|c0 r0]; [done|]. cbn [Re.spaces1] in E2.
    destruct (Py.isspace c0) eqn:Hc0; [|done]. injection E2 as E2.
    assert (Hskip : forall t, exists w, t = w ++ Re.skip_spaces t).
    { induction t as [|x t (w & IH)]; [by exists EmptyString|].
      cbn [Re.skip_spaces]. destruct (Py.isspace x).
      - exists (String x w). rewrite append_cons. by rewrite <- IH.
      - by exists EmptyString. }
    destruct (Hskip r0) as (w & Hw). rewrite E2 in Hw.
    exists ("#define" ++ String c0 w ++ "SIMDJSON_IMPLEMENTATION" ++ String c before).
    rewrite Hw.
    destruct H3 as [->| ->]; [left|right];
      rewrite ?string_app_assoc, ?append_cons, ?append_nil_l;
      repeat (f_equal; rewrite ?string_app_assoc, ?append_cons, ?append_nil_l);
      done.
Qed.

Lemma define_implementation_recognises_witness :
  Re.define_implementation "#define  SIMDJSON_IMPLEMENTATION arm64 // neon "
  = Some "arm64 // neon ".
Proof.
  exact (proj1 define_implementation_recognises "  " " " "arm64 // neon "
           eq_refl eq_refl eq_refl eq_refl).
Defined.

(** ** Lines that name none of the two macros *)

Lemma mentions_here sub r : mentions sub (sub ++ r) = true.
Proof.
  destruct (sub ++ r) as [|c s] eqn:E; cbn [mentions];
    unfold Py.startswith; by rewrite <- E, removeprefix_app.
Qed.

Lemma mentions_later sub p r : mentions sub r = true -> mentions sub (p ++ r) = true.
Proof.
  intros H. induction p as [|c p IH]; [done|].
  rewrite append_cons. cbn [mentions]. by rewrite IH, orb_true_r.
Qed.

Lemma skip_spaces_suffix r : exists p, r = p ++ Re.skip_spaces r.
Proof.
  induction r as [|c r (p & IH)]; [by exists EmptyString|].
  cbn [Re.skip_spaces]. destruct (Py.isspace c).
  - exists (String c p). rewrite append_cons. by f_equal.
  - by exists EmptyString.
Qed.

Lemma mentions_after_spaces sub r r2 :
  Re.skip_spaces r = sub ++ r2 -> mentions sub r = true.
Proof.
  intros H. destruct (skip_spaces_suffix r) as (p & ->).
  apply mentions_later. rewrite H. apply mentions_here.
Qed.

Lemma directive_mentions keyword macro line :
  Re.directive keyword macro line = true -> mentions macro line = true.
Proof.
  intros H. apply directive_inv in H as (c & r0 & r2 & -> & _ & Hr & _).
  apply mentions_later. change (String c r0) with (String c EmptyString ++ r0).
  apply mentions_later. by apply (mentions_after_spaces _ _ r2).
Qed.

Lemma endif_amalgamated_mentions line :
  Re.endif_amalgamated line = true ->
  mentions "SIMDJSON_AMALGAMATED" line = true.
Proof.
  unfold Re.endif_amalgamated.
  destruct (Py.removeprefix "#endif" line) as [r|] eqn:H1; [|done].
  apply removeprefix_Some in H1 as ->.
  destruct (Py.removeprefix "//" (Re.skip_spaces r)) as [r1|] eqn:H2; [|done].
  apply removeprefix_Some in H2.
  destruct (Py.removeprefix "SIMDJSON_AMALGAMATED" (Re.skip_spaces r1))
    as [r2|] eqn:H3; [|done].
  apply removeprefix_Some in H3. intros _.
  apply mentions_later. destruct (skip_spaces_suffix r) as (p & ->).
  apply mentions_later. rewrite H2. apply mentions_later.
  by apply (mentions_after_spaces _ _ r2).
Qed.

Lemma define_implementation_mentions line v :
  Re.define_implementation line = Some v ->
  mentions "SIMDJSON_IMPLEMENTATION" line = true.
Proof.
  unfold Re.define_implementation.
  destruct (Py.removeprefix "#define" line) as [r|] eqn:H1; [|done].
  apply removeprefix_Some in H1 as ->.
  destruct r as [|c r0]; [done|]. cbn [Re.spaces1].
  destruct (Py.isspace c); [|done].
  destruct (Py.removeprefix "SIMDJSON_IMPLEMENTATION" (Re.skip_spaces r0))
    as [r2|] eqn:H2; [|done].
  apply removeprefix_Some in H2. intros _.
  apply mentions_later. change (String c r0) with (String c EmptyString ++ r0).
  apply mentions_later. by apply (mentions_after_spaces _ _ r2).
Qed.

Lemma search_token_mentions s : forall b,
  Re.search_token_from b s = true -> mentions Re.TOKEN s = true.
Proof.
  induction s as [|c s IH]; intros b; [done|].
  cbn [Re.search_token_from mentions]. intros H.
  apply orb_true_iff in H as [H|H].
  - apply andb_true_iff in H as [_ H]. unfold Re.token_at in H.
    unfold Py.startswith.
    by destruct (Py.removeprefix Re.TOKEN (String c s)).
  - by rewrite (IH _ H), orb_true_r.
Qed.

(** A line that matches none of the patterns of the loop, outside an
    editor-only region. *)
Lemma process_line_plain disk mwf file line a :
  editor_only_region a = false ->
  no_earlier_directive line ->
  Re.search_token line = false ->
  Re.define_amalgamated line = false ->
  Re.undef_amalgamated line = false ->
  process_line disk mwf file line a
  = (inr tt, set_fid (fid a ++ [(OSourceLine, line)]) a).
Proof.
  intros Hr (H1 & H2 & H3 & H4 & H5) Ht Hd Hu.
  unfold process_line, line_step, implementation_step.
  rewrite H1, H2, H3, H4, H5, Ht.
  cbv beta iota zeta delta [bind when get ret assert]. rewrite Hr.
  cbv beta iota zeta delta [negb raise andb].
  unfold amalgamated_step. by rewrite Hd, Hu.
Qed.

Lemma not_true_false (b : bool) : (b = true -> False) -> b = false.
Proof. by destruct b; [intros []|]. Qed.

(** X11. Outside an editor-only region, a line in which neither
    SIMDJSON_AMALGAMATED nor SIMDJSON_IMPLEMENTATION occurs and that
    does not start with [#include] and a double quote is copied to the
    output as it is, and nothing else changes: so are code, comments,
    the directives on other macros, the includes between angle
    brackets and the includes that are indented. *)
Theorem lines_without_the_macros_are_copied disk mwf file line a :
  editor_only_region a = false ->
  mentions "SIMDJSON_AMALGAMATED" line = false ->
  mentions "SIMDJSON_IMPLEMENTATION" line = false ->
  Py.startswith line ("#include " ++ String Re.dquote EmptyString) = false ->
  process_line disk mwf file line a
  = (inr tt, set_fid (fid a ++ [(OSourceLine, line)]) a).
Proof.
  intros Hr Ha Hi Hq.
  apply process_line_plain; [done| |apply not_true_false..].
  - repeat split.
    + apply not_true_false. intros H. apply directive_mentions in H. congruence.
    + apply not_true_false. intros H. apply endif_amalgamated_mentions in H.
      congruence.
    + unfold Re.included. unfold Py.startswith in Hq.
      by destruct (Py.removeprefix _ line).
    + destruct (Re.define_implementation line) as [v|] eqn:H; [|done].
      apply define_implementation_mentions in H. congruence.
    + apply not_true_false. intros H. apply directive_mentions in H. congruence.
  - intros H. apply search_token_mentions in H. unfold Re.TOKEN in H. congruence.
  - intros H. apply directive_mentions in H. congruence.
  - intros H. apply directive_mentions in H. congruence.
Qed.

Lemma lines_without_the_macros_are_copied_witness :
  process_line tree_missing (maybe_write_file tree_missing 0) "a.h"
    "#include <vector>" (new_amalgamator [] repo_generic)
  = (inr tt,
     set_fid [(OSourceLine, "#include <vector>")] (new_amalgamator [] repo_generic))
  /\ process_line tree_missing (maybe_write_file tree_missing 0) "a.h"
       ("  " ++ inc "b.h") (new_amalgamator [] repo_generic)
     = (inr tt,
        set_fid [(OSourceLine, "  " ++ inc "b.h")] (new_amalgamator [] repo_generic))
  /\ process_line tree_missing (maybe_write_file tree_missing 0) "a.h"
       "#endif // SIMDJSON_A_H" (new_amalgamator [] repo_generic)
     = (inr tt,
        set_fid [(OSourceLine, "#endif // SIMDJSON_A_H")]
          (new_amalgamator [] repo_generic)).
Proof.
  split; [|split].
  - exact (lines_without_the_macros_are_copied tree_missing
             (maybe_write_file tree_missing 0) "a.h" "#include <vector>"
             (new_amalgamator [] repo_generic) eq_refl eq_refl eq_refl eq_refl).
  - exact (lines_without_the_macros_are_copied tree_missing
             (maybe_write_file tree_missing 0) "a.h" ("  " ++ inc "b.h")
             (new_amalgamator [] repo_generic) eq_refl eq_refl eq_refl eq_refl).
  - exact (lines_without_the_macros_are_copied tree_missing
             (maybe_write_file tree_missing 0) "a.h" "#endif // SIMDJSON_A_H"
             (new_amalgamator [] repo_generic) eq_refl eq_refl eq_refl eq_refl).
Defined.

(** * Invariants of the traversal *)

(** ** The errors of the repository *)

Lemma raises_only_ret {A} ok (x : A) : raises_only ok (ret x).
Proof. by intros repo e repo'. Qed.

Lemma raises_only_raise {A} ok e :
  ok e = true -> raises_only ok (@raise _ A e).
Proof. by intros H repo e' repo' [= <- _]. Qed.

Lemma raises_only_get ok : raises_only ok (@get SimdjsonRepository).
Proof. by intros repo e repo'. Qed.

Lemma raises_only_modify ok f : raises_only ok (modify f).
Proof. by intros repo e repo'. Qed.

Lemma raises_only_assert ok b e :
  ok e = true -> raises_only ok (assert b e).
Proof.
  intros H. destruct b; [apply raises_only_ret|by apply raises_only_raise].
Qed.

Lemma raises_only_bind {A B} ok (m : M SimdjsonRepository A)
    (k : A -> M SimdjsonRepository B) :
  raises_only ok m -> (forall x, raises_only ok (k x)) ->
  raises_only ok (bind m k).
Proof.
  intros Hm Hk repo e repo'. unfold bind.
  destruct (m repo) as [[e1|x] r1] eqn:E.
  - intros [= <- <-]. by apply (Hm repo e1 r1).
  - apply Hk.
Qed.

Lemma raises_only_when ok b m : raises_only ok m -> raises_only ok (when b m).
Proof. intros H. destruct b; [done|apply raises_only_ret]. Qed.

Lemma raises_only_weaken {A} (ok ok' : Error -> bool)
    (m : M SimdjsonRepository A) :
  (forall e, ok e = true -> ok' e = true) ->
  raises_only ok m -> raises_only ok' m.
Proof. intros H Hm repo e repo' E. by apply H, (Hm repo e repo'). Qed.

Lemma lookup_error_repository_error e :
  lookup_error e = true -> repository_error e = true.
Proof. unfold repository_error. by intros ->. Qed.

Create HintDb repository.

#[export] Hint Resolve raises_only_ret raises_only_get raises_only_modify
  raises_only_when : repository.
#[export] Hint Extern 1 (raises_only _ (raise _)) =>
  apply raises_only_raise; reflexivity : repository.
#[export] Hint Extern 1 (raises_only _ (assert _ _)) =>
  apply raises_only_assert; reflexivity : repository.
#[export] Hint Extern 1 (raises_only _ (bind _ _)) =>
  apply raises_only_bind; [|intros ?] : repository.
#[export] Hint Extern 2 (raises_only _ (match ?x with _ => _ end)) =>
  destruct x : repository.

Lemma raises_only_getitem disk path :
  raises_only lookup_error (getitem disk path).
Proof.
  intros repo e repo'. destruct (contains repo path) eqn:Hc.
  - by rewrite (getitem_contains disk path repo Hc).
  - rewrite (getitem_new_path disk path repo Hc).
    destruct (List.filter _ _) as [|r [|r' l]]; by intros [= <- _].
Qed.

Lemma raises_only_is_free_dependency disk path :
  raises_only lookup_error (is_free_dependency disk path).
Proof.
  pose proof (raises_only_getitem disk).
  unfold is_free_dependency, free_dependency_file. auto 10 with repository.
Qed.

Lemma raises_only_is_amalgamated disk path :
  raises_only lookup_error (is_amalgamated disk path).
Proof.
  pose proof (raises_only_is_free_dependency disk).
  unfold is_amalgamated. auto 10 with repository.
Qed.

Lemma raises_only_add_include disk self included :
  raises_only lookup_error (add_include disk self included).
Proof.
  pose proof (raises_only_is_free_dependency disk).
  unfold add_include, update_file. auto 20 with repository.
Qed.

Lemma raises_only_add_editor_only_include disk self included :
  raises_only lookup_error (add_editor_only_include disk self included).
Proof.
  pose proof (raises_only_getitem disk).
  unfold add_editor_only_include, is_amalgamated, is_free_dependency,
    free_dependency_file, update_file.
  auto 20 with repository.
Qed.

Lemma raises_only_update_file ok path f : raises_only ok (update_file path f).
Proof. unfold update_file. auto with repository. Qed.

(** ** Rules for specifications *)

Lemma triple_ret {A} P (x : A) Q E : (forall a, P a -> Q x a) -> triple P (ret x) Q E.
Proof. intros H a Ha. by apply H. Qed.

Lemma triple_raise {A} P e (Q : A -> Amalgamator -> Prop) E :
  (forall a, P a -> E e a) -> triple P (raise e) Q E.
Proof. intros H a Ha. by apply H. Qed.

Lemma triple_get P Q E : (forall a, P a -> Q a a) -> triple P get Q E.
Proof. intros H a Ha. by apply H. Qed.

Lemma triple_modify P f Q E :
  (forall a, P a -> Q tt (f a)) -> triple P (modify f) Q E.
Proof. intros H a Ha. by apply H. Qed.

Lemma triple_assert P (b : bool) e Q E :
  (forall a, P a -> if b then Q tt a else E e a) -> triple P (assert b e) Q E.
Proof. intros H a Ha. specialize (H a Ha). by destruct b. Qed.

Lemma triple_bind {A B} P (m : M Amalgamator A) R (k : A -> M Amalgamator B) Q E :
  triple P m R E -> (forall x, triple (R x) (k x) Q E) ->
  triple P (bind m k) Q E.
Proof.
  intros Hm Hk a Ha. unfold bind. specialize (Hm a Ha).
  destruct (m a) as [[e|x] a1]; [done|]. by apply Hk.
Qed.

Lemma triple_when P b m Q E :
  triple P m Q E -> (forall a, P a -> Q tt a) -> triple P (when b m) Q E.
Proof. intros Hm H. destruct b; [done|]. by apply triple_ret. Qed.

Lemma triple_consequence {A} (P P' : Amalgamator -> Prop) (m : M Amalgamator A)
    (Q Q' : A -> Amalgamator -> Prop) (E E' : Error -> Amalgamator -> Prop) :
  triple P m Q E ->
  (forall a, P' a -> P a) -> (forall x a, Q x a -> Q' x a) ->
  (forall e a, E e a -> E' e a) ->
  triple P' m Q' E'.
Proof.
  intros H HP HQ HE a Ha. specialize (H a (HP a Ha)).
  destruct (m a) as [[e|x] a1]; [by apply HE|by apply HQ].
Qed.

Lemma on_repository_same {A} (m : M SimdjsonRepository A) a r a' :
  on_repository m a = (r, a') -> same_but_repository a a'.
Proof.
  intros H. apply on_repository_inv in H as (_&?&?&?&?&?&?&?&?&?).
  by repeat split.
Qed.

Lemma triple_on_repository {A} ok P (m : M SimdjsonRepository A) Q E :
  raises_only ok m ->
  (forall a a' x, P a -> same_but_repository a a' -> Q x a') ->
  (forall a a' e, P a -> same_but_repository a a' -> ok e = true -> E e a') ->
  triple P (on_repository m) Q E.
Proof.
  intros Hm HQ HE a Ha.
  destruct (on_repository m a) as [[e|x] a'] eqn:H.
  - pose proof (on_repository_same m a _ a' H) as Hs.
    apply on_repository_inv in H as [H _].
    apply (HE a a' e Ha Hs). by apply (Hm _ _ _ H).
  - by apply (HQ a a' x Ha), (on_repository_same m a _ a' H).
Qed.

(** ** Rules for invariants *)

Lemma keeps_ret {A} I E (x : A) : keeps I E (ret x).
Proof. by apply triple_ret. Qed.

Lemma keeps_raise {A} I (E : Error -> Prop) e :
  E e -> keeps I E (@raise _ A e).
Proof. intros H. by apply triple_raise. Qed.

Lemma keeps_get I E : keeps I E get.
Proof. by apply triple_get. Qed.

Lemma keeps_modify I E f : (forall a, I a -> I (f a)) -> keeps I E (modify f).
Proof. intros H. by apply triple_modify. Qed.

Lemma keeps_assert I (E : Error -> Prop) (b : bool) e :
  (b = false -> E e) -> keeps I E (assert b e).
Proof. intros H. apply triple_assert. intros a Ha. destruct b; auto. Qed.

Lemma keeps_bind {A B} I E (m : M Amalgamator A) (k : A -> M Amalgamator B) :
  keeps I E m -> (forall x, keeps I E (k x)) -> keeps I E (bind m k).
Proof. intros Hm Hk. by apply (triple_bind I m (fun _ => I)). Qed.

Lemma keeps_when I E b m : keeps I E m -> keeps I E (when b m).
Proof. intros H. by apply triple_when. Qed.

Lemma keeps_write I E o line :
  (forall a, I a -> I (set_fid (fid a ++ [(o, line)]) a)) -> keeps I E (write o line).
Proof. intros H. by apply keeps_modify. Qed.

Lemma keeps_on_repository {A} ok I (E : Error -> Prop)
    (m : M SimdjsonRepository A) :
  raises_only ok m ->
  (forall a a', I a -> same_but_repository a a' -> I a') ->
  (forall e, ok e = true -> E e) ->
  keeps I E (on_repository m).
Proof.
  intros Hm HI HE. apply (triple_on_repository ok); [done|eauto|].
  intros a a' e Ha Hs He. split; [by apply HE|eauto].
Qed.

Ltac side_condition :=
  cbv beta in *; simpl in *;
  try done; try congruence;
  try (intros ->; simpl in *; discriminate);
  try (rewrite ?existsb_app; simpl; rewrite ?orb_false_r; intuition congruence);
  try (match goal with e : Error |- _ => destruct e; simpl in *; congruence end).

Create HintDb keeps.

#[export] Hint Resolve keeps_ret keeps_get keeps_when : keeps.
#[export] Hint Extern 1 (keeps _ _ (raise _)) =>
  apply keeps_raise; side_condition : keeps.
#[export] Hint Extern 1 (keeps _ _ (assert _ _)) =>
  apply keeps_assert; intros ?; side_condition : keeps.
#[export] Hint Extern 1 (keeps _ _ (bind _ _)) =>
  apply keeps_bind; [|intros ?] : keeps.
#[export] Hint Extern 1 (keeps _ _ (modify _)) =>
  apply keeps_modify; intros ? ?; side_condition : keeps.
#[export] Hint Extern 1 (keeps _ _ (write _ _)) =>
  apply keeps_write; intros ? ?; side_condition : keeps.
#[export] Hint Extern 1 (keeps _ _ (on_repository _)) =>
  apply (keeps_on_repository lookup_error);
    [auto using raises_only_getitem, raises_only_is_amalgamated,
       raises_only_add_include, raises_only_add_editor_only_include,
       raises_only_update_file
    |intros ? ? ? (?&?&?&?&?&?&?&?&?); side_condition
    |intros ? ?; side_condition] : keeps.
#[export] Hint Extern 2 (keeps _ _ (match ?x with _ => _ end)) =>
  destruct x : keeps.

(** ** The flag [builtin_implementation] *)

Section Builtin.

Context (disk : Disk).

Lemma keeps_unset_file_to_str file : keeps builtin_unset any_error (file_to_str disk file).
Proof. unfold file_to_str, builtin_unset, any_error. auto 12 with keeps. Qed.

Lemma keeps_unset_line_step file line :
  keeps builtin_unset any_error (line_step disk file line).
Proof.
  unfold line_step, implementation_step, amalgamated_step, builtin_unset, any_error.
  auto 40 with keeps.
Qed.

Lemma keeps_unset_should_write file including_file else_line :
  keeps builtin_unset any_error (should_write disk file including_file else_line).
Proof. unfold should_write, builtin_unset, any_error. auto 20 with keeps. Qed.

Lemma keeps_unset_begin_file file : keeps builtin_unset any_error (begin_file disk file).
Proof.
  pose proof keeps_unset_file_to_str.
  unfold begin_file, file_eq_str, set_processed, open_file, builtin_unset, any_error in *.
  cbn [when]. auto 30 with keeps.
Qed.

Lemma keeps_unset_end_file file : keeps builtin_unset any_error (end_file disk file).
Proof.
  pose proof keeps_unset_file_to_str.
  unfold end_file, set_processed, builtin_unset, any_error in *. auto 30 with keeps.
Qed.

Lemma keeps_unset_maybe_write_file wf :
  (forall f, keeps builtin_unset any_error (wf f)) ->
  forall f inc line,
    keeps builtin_unset any_error (maybe_write_file_with disk wf f inc line).
Proof.
  intros Hwf f inc line. unfold maybe_write_file_with, announce.
  apply keeps_bind; [apply keeps_unset_should_write|intros proceed].
  apply keeps_when. apply keeps_bind; [|done].
  apply keeps_bind; [apply keeps_unset_file_to_str|intros l].
  unfold builtin_unset, any_error. auto with keeps.
Qed.

Lemma keeps_unset_write_lines wf :
  (forall f, keeps builtin_unset any_error (wf f)) ->
  forall file lines,
    keeps builtin_unset any_error
      (write_lines disk (maybe_write_file_with disk wf) file lines).
Proof.
  intros Hwf file lines. induction lines as [|line lines IH];
    [apply keeps_ret|].
  cbn [write_lines]. apply keeps_bind; [|done]. unfold process_line.
  apply keeps_bind; [apply keeps_unset_line_step|].
  intros [g|]; [by apply keeps_unset_maybe_write_file|apply keeps_ret].
Qed.

Lemma keeps_unset_write_file fuel : forall file,
  keeps builtin_unset any_error (write_file disk fuel file).
Proof.
  induction fuel as [|fuel IH]; intros file; [by apply keeps_raise|].
  cbn [write_file]. unfold write_file_body.
  apply keeps_bind; [apply keeps_unset_begin_file|intros lines].
  apply keeps_bind; [by apply keeps_unset_write_lines|intros _].
  apply keeps_unset_end_file.
Qed.

(** [end_file] does not return for the two files of [simdjson/builtin]. *)
Lemma end_file_builtin file :
  file = BUILTIN_BEGIN_H \/ file = BUILTIN_END_H ->
  triple builtin_unset (end_file disk file) (fun _ _ => False) (fun _ _ => True).
Proof.
  intros Hf. unfold end_file.
  apply (triple_bind _ _ (fun _ => builtin_unset)); [by apply triple_get|intros a0].
  apply (triple_bind _ _ (fun _ => builtin_unset));
    [apply triple_assert; intros a Ha; by destruct (negb _)|intros _].
  apply (triple_bind _ _ (fun _ => builtin_unset)).
  { apply (triple_consequence _ _ _ _ _ _ _ (keeps_unset_file_to_str file)); done. }
  intros l.
  apply (triple_bind _ _ (fun _ => builtin_unset)); [by apply triple_modify|intros _].
  apply (triple_bind _ _ (fun _ _ => False)); [|intros ? ? []].
  destruct Hf as [-> | ->]; cbn [String.eqb Ascii.eqb Bool.eqb BUILTIN_BEGIN_H BUILTIN_END_H].
  - apply (triple_bind _ _ (fun a1 a => builtin_implementation a1 = false));
      [by apply triple_get|intros a1].
    intros a Ha. unfold bind, assert. by rewrite Ha.
  - apply (triple_bind _ _ (fun a1 a => builtin_implementation a1 = false));
      [by apply triple_get|intros a1].
    intros a Ha. unfold bind, assert. destruct (negb _); [|done]. by rewrite Ha.
Qed.

Lemma write_file_builtin fuel file :
  file = BUILTIN_BEGIN_H \/ file = BUILTIN_END_H ->
  triple builtin_unset (write_file disk fuel file)
    (fun _ _ => False) (fun _ _ => True).
Proof.
  intros Hf. destruct fuel as [|fuel]; [done|].
  cbn [write_file]. unfold write_file_body.
  apply (triple_bind _ _ (fun _ => builtin_unset)).
  { apply (triple_consequence _ _ _ _ _ _ _ (keeps_unset_begin_file file)); done. }
  intros lines.
  apply (triple_bind _ _ (fun _ => builtin_unset)).
  { apply (triple_consequence _ _ _ _ _ _ _
             (keeps_unset_write_lines _ (keeps_unset_write_file fuel) file lines));
      done. }
  intros _. by apply end_file_builtin.
Qed.

Lemma keeps_untouched_file_to_str file :
  keeps builtin_untouched any_error (file_to_str disk file).
Proof. unfold file_to_str, builtin_untouched, any_error. auto 12 with keeps. Qed.

Lemma keeps_untouched_line_step file line :
  keeps builtin_untouched any_error (line_step disk file line).
Proof.
  unfold line_step, implementation_step, amalgamated_step,
    builtin_untouched, any_error.
  auto 40 with keeps.
Qed.

Lemma keeps_untouched_should_write file including_file else_line :
  keeps builtin_untouched any_error
    (should_write disk file including_file else_line).
Proof. unfold should_write, builtin_untouched, any_error. auto 20 with keeps. Qed.

Lemma keeps_untouched_announce file else_line :
  keeps builtin_untouched any_error (announce disk file else_line).
Proof.
  pose proof keeps_untouched_file_to_str.
  unfold announce, builtin_untouched, any_error in *. auto 20 with keeps.
Qed.

Lemma keeps_untouched_end_file file :
  keeps builtin_untouched any_error (end_file disk file).
Proof.
  pose proof keeps_untouched_file_to_str.
  unfold end_file, set_processed, builtin_untouched, any_error in *.
  auto 30 with keeps.
Qed.

Lemma keeps_preserves {A} I E (m : M Amalgamator A) :
  keeps I E m -> preserves I m.
Proof. intros H. by apply (triple_consequence _ _ _ _ _ _ _ H). Qed.

Lemma preserves_bind {A B} I (m : M Amalgamator A) (k : A -> M Amalgamator B) :
  preserves I m -> (forall x, preserves I (k x)) -> preserves I (bind m k).
Proof. intros Hm Hk. by apply (triple_bind I m (fun _ => I)). Qed.

Lemma preserves_untouched_begin_file file :
  (file =? BUILTIN_BEGIN_H) || (file =? BUILTIN_END_H) = false ->
  preserves builtin_untouched (begin_file disk file).
Proof.
  intros Hf. unfold begin_file, file_eq_str. cbn [when].
  assert (Hstr : triple builtin_untouched (file_to_str disk file)
                   (fun l a => l.1 = file /\ builtin_untouched a)
                   (fun _ _ => True)).
  { intros a Ha. pose proof (keeps_untouched_file_to_str file a Ha) as K.
    destruct (file_to_str disk file a) as [[e|l] a1] eqn:E; [done|].
    split; [|done].
    destruct (file_to_str_inv disk file a _ a1 E) as (_&_&_&_&_&Hl).
    by rewrite (Hl l eq_refl). }
  apply preserves_bind;
    [apply (keeps_preserves _ any_error); unfold builtin_untouched, any_error;
     auto with keeps|intros a0].
  apply preserves_bind;
    [apply (keeps_preserves _ any_error); unfold builtin_untouched, any_error;
     auto with keeps|intros _].
  apply preserves_bind;
    [apply (keeps_preserves _ any_error); unfold builtin_untouched, any_error;
     auto with keeps|intros _].
  apply preserves_bind;
    [apply (keeps_preserves _ any_error);
     unfold set_processed, builtin_untouched, any_error;
     auto with keeps|intros _].
  apply (triple_bind _ _ _ _ _ _ Hstr). intros l.
  apply (triple_bind _ _ (fun _ => builtin_untouched)).
  { apply triple_modify. intros a [Hl [Hb Hn]]. split; [done|]. simpl.
    rewrite existsb_app, Hn. simpl. by rewrite Hl, Hf. }
  intros _.
  apply (keeps_preserves _ any_error).
  unfold open_file, builtin_untouched, any_error. auto 20 with keeps.
Qed.

Lemma preserves_untouched_maybe_write_file wf :
  (forall f, preserves builtin_untouched (wf f)) ->
  forall f inc line,
    preserves builtin_untouched (maybe_write_file_with disk wf f inc line).
Proof.
  intros Hwf f inc line. unfold maybe_write_file_with.
  apply preserves_bind;
    [apply (keeps_preserves _ any_error), keeps_untouched_should_write|].
  intros proceed. apply triple_when; [|done].
  apply preserves_bind;
    [apply (keeps_preserves _ any_error), keeps_untouched_announce|done].
Qed.

Lemma preserves_untouched_write_lines wf :
  (forall f, preserves builtin_untouched (wf f)) ->
  forall file lines,
    preserves builtin_untouched
      (write_lines disk (maybe_write_file_with disk wf) file lines).
Proof.
  intros Hwf file lines. induction lines as [|line lines IH];
    [by apply triple_ret|].
  cbn [write_lines]. apply preserves_bind; [|done]. unfold process_line.
  apply preserves_bind;
    [apply (keeps_preserves _ any_error), keeps_untouched_line_step|].
  intros [g|]; [by apply preserves_untouched_maybe_write_file|by apply triple_ret].
Qed.

Lemma preserves_untouched_write_file fuel : forall file,
  preserves builtin_untouched (write_file disk fuel file).
Proof.
  induction fuel as [|fuel IH]; intros file; [done|].
  destruct ((file =? BUILTIN_BEGIN_H) || (file =? BUILTIN_END_H)) eqn:Hf.
  - assert (Hb : file = BUILTIN_BEGIN_H \/ file = BUILTIN_END_H).
    { apply orb_true_iff in Hf as [Hf|Hf]; apply String.eqb_eq in Hf; auto. }
    apply (triple_consequence _ _ _ _ _ _ _ (write_file_builtin (S fuel) file Hb));
      [by intros a [Ha _]|done|done].
  - cbn [write_file]. unfold write_file_body.
    apply preserves_bind; [by apply preserves_untouched_begin_file|intros lines].
    apply preserves_bind; [by apply preserves_untouched_write_lines|intros _].
    apply (keeps_preserves _ any_error), keeps_untouched_end_file.
Qed.

End Builtin.

Lemma preserves_on_repository {A} (I : Amalgamator -> Prop)
    (m : M SimdjsonRepository A) :
  (forall a a', I a -> same_but_repository a a' -> I a') ->
  preserves I (on_repository m).
Proof.
  intros H a Ha. destruct (on_repository m a) as [[e|x] a'] eqn:E; [done|].
  by apply (H a a' Ha), (on_repository_same m a _ a' E).
Qed.

Lemma untouched_same_but_repository a a' :
  builtin_untouched a -> same_but_repository a a' -> builtin_untouched a'.
Proof. intros [H1 H2] (F1&F2&_). split; congruence. Qed.

Lemma keeps_any_on_repository {A} (I : Amalgamator -> Prop)
    (m : M SimdjsonRepository A) :
  (forall a a', I a -> same_but_repository a a' -> I a') ->
  keeps I any_error (on_repository m).
Proof.
  intros H a Ha. destruct (on_repository m a) as [[e|x] a'] eqn:E;
    pose proof (H a a' Ha (on_repository_same m a _ a' E)); by try split.
Qed.

Lemma unset_same_but_repository a a' :
  builtin_unset a -> same_but_repository a a' -> builtin_unset a'.
Proof. unfold builtin_unset. intros H (_&?&_). congruence. Qed.

(** X14. The flag [builtin_implementation] is never set: the one
    assignment to it is guarded by the comparison of a file object with
    a string, which is never true.  Hence [write_file] cannot return
    for [simdjson/builtin/begin.h] or [simdjson/builtin/end.h], whose
    end asserts the flag, and a run that completes has begun neither of
    these two files. *)
Theorem builtin_headers_are_never_completed disk fuel :
  (forall file a a',
     builtin_implementation a = false ->
     file = BUILTIN_BEGIN_H \/ file = BUILTIN_END_H ->
     write_file disk fuel file a <> (inr tt, a'))
  /\ forall file roots timestamp,
       let r := amalgamate disk fuel file roots timestamp in
       (builtin_implementation (amalgamate_run disk fuel file roots timestamp).2
        = false)
       /\ (closed r = true ->
           forall f v line,
             (OBeginFile f v, line) ∈ output r ->
             f <> BUILTIN_BEGIN_H /\ f <> BUILTIN_END_H).
Proof.
  split.
  - intros file a a' Ha Hf E.
    pose proof (write_file_builtin disk fuel file Hf a Ha) as H.
    by rewrite E in H.
  - intros file roots timestamp r. split.
    + unfold amalgamate_run.
      match goal with
      | |- builtin_implementation (?m ?a0).2 = false =>
          assert (K : keeps builtin_unset any_error m);
            [|specialize (K a0 eq_refl); by destruct (m a0) as [[e|x] a1];
                                            [destruct K|]]
      end.
      apply keeps_bind;
        [apply keeps_any_on_repository, unset_same_but_repository|intros f].
      apply keeps_bind;
        [apply keeps_unset_maybe_write_file, keeps_unset_write_file|intros _].
      apply keeps_any_on_repository, unset_same_but_repository.
    + intros Hc f v line Hin. subst r. revert Hc Hin.
      unfold amalgamate, amalgamate_run.
      match goal with
      | |- context [?m ?a0] =>
          assert (K : preserves builtin_untouched m);
            [|specialize (K a0 (conj eq_refl eq_refl));
              destruct (m a0) as [[e|x] a1]; [done|]]
      end.
      { apply preserves_bind;
          [apply preserves_on_repository, untouched_same_but_repository|intros g].
        apply preserves_bind;
          [apply preserves_untouched_maybe_write_file,
             preserves_untouched_write_file|intros _].
        apply preserves_on_repository, untouched_same_but_repository. }
      cbn [output closed]. intros _ Hin. destruct K as [_ K].
      assert (Hb : builtin_begin (OBeginFile f v) = false).
      { destruct (builtin_begin (OBeginFile f v)) eqn:Hb; [|done].
        rewrite <- K. symmetry. apply existsb_exists.
        exists (OBeginFile f v, line). split; [by apply list_elem_of_In|done]. }
      cbn [builtin_begin] in Hb. apply orb_false_iff in Hb as [H1 H2].
      by split; apply String.eqb_neq.
Qed.

Lemma builtin_headers_are_never_completed_witness :
  write_file tree_builtin 1 BUILTIN_BEGIN_H (new_amalgamator [] repo_builtin)
  <> (inr tt, new_amalgamator [] repo_builtin).
Proof.
  exact (proj1 (builtin_headers_are_never_completed tree_builtin 1)
           BUILTIN_BEGIN_H (new_amalgamator [] repo_builtin)
           (new_amalgamator [] repo_builtin) eq_refl (or_introl eq_refl)).
Defined.

(** ** Editor-only regions and the boundaries of files *)

Lemma raises_only_foldM {A B} ok
    (f : A -> B -> M SimdjsonRepository A) l :
  (forall a x, raises_only ok (f a x)) ->
  forall a, raises_only ok (foldM f l a).
Proof.
  intros H. induction l as [|x l IH]; intros a; cbn [foldM];
    auto with repository.
Qed.

Lemma raises_only_iterate_files {A} ok size
    (body : A -> string -> M SimdjsonRepository A) paths :
  ok DictionaryChangedSize = true ->
  (forall a p, raises_only ok (body a p)) ->
  forall a, raises_only ok (iterate_files size body paths a).
Proof.
  intros Hok H. induction paths as [|p paths IH]; intros a; cbn [iterate_files].
  - apply raises_only_bind; [apply raises_only_get|intros repo].
    destruct (negb _); [by apply raises_only_raise|apply raises_only_ret].
  - apply raises_only_bind; [apply raises_only_get|intros repo].
    destruct (negb _); [by apply raises_only_raise|].
    apply raises_only_bind; [apply H|done].
Qed.

Lemma raises_only_validate_free_dependency_files disk :
  raises_only repository_error (validate_free_dependency_files disk).
Proof.
  assert (Hfree : forall p,
            raises_only repository_error (is_free_dependency disk p)).
  { intros p. apply (raises_only_weaken lookup_error);
      [apply lookup_error_repository_error|apply raises_only_is_free_dependency]. }
  assert (Hget : forall p, raises_only repository_error (getitem disk p)).
  { intros p. apply (raises_only_weaken lookup_error);
      [apply lookup_error_repository_error|apply raises_only_getitem]. }
  unfold validate_free_dependency_files, for_each_file.
  apply raises_only_bind; [apply raises_only_get|].
  intros repo. apply raises_only_iterate_files; [done|]. intros [] self.
  unfold validate_free_dependency_file, for_each_file.
  destruct (is_free_dependency_file self); [|apply raises_only_ret].
  apply raises_only_bind; [apply raises_only_get|].
  intros repo'.
  apply raises_only_bind; [|intros ?; auto with repository].
  apply raises_only_bind; [apply raises_only_get|].
  intros repo''. apply raises_only_iterate_files; [done|]. intros extra file.
  unfold free_dependency_file.
  apply raises_only_bind; [auto 10 with repository|intros f].
  destruct (bool_decide _); [|auto with repository].
  apply raises_only_bind; [auto with repository|intros r].
  apply raises_only_foldM. intros s x.
  unfold validate_editor_only_include. auto 20 with repository.
Qed.

Section Region.

Context (disk : Disk).

Lemma keeps_closed_file_to_str file :
  keeps region_closed not_region_open (file_to_str disk file).
Proof.
  unfold file_to_str, region_closed, not_region_open. auto 12 with keeps.
Qed.

Lemma keeps_closed_should_write file including_file else_line :
  keeps region_closed not_region_open
    (should_write disk file including_file else_line).
Proof.
  unfold should_write, region_closed, not_region_open. auto 20 with keeps.
Qed.

Lemma keeps_closed_announce file else_line :
  keeps region_closed not_region_open (announce disk file else_line).
Proof.
  pose proof keeps_closed_file_to_str.
  unfold announce, region_closed, not_region_open in *. auto 20 with keeps.
Qed.

Lemma line_step_not_region_open file line :
  keeps (fun _ => True) not_region_open (line_step disk file line).
Proof.
  unfold line_step, implementation_step, amalgamated_step, not_region_open.
  auto 40 with keeps.
Qed.

Lemma line_step_target_closed file line a g a' :
  line_step disk file line a = (inr (Some g), a') -> region_closed a'.
Proof.
  intros H. destruct (editor_only_region a) eqn:Hr.
  { by destruct (proj1 (line_step_region_outcome disk file line a _ a' Hr H) g). }
  destruct (Re.ifndef_amalgamated line) eqn:Hi.
  { by destruct (proj1 (line_step_ifndef disk file line a _ a' Hi H) g). }
  revert H. unfold line_step. rewrite Hi. cbn [when].
  unfold bind at 1, ret at 1. unfold bind at 1, get at 1. rewrite Hr.
  unfold bind at 1. destruct (assert _ _ a) as [[e|[]] a0] eqn:E0; [done|].
  assert (a0 = a) as ->.
  { revert E0. unfold assert. destruct (negb _); [by intros [= <-]|done]. }
  destruct (Re.included line) as [path|].
  - unfold bind at 1.
    destruct (on_repository (getitem disk path) a) as [[e|f] a1] eqn:E1; [done|].
    unfold bind at 1.
    destruct (on_repository (add_include disk file f) a1) as [[e|[]] a2] eqn:E2;
      [done|].
    intros [= _ <-].
    apply on_repository_same in E1 as (_&_&_&_&_&_&_&F1&_).
    apply on_repository_same in E2 as (_&_&_&_&_&_&_&F2&_).
    unfold region_closed. congruence.
  - unfold bind at 1.
    destruct (implementation_step file line a) as [[e|l'] a1]; [done|].
    unfold bind at 1.
    destruct (amalgamated_step disk file l' a1) as [[e|[]] a2]; [done|].
    done.
Qed.

Lemma keeps_closed_begin_file file :
  keeps region_closed not_region_open (begin_file disk file).
Proof.
  pose proof keeps_closed_file_to_str.
  unfold begin_file, file_eq_str. cbn [when].
  apply keeps_bind; [apply keeps_get|intros a0].
  apply keeps_bind; [unfold not_region_open; auto with keeps|intros _].
  apply keeps_bind; [unfold region_closed; auto with keeps|intros _].
  apply keeps_bind;
    [unfold set_processed, region_closed, not_region_open; auto with keeps|intros _].
  apply keeps_bind; [done|intros l].
  apply keeps_bind; [unfold region_closed; auto with keeps|intros _].
  apply keeps_bind; [apply keeps_ret|intros _].
  intros a Ha. unfold bind at 1, get at 1. rewrite Ha. cbn [negb assert].
  unfold bind, ret, open_file, bind, get.
  destruct (disk_find _ _ _); [done|]. by split.
Qed.

Lemma end_file_closes file :
  triple (fun _ => True) (end_file disk file)
    (fun _ => region_closed) (fun e _ => not_region_open e).
Proof.
  pose proof keeps_closed_file_to_str.
  unfold end_file.
  apply (triple_bind _ _ (fun x a => x = a)); [by apply triple_get|intros a0].
  apply (triple_bind _ _ (fun _ => region_closed)).
  { apply triple_assert. intros a <-. unfold region_closed.
    by destruct (editor_only_region a0). }
  intros _.
  match goal with
  | |- triple _ ?m _ _ =>
      assert (K : keeps region_closed not_region_open m)
  end.
  { unfold set_processed, region_closed, not_region_open in *.
    auto 30 with keeps. }
  apply (triple_consequence _ _ _ _ _ _ _ K); [done|done|by intros e a [? ?]].
Qed.

Lemma maybe_write_file_closed wf :
  (forall f, triple region_closed (wf f) (fun _ => region_closed)
               (fun e _ => not_region_open e)) ->
  forall f inc line,
    triple region_closed (maybe_write_file_with disk wf f inc line)
      (fun _ => region_closed) (fun e _ => not_region_open e).
Proof.
  intros Hwf f inc line. unfold maybe_write_file_with.
  apply (triple_bind _ _ (fun _ => region_closed)).
  { apply (triple_consequence _ _ _ _ _ _ _
             (keeps_closed_should_write f inc line));
      [done|done|by intros e a [? ?]]. }
  intros proceed. apply triple_when; [|done].
  apply (triple_bind _ _ (fun _ => region_closed)); [|done].
  apply (triple_consequence _ _ _ _ _ _ _ (keeps_closed_announce f line));
    [done|done|by intros e a [? ?]].
Qed.

Lemma write_lines_not_region_open wf :
  (forall f, triple region_closed (wf f) (fun _ => region_closed)
               (fun e _ => not_region_open e)) ->
  forall file lines,
    triple (fun _ => True)
      (write_lines disk (maybe_write_file_with disk wf) file lines)
      (fun _ _ => True) (fun e _ => not_region_open e).
Proof.
  intros Hwf file lines. induction lines as [|line lines IH]; [done|].
  cbn [write_lines]. apply (triple_bind _ _ (fun _ _ => True)); [|done].
  unfold process_line.
  apply (triple_bind _ _ (fun r a => forall g, r = Some g -> region_closed a)).
  - intros a _. pose proof (line_step_not_region_open file line a I) as K.
    destruct (line_step disk file line a) as [[e|r] a1] eqn:E; [by destruct K|].
    intros g ->. by apply (line_step_target_closed file line a g a1).
  - intros [g|]; [|done].
    apply (triple_consequence _ _ _ _ _ _ _
             (maybe_write_file_closed wf Hwf g (Some file) line)); [|done|done].
    intros a Ha. by apply (Ha g).
Qed.

Lemma write_file_closed fuel : forall file,
  triple region_closed (write_file disk fuel file)
    (fun _ => region_closed) (fun e _ => not_region_open e).
Proof.
  induction fuel as [|fuel IH]; intros file; [done|].
  cbn [write_file]. unfold write_file_body.
  apply (triple_bind _ _ (fun _ _ => True)).
  { apply (triple_consequence _ _ _ _ _ _ _ (keeps_closed_begin_file file));
      [done|done|by intros e a [? ?]]. }
  intros lines. apply (triple_bind _ _ (fun _ _ => True)).
  - by apply write_lines_not_region_open.
  - intros _. apply end_file_closes.
Qed.

End Region.

(** X15. Editor-only regions do not cross the boundaries of files.
    [write_file] is only entered outside a region (the includes of a
    region are not expanded), so that its assertion that no region is
    open (line 293) never fails; and where it returns, no region is
    open (a file that ends inside one is fatal).  In particular no run
    fails on that assertion, and a run that completes ends outside
    every region. *)
Theorem editor_only_regions_do_not_cross_files disk fuel :
  (forall file a,
     editor_only_region a = false ->
     match write_file disk fuel file a with
     | (inr _, a') => editor_only_region a' = false
     | (inl e, _) => e <> EditorOnlyRegionOpen
     end)
  /\ forall file roots timestamp,
       failure (amalgamate disk fuel file roots timestamp)
       <> Some EditorOnlyRegionOpen
       /\ (closed (amalgamate disk fuel file roots timestamp) = true ->
           editor_only_region (amalgamate_run disk fuel file roots timestamp).2
           = false).
Proof.
  split; [intros file a Ha; exact (write_file_closed disk fuel file a Ha)|].
  intros file roots timestamp. unfold amalgamate, amalgamate_run.
  match goal with
  | |- context [?m ?a0] =>
      assert (K : triple region_closed m (fun _ => region_closed)
                    (fun e _ => not_region_open e));
        [|specialize (K a0 eq_refl); destruct (m a0) as [[e|x] a1]]
  end.
  - assert (Hrepo : forall A (m : M SimdjsonRepository A),
      raises_only repository_error m ->
      triple region_closed (on_repository m) (fun _ => region_closed)
        (fun e _ => not_region_open e)).
    { intros A m Hm. apply (triple_on_repository repository_error); [done| |].
      - intros a a' _ Ha (_&_&_&_&_&_&_&F&_). unfold region_closed in *.
        congruence.
      - by intros a a' e _ _ He ->. }
    apply (triple_bind _ _ (fun _ => region_closed));
      [apply Hrepo, (raises_only_weaken lookup_error);
       [apply lookup_error_repository_error|apply raises_only_getitem]
      |intros f].
    apply (triple_bind _ _ (fun _ => region_closed)).
    + apply (maybe_write_file_closed disk). apply write_file_closed.
    + intros _.
      apply Hrepo, raises_only_validate_free_dependency_files.
  - cbn [failure closed snd]. split; [|done]. intros [= ->]. by apply K.
  - cbn [failure closed snd]. by split.
Qed.

(** ** The nesting of files in the output *)

Lemma nesting_app l1 : forall st l2,
  nesting st (l1 ++ l2)%list
  = match nesting st l1 with
    | Some st' => nesting st' l2
    | None => None
    end.
Proof.
  induction l1 as [|o l1 IH]; intros st l2; [done|].
  rewrite <- app_comm_cons. destruct o; cbn [nesting]; try apply IH.
  destruct st as [|g st]; [done|]. destruct (file =? g); [apply IH|done].
Qed.

Lemma nested_write st st' o line a :
  nesting st [o] = Some st' ->
  nested st a -> nested st' (set_fid (fid a ++ [(o, line)]) a).
Proof.
  unfold nested. intros Ho Ha. cbn [fid set_fid].
  by rewrite map_app, nesting_app, Ha.
Qed.

Lemma nested_same_fid st a a' : fid a' = fid a -> nested st a -> nested st a'.
Proof. unfold nested. by intros ->. Qed.

Section Nested.

Context (disk : Disk).

#[local] Hint Extern 1 (keeps (nested _) _ (write _ _)) =>
  apply keeps_write; intros ? ?; eapply nested_write; [reflexivity|eassumption]
  : keeps.
#[local] Hint Extern 1 (keeps (nested _) _ (modify _)) =>
  apply keeps_modify; intros ? ?; eapply nested_same_fid; [|eassumption];
  reflexivity : keeps.
#[local] Hint Extern 1 (keeps (nested _) _ (on_repository _)) =>
  apply keeps_any_on_repository; intros ? ? ? (?&_);
  eapply nested_same_fid; eassumption : keeps.
#[local] Hint Extern 1 (keeps (nested _) any_error (assert _ _)) =>
  apply keeps_assert; intros ?; exact I : keeps.
#[local] Hint Extern 1 (keeps (nested _) any_error (raise _)) =>
  apply keeps_raise; exact I : keeps.

Lemma keeps_nested_file_to_str st file :
  keeps (nested st) any_error (file_to_str disk file).
Proof. unfold file_to_str. auto 12 with keeps. Qed.

Lemma keeps_nested_line_step st file line :
  keeps (nested st) any_error (line_step disk file line).
Proof.
  unfold line_step, implementation_step, amalgamated_step. auto 40 with keeps.
Qed.

Lemma keeps_nested_should_write st file including_file else_line :
  keeps (nested st) any_error (should_write disk file including_file else_line).
Proof. unfold should_write. auto 20 with keeps. Qed.

Lemma keeps_nested_announce st file else_line :
  keeps (nested st) any_error (announce disk file else_line).
Proof.
  pose proof (keeps_nested_file_to_str st).
  unfold announce. auto 20 with keeps.
Qed.

Lemma file_to_str_names st file :
  triple (nested st) (file_to_str disk file)
    (fun l a => l.1 = file /\ nested st a) (fun _ _ => True).
Proof.
  intros a Ha. pose proof (keeps_nested_file_to_str st file a Ha) as K.
  destruct (file_to_str disk file a) as [[e|l] a1] eqn:E; [done|].
  split; [|done].
  destruct (file_to_str_inv disk file a _ a1 E) as (_&_&_&_&_&Hl).
  by rewrite (Hl l eq_refl).
Qed.

Lemma begin_file_nested st file :
  triple (nested st) (begin_file disk file)
    (fun _ => nested (file :: st)) (fun _ _ => True).
Proof.
  unfold begin_file, file_eq_str. cbn [when].
  apply (triple_bind _ _ (fun _ => nested st));
    [apply (keeps_preserves _ any_error); auto with keeps|intros a0].
  apply (triple_bind _ _ (fun _ => nested st));
    [apply (keeps_preserves _ any_error); auto with keeps|intros _].
  apply (triple_bind _ _ (fun _ => nested st));
    [apply (keeps_preserves _ any_error); auto with keeps|intros _].
  apply (triple_bind _ _ (fun _ => nested st));
    [apply (keeps_preserves _ any_error); unfold set_processed;
     auto with keeps|intros _].
  apply (triple_bind _ _ _ _ _ _ (file_to_str_names st file)). intros l.
  apply (triple_bind _ _ (fun _ => nested (file :: st))).
  { apply triple_modify. intros a [Hl Ha]. apply (nested_write st); [|done].
    by rewrite Hl. }
  intros _. apply (keeps_preserves _ any_error).
  unfold open_file. auto 20 with keeps.
Qed.

Lemma end_file_nested st file :
  triple (nested (file :: st)) (end_file disk file)
    (fun _ => nested st) (fun _ _ => True).
Proof.
  unfold end_file.
  apply (triple_bind _ _ (fun _ => nested (file :: st)));
    [apply (keeps_preserves _ any_error); auto with keeps|intros a0].
  apply (triple_bind _ _ (fun _ => nested (file :: st)));
    [apply (keeps_preserves _ any_error); auto with keeps|intros _].
  apply (triple_bind _ _ _ _ _ _ (file_to_str_names (file :: st) file)).
  intros l.
  apply (triple_bind _ _ (fun _ => nested st)).
  { apply triple_modify. intros a [Hl Ha].
    apply (nested_write (file :: st)); [|done].
    cbn [nesting]. by rewrite Hl, String.eqb_refl. }
  intros _. apply (keeps_preserves _ any_error).
  unfold set_processed. auto 30 with keeps.
Qed.

Lemma maybe_write_file_nested st wf :
  (forall f, preserves (nested st) (wf f)) ->
  forall f inc line,
    preserves (nested st) (maybe_write_file_with disk wf f inc line).
Proof.
  intros Hwf f inc line. unfold maybe_write_file_with.
  apply preserves_bind;
    [apply (keeps_preserves _ any_error), keeps_nested_should_write|].
  intros proceed. apply triple_when; [|done].
  apply preserves_bind;
    [apply (keeps_preserves _ any_error), keeps_nested_announce|done].
Qed.

Lemma write_lines_nested st wf :
  (forall f, preserves (nested st) (wf f)) ->
  forall file lines,
    preserves (nested st)
      (write_lines disk (maybe_write_file_with disk wf) file lines).
Proof.
  intros Hwf file lines. induction lines as [|line lines IH];
    [by apply triple_ret|].
  cbn [write_lines]. apply preserves_bind; [|done]. unfold process_line.
  apply preserves_bind;
    [apply (keeps_preserves _ any_error), keeps_nested_line_step|].
  intros [g|]; [by apply maybe_write_file_nested|by apply triple_ret].
Qed.

Lemma write_file_nested fuel : forall st file,
  preserves (nested st) (write_file disk fuel file).
Proof.
  induction fuel as [|fuel IH]; intros st file; [done|].
  cbn [write_file]. unfold write_file_body.
  apply (triple_bind _ _ _ _ _ _ (begin_file_nested st file)). intros lines.
  apply (triple_bind _ _ (fun _ => nested (file :: st))).
  - apply write_lines_nested. intros f. apply IH.
  - intros _. apply end_file_nested.
Qed.

End Nested.

(** X16. In the output of a run that completes, the annotations that
    begin and end files are properly nested: each [end file] closes the
    innermost file that has begun and not ended, and none is left open.
    The same holds of what any [write_file] that returns has added to
    the output. *)
Theorem files_are_properly_nested disk fuel :
  (forall file a a' st,
     write_file disk fuel file a = (inr tt, a') ->
     nesting [] (map fst (fid a)) = Some st ->
     nesting [] (map fst (fid a')) = Some st)
  /\ forall file roots timestamp,
       let r := amalgamate disk fuel file roots timestamp in
       closed r = true -> nesting [] (map fst (output r)) = Some [].
Proof.
  split.
  - intros file a a' st E Ha.
    pose proof (write_file_nested disk fuel st file a Ha) as K.
    by rewrite E in K.
  - intros file roots timestamp r. subst r. unfold amalgamate, amalgamate_run.
    match goal with
    | |- context [?m ?a0] =>
        assert (K : preserves (nested []) m);
          [|specialize (K a0 eq_refl); destruct (m a0) as [[e|x] a1]; [done|]]
    end.
    { assert (Hrepo : forall A (m : M SimdjsonRepository A),
                preserves (nested []) (on_repository m)).
      { intros A m. apply preserves_on_repository.
        intros a a' Ha (F&_). by apply (nested_same_fid [] a). }
      apply preserves_bind; [apply Hrepo|intros f].
      apply preserves_bind; [|intros _; apply Hrepo].
      apply maybe_write_file_nested. intros g. apply write_file_nested. }
    by intros _.
Qed.

Lemma files_are_properly_nested_witness :
  nesting [] (map fst (output (amalgamate tree_twice 3 "simdjson.h" [include] "now")))
  = Some [].
Proof.
  exact (proj2 (files_are_properly_nested tree_twice 3)
           "simdjson.h" [include] "now" eq_refl).
Defined.

(** ** The lines that frame a file *)

Lemma starts_write p o line a :
  starts p a -> starts p (set_fid (fid a ++ [(o, line)]) a).
Proof.
  intros [extra E]. exists (extra ++ [(o, line)])%list.
  cbn [fid set_fid]. by rewrite E, app_assoc.
Qed.

Lemma starts_same_fid p a a' : fid a' = fid a -> starts p a -> starts p a'.
Proof. unfold starts. by intros ->. Qed.

Section Frame.

Context (disk : Disk).

#[local] Hint Extern 1 (keeps (starts _) _ (write _ _)) =>
  apply keeps_write; intros ? ?; apply starts_write; assumption : keeps.
#[local] Hint Extern 1 (keeps (starts _) _ (modify _)) =>
  apply keeps_modify; intros ? ?; eapply starts_same_fid; [|eassumption];
  reflexivity : keeps.
#[local] Hint Extern 1 (keeps (starts _) _ (on_repository _)) =>
  apply keeps_any_on_repository; intros ? ? ? (?&_);
  eapply starts_same_fid; eassumption : keeps.
#[local] Hint Extern 1 (keeps (starts _) any_error (assert _ _)) =>
  apply keeps_assert; intros ?; exact I : keeps.
#[local] Hint Extern 1 (keeps (starts _) any_error (raise _)) =>
  apply keeps_raise; exact I : keeps.

Lemma keeps_starts_file_to_str p file :
  keeps (starts p) any_error (file_to_str disk file).
Proof. unfold file_to_str. auto 12 with keeps. Qed.

Lemma keeps_starts_line_step p file line :
  keeps (starts p) any_error (line_step disk file line).
Proof.
  unfold line_step, implementation_step, amalgamated_step. auto 40 with keeps.
Qed.

Lemma keeps_starts_should_write p file including_file else_line :
  keeps (starts p) any_error (should_write disk file including_file else_line).
Proof. unfold should_write. auto 20 with keeps. Qed.

Lemma keeps_starts_announce p file else_line :
  keeps (starts p) any_error (announce disk file else_line).
Proof.
  pose proof (keeps_starts_file_to_str p).
  unfold announce. auto 20 with keeps.
Qed.

Lemma keeps_starts_begin_file p file :
  keeps (starts p) any_error (begin_file disk file).
Proof.
  pose proof (keeps_starts_file_to_str p).
  unfold begin_file, file_eq_str, set_processed, open_file. cbn [when].
  auto 30 with keeps.
Qed.

Lemma keeps_starts_end_file p file :
  keeps (starts p) any_error (end_file disk file).
Proof.
  pose proof (keeps_starts_file_to_str p).
  unfold end_file, set_processed. auto 30 with keeps.
Qed.

Lemma keeps_starts_maybe_write_file p wf :
  (forall f, keeps (starts p) any_error (wf f)) ->
  forall f inc line,
    keeps (starts p) any_error (maybe_write_file_with disk wf f inc line).
Proof.
  intros Hwf f inc line. unfold maybe_write_file_with.
  apply keeps_bind; [apply keeps_starts_should_write|intros proceed].
  apply keeps_when. apply keeps_bind; [apply keeps_starts_announce|done].
Qed.

Lemma keeps_starts_write_lines p wf :
  (forall f, keeps (starts p) any_error (wf f)) ->
  forall file lines,
    keeps (starts p) any_error
      (write_lines disk (maybe_write_file_with disk wf) file lines).
Proof.
  intros Hwf file lines. induction lines as [|line lines IH];
    [apply keeps_ret|].
  cbn [write_lines]. apply keeps_bind; [|done]. unfold process_line.
  apply keeps_bind; [apply keeps_starts_line_step|].
  intros [g|]; [by apply keeps_starts_maybe_write_file|apply keeps_ret].
Qed.

Lemma keeps_starts_write_file p fuel : forall file,
  keeps (starts p) any_error (write_file disk fuel file).
Proof.
  induction fuel as [|fuel IH]; intros file; [by apply keeps_raise|].
  cbn [write_file]. unfold write_file_body.
  apply keeps_bind; [apply keeps_starts_begin_file|intros lines].
  apply keeps_bind; [by apply keeps_starts_write_lines|intros _].
  apply keeps_starts_end_file.
Qed.

Lemma announce_frame file else_line a a' :
  announce disk file else_line a = (inr tt, a') ->
  let l := (file, variant_label file (active_implementation a)) in
  fid a'
  = (fid a ++ [(OIncluding l.1 l.2,
                ("/* including " ++ label l ++ ": " ++ else_line ++ " */")%string)])%list
  /\ active_implementation a' = active_implementation a.
Proof.
  unfold announce. unfold bind at 1.
  destruct (file_to_str disk file a) as [[e|l] a1] eqn:H1; [done|].
  apply file_to_str_inv in H1 as (F1 & _ & _ & A1 & _ & Hl).
  rewrite (Hl l eq_refl). intros [= <-]. cbn. by rewrite F1.
Qed.

Lemma begin_file_frame file a lines a' :
  begin_file disk file a = (inr lines, a') ->
  let l := (file, variant_label file (active_implementation a)) in
  fid a'
  = (fid a ++ [(OBeginFile l.1 l.2,
                ("/* begin file " ++ label l ++ " */")%string)])%list
  /\ active_implementation a' = active_implementation a.
Proof.
  unfold begin_file. unfold bind at 1. unfold get at 1. unfold bind at 1.
  destruct (bool_decide (file ∈ include_stack a)); cbn [negb assert]; [done|].
  unfold ret at 1. unfold bind at 1. unfold modify at 1.
  set (a0 := set_include_stack _ a).
  unfold bind at 1.
  destruct (set_processed file false a0) as [[e|[]] a1] eqn:H1; [done|].
  apply on_repository_inv in H1 as (_ & F1 & _ & A1 & _).
  subst a0; simpl in F1, A1.
  unfold bind at 1.
  destruct (file_to_str disk file a1) as [[e|l] a2] eqn:H2; [done|].
  apply file_to_str_inv in H2 as (F2 & _ & _ & A2 & _ & Hl).
  rewrite (Hl l eq_refl). clear Hl. cbn [fst snd].
  unfold bind at 1. unfold write at 1. unfold modify at 1.
  set (a3 := set_fid _ a2).
  assert (Hfid : fid a3
    = (fid a ++ [(OBeginFile file (variant_label file (active_implementation a)),
                  ("/* begin file "
                   ++ label (file, variant_label file (active_implementation a))
                   ++ " */")%string)])%list).
  { subst a3. simpl. by rewrite F2, F1, A1. }
  assert (Hact : active_implementation a3 = active_implementation a).
  { subst a3. simpl. congruence. }
  clearbody a3. unfold file_eq_str. cbn [when].
  cbv beta iota zeta delta [bind get ret assert raise open_file].
  destruct (editor_only_region a3); cbn [negb]; [done|].
  destruct (disk_find disk _ file); [|done]. by intros [= _ <-].
Qed.

Lemma end_file_frame file a a' :
  end_file disk file a = (inr tt, a') ->
  let l := (file, variant_label file (active_implementation a)) in
  fid a'
  = (fid a ++ [(OEndFile l.1 l.2,
                ("/* end file " ++ label l ++ " */")%string)])%list.
Proof.
  unfold end_file. unfold bind at 1. unfold get at 1. unfold bind at 1.
  destruct (editor_only_region a); cbn [negb assert]; [done|].
  unfold ret at 1. unfold bind at 1.
  destruct (file_to_str disk file a) as [[e|l] a1] eqn:H1; [done|].
  apply file_to_str_inv in H1 as (F1 & _ & _ & A1 & _ & Hl).
  rewrite (Hl l eq_refl). clear Hl. cbn [fst snd].
  unfold bind at 1. unfold write at 1. unfold modify at 1.
  set (a2 := set_fid _ a1).
  assert (Hfid : fid a2
    = (fid a ++ [(OEndFile file (variant_label file (active_implementation a)),
                  ("/* end file "
                   ++ label (file, variant_label file (active_implementation a))
                   ++ " */")%string)])%list).
  { subst a2. simpl. by rewrite F1. }
  clearbody a2. cbn zeta. rewrite <- Hfid. clear Hfid.
  unfold bind at 1.
  match goal with
  | |- context [(if file =? BUILTIN_BEGIN_H then ?m1 else ?m2) a2] =>
      assert (K : keeps (fun b => fid b = fid a2) any_error
                    (if file =? BUILTIN_BEGIN_H then m1 else m2));
        [unfold any_error; auto 20 with keeps|];
      specialize (K a2 eq_refl);
      destruct ((if file =? BUILTIN_BEGIN_H then m1 else m2) a2)
        as [[e|[]] a3]; [done|]
  end.
  unfold bind at 1.
  destruct (set_processed file true a3) as [[e|[]] a4] eqn:H4; [done|].
  apply on_repository_inv in H4 as (_ & F4 & _).
  intros [= <-]. simpl. congruence.
Qed.

End Frame.

Lemma write_file_frame disk fuel file a a' :
  write_file disk fuel file a = (inr tt, a') ->
  exists middle active',
    fid a'
    = (fid a
       ++ (OBeginFile file (variant_label file (active_implementation a)),
           ("/* begin file "
            ++ label (file, variant_label file (active_implementation a))
            ++ " */")%string)
          :: middle
       ++ [(OEndFile file (variant_label file active'),
            ("/* end file " ++ label (file, variant_label file active')
             ++ " */")%string)])%list.
Proof.
  destruct fuel as [|fuel]; [done|].
  cbn [write_file]. unfold write_file_body. unfold bind at 1.
  destruct (begin_file disk file a) as [[e|lines] a0] eqn:H0; [done|].
  apply begin_file_frame in H0 as [F0 _]. cbn [fst snd] in F0.
  unfold bind at 1.
  pose proof (keeps_starts_write_lines disk (fid a0) (write_file disk fuel)
                (keeps_starts_write_file disk (fid a0) fuel) file lines a0) as K.
  destruct (write_lines disk _ file lines a0) as [[e|[]] a1] eqn:H1; [done|].
  destruct K as [middle F1]; [exists []; by rewrite app_nil_r|].
  intros H2. apply end_file_frame in H2. cbn [fst snd] in H2.
  exists middle, (active_implementation a1).
  rewrite H2, F1, F0. by rewrite <- !app_assoc.
Qed.

(** X17. The lines that frame a file.  What a [write_file] that
    returns has added to the output starts with the [begin file]
    annotation of the file and ends with its [end file] annotation,
    each naming the variant when the file is a generic amalgamated one.
    The output of every run, complete or not, starts with the line of
    the timestamp; that of a complete run goes on with the
    [including] and [begin file] annotations of the file it was asked
    for and ends with the [end file] annotation of that file, which is
    not a generic amalgamated file. *)
Theorem written_files_are_framed disk fuel :
  (forall file a a',
     write_file disk fuel file a = (inr tt, a') ->
     exists middle active',
       fid a'
       = (fid a
          ++ (OBeginFile file (variant_label file (active_implementation a)),
              ("/* begin file "
               ++ label (file, variant_label file (active_implementation a))
               ++ " */")%string)
             :: middle
          ++ [(OEndFile file (variant_label file active'),
               ("/* end file " ++ label (file, variant_label file active')
                ++ " */")%string)])%list)
  /\ forall file roots timestamp,
       let r := amalgamate disk fuel file roots timestamp in
       let stamp :=
         (OTimestamp,
          ("/* auto-generated on " ++ timestamp ++ ". Do not edit! */")%string) in
       (exists rest, output r = stamp :: rest)
       /\ (closed r = true ->
           is_generic file && negb (free_dependency_by_path file) = false
           /\ exists middle,
                output r
                = (stamp
                   :: (OIncluding file None,
                       ("/* including " ++ file ++ ":  */")%string)
                   :: (OBeginFile file None,
                       ("/* begin file " ++ file ++ " */")%string)
                   :: middle
                   ++ [(OEndFile file None,
                        ("/* end file " ++ file ++ " */")%string)])%list).
Proof.
  split; [apply write_file_frame|].
  intros file roots timestamp r stamp. split.
  - subst r. rewrite output_amalgamate. unfold amalgamate_run.
    match goal with
    | |- context [?m ?a0] =>
        assert (K : keeps (starts [stamp]) any_error m);
          [|assert (H0 : starts [stamp] a0) by (by exists []);
            specialize (K a0 H0); destruct (m a0) as [[e|x] a1]]
    end.
    + assert (Hrepo : forall A (m : M SimdjsonRepository A),
                keeps (starts [stamp]) any_error (on_repository m)).
      { intros A m. apply keeps_any_on_repository.
        intros a a' Ha (F&_). by apply (starts_same_fid _ a). }
      apply keeps_bind; [apply Hrepo|intros f].
      apply keeps_bind; [|intros _; apply Hrepo].
      apply keeps_starts_maybe_write_file. apply keeps_starts_write_file.
    + destruct K as [_ [rest K]]. by exists rest.
    + destruct K as [rest K]. by exists rest.
  - subst r. unfold amalgamate.
    destruct (amalgamate_run disk fuel file roots timestamp) as [[e|[]] a5] eqn:Hrun;
      [done|].
    cbn [closed output]. intros _. revert Hrun. unfold amalgamate_run.
    set (a0 := new_amalgamator _ _).
    unfold bind at 1.
    destruct (on_repository (getitem disk file) a0) as [[e|f] a1] eqn:H1; [done|].
    pose proof (on_repository_same _ _ _ _ H1) as (F1&_&A1&I1&_).
    apply on_repository_inv in H1 as [H1 _].
    subst a0. cbn [new_amalgamator fid active_implementation found_includes]
      in F1, A1, I1.
    pose proof (getitem_inr disk _ _ _ _ H1) as [-> _].
    unfold bind at 1. unfold maybe_write_file, maybe_write_file_with.
    unfold bind at 1.
    destruct (should_write disk file None EmptyString a1) as [[e|proceed] a2] eqn:H2;
      [done|].
    assert (Hsw : proceed = true /\ fid a2 = fid a1
                  /\ active_implementation a2 = None
                  /\ is_generic file && negb (free_dependency_by_path file) = false).
    { revert H2. unfold should_write. unfold bind at 1.
      destruct (on_repository (is_amalgamated disk file) a1) as [[e|b] a1'] eqn:H;
        [done|].
      pose proof (on_repository_is_amalgamated disk file a1 b a1' H) as [-> _].
      apply on_repository_same in H as (F&_&A&I'&_).
      destruct (free_dependency_by_path file); cbn [negb].
      - cbv beta iota zeta delta [bind get ret assert raise modify write].
        rewrite I', I1.
        rewrite bool_decide_eq_false_2 by set_solver.
        intros [= <- <-]. cbn. rewrite andb_false_r. repeat split; congruence.
      - destruct (is_generic file).
        + cbv beta iota zeta delta [bind get ret assert raise modify write].
          destruct (negb (found_generic a1' file)); [|done]. cbn.
          rewrite A, A1. cbn. done.
        + cbv beta iota zeta delta [bind get ret assert raise modify write].
          intros [= <- <-]. cbn. repeat split; congruence. }
    destruct Hsw as (-> & F2 & A2 & Hg). cbn [when].
    unfold bind at 1.
    destruct (announce disk file EmptyString a2) as [[e|[]] a3] eqn:H3; [done|].
    apply announce_frame in H3 as [F3 A3]. cbn [fst snd] in F3.
    destruct (write_file disk fuel file a3) as [[e|[]] a4] eqn:H4; [done|].
    apply write_file_frame in H4 as (middle & active' & F4).
    intros H5. apply on_repository_same in H5 as (F5&_).
    split; [done|]. exists middle.
    rewrite F5, F4, F3, F2, F1.
    unfold variant_label in *. rewrite Hg. cbn. done.
Qed.

Lemma written_files_are_framed_witness :
  exists middle active',
    fid (write_file tree_cycle 1 "b.h"
           (set_found_includes {["a.h"]} (new_amalgamator [] repo_ab))).2
    = ((OBeginFile "b.h" None, "/* begin file b.h */")
       :: middle
       ++ [(OEndFile "b.h" (variant_label "b.h" active'),
            ("/* end file " ++ label ("b.h", variant_label "b.h" active')
             ++ " */")%string)])%list.
Proof.
  apply (proj1 (written_files_are_framed tree_cycle 1) "b.h"
           (set_found_includes {["a.h"]} (new_amalgamator [] repo_ab))
           (write_file tree_cycle 1 "b.h"
              (set_found_includes {["a.h"]} (new_amalgamator [] repo_ab))).2).
  vm_compute. reflexivity.
Defined.

(** ** The files that change SIMDJSON_AMALGAMATED *)

(** In a file that is not a free dependency the directives on
    SIMDJSON_AMALGAMATED fail before the flag is touched. *)
Lemma amalgamated_step_keeps_flag disk file line b :
  free_dependency_by_path file = false ->
  keeps (fun a => amalgamated_defined a = b) (fun _ => True)
    (amalgamated_step disk file line).
Proof.
  intros Hf a Ia. unfold amalgamated_step.
  destruct (Re.define_amalgamated line); [|destruct (Re.undef_amalgamated line)];
    [| |done];
    cbv beta iota zeta delta [bind get ret assert raise modify write];
    (destruct (on_repository (is_amalgamated disk file) a) as [[e|x] a1] eqn:Ha;
     [apply on_repository_inv in Ha as (_&_&_&_&_&_&_&Hd&_); split; [done|congruence]|]);
    apply on_repository_is_amalgamated in Ha as [-> Hd]; rewrite Hf; simpl;
    (split; [done|congruence]).
Qed.

Lemma line_step_keeps_flag disk file line b :
  free_dependency_by_path file = false ->
  keeps (fun a => amalgamated_defined a = b) (fun _ => True)
    (line_step disk file line).
Proof.
  intros Hf.
  pose proof (fun l => amalgamated_step_keeps_flag disk file l b Hf).
  unfold line_step, implementation_step. auto 40 with keeps.
Qed.

(** C10, as amended. Outside an editor-only region, a line that
    defines or undefines SIMDJSON_AMALGAMATED is fatal in a file that
    is not a free dependency; where such a line is accepted the file is
    a free dependency; and in a free-dependency file it is accepted
    exactly when the flag is in the other state. Inside an editor-only
    region the line is only quoted in a comment and the state is
    otherwise as before. Whatever the line is, where the loop body up
    to the call of [maybe_write_file] returns with the flag changed,
    the file is a free dependency and the line was outside an
    editor-only region. *)
Theorem amalgamated_flag_in_free_dependency_files_only disk mwf file a :
  (forall line,
     Re.define_amalgamated line = true \/ Re.undef_amalgamated line = true ->
     (editor_only_region a = false ->
        (free_dependency_by_path file = false ->
           exists e a', process_line disk mwf file line a = (inl e, a'))
        /\ (forall a', process_line disk mwf file line a = (inr tt, a') ->
              free_dependency_by_path file = true)
        /\ (free_dependency_by_path file = true ->
              (exists a', process_line disk mwf file line a = (inr tt, a'))
              <-> (Re.define_amalgamated line = true
                   /\ amalgamated_defined a = false)
                  \/ (Re.undef_amalgamated line = true
                      /\ amalgamated_defined a = true)))
     /\ (editor_only_region a = true ->
           process_line disk mwf file line a
           = (inr tt,
              set_fid (fid a ++ [(OEditorOnly,
                                  "/* amalgamation skipped (editor-only): "
                                  ++ line ++ " */")])
                a)))
  /\ (forall line target a',
        line_step disk file line a = (inr target, a') ->
        amalgamated_defined a' <> amalgamated_defined a ->
        free_dependency_by_path file = true /\ editor_only_region a = false).
Proof.
  split.
  - intros line Hl.
    split; [|intros Hr; by apply process_line_amalgamated_directive_in_region].
    intros Hr. rewrite (process_line_amalgamated_directive disk _ _ _ _ Hr Hl).
    unfold amalgamated_step.
    destruct (free_dependency_by_path file) eqn:Hf.
    + pose proof (is_amalgamated_free_dependency disk file a Hf) as Ha.
      split; [done|]. split; [done|]. intros _.
      destruct Hl as [Hl|Hl]; rewrite ?(undef_not_define _ Hl), Hl;
        cbv beta iota zeta delta [bind get ret assert raise modify write];
        rewrite Ha; simpl; destruct (amalgamated_defined a); simpl;
        pose proof (undef_not_define line) as Hu;
        split; try (intros [a' [=]]); try (by eauto);
        try (intros [[? ?]|[? ?]]; congruence).
      all: intros [[? ?]|[Hx ?]]; try congruence; specialize (Hu Hx); congruence.
    + destruct Hl as [Hl|Hl]; rewrite ?(undef_not_define _ Hl), Hl;
        cbv beta iota zeta delta [bind get ret assert raise modify write];
        (destruct (on_repository (is_amalgamated disk file) a)
           as [[e|b] a1] eqn:Ha; [split; [eauto|done]|]);
        apply on_repository_is_amalgamated in Ha as [-> Hd]; rewrite Hf; simpl;
        (split; [eauto|done]).
  - intros line target a' H Hd.
    destruct (editor_only_region a) eqn:Hr.
    + destruct (line_step_region_outcome disk file line a _ a' Hr H) as [Hn Ho].
      destruct target as [g|]; [by destruct (Hn g)|].
      destruct (Ho eq_refl) as (_&_&_&Hd'&_). by destruct Hd.
    + split; [|done]. destruct (free_dependency_by_path file) eqn:Hf; [done|].
      pose proof (line_step_keeps_flag disk file line (amalgamated_defined a) Hf
                    a eq_refl) as K.
      rewrite H in K. by destruct Hd.
Qed.

(** C10 fails as stated: [generic/amalgamated.h] is not a free
    dependency and holds an [#undef] of SIMDJSON_AMALGAMATED in its
    editor-only region; the line is quoted in a comment, the flag
    stays defined up to the [#undef] of the aggregator, and the run
    completes. *)
Lemma undef_in_amalgamated_file_is_accepted :
  let r := amalgamate tree_region_undef 3 "simdjson.cpp" [src; include] "now" in
  free_dependency_by_path "generic/amalgamated.h" = false
  /\ closed r = true /\ failure r = None
  /\ text r
     = [ "/* auto-generated on now. Do not edit! */";
         "/* including simdjson.cpp:  */";
         "/* begin file simdjson.cpp */";
         "/* including generic/dependencies.h: "
           ++ inc "generic/dependencies.h" ++ " */";
         "/* begin file generic/dependencies.h */";
         "/* end file generic/dependencies.h */";
         "/* defining SIMDJSON_AMALGAMATED */";
         "#define SIMDJSON_AMALGAMATED";
         "/* defining SIMDJSON_IMPLEMENTATION to " ++ quoted "arm64" ++ " */";
         "#define SIMDJSON_IMPLEMENTATION arm64";
         "/* including generic/amalgamated.h for arm64: "
           ++ inc "generic/amalgamated.h" ++ " */";
         "/* begin file generic/amalgamated.h for arm64 */";
         "/* amalgamation skipped (editor-only): #ifndef SIMDJSON_AMALGAMATED */";
         "/* amalgamation skipped (editor-only): #undef SIMDJSON_AMALGAMATED */";
         "/* amalgamation skipped (editor-only): #endif // SIMDJSON_AMALGAMATED */";
         "int g;";
         "/* end file generic/amalgamated.h for arm64 */";
         "/* undefining SIMDJSON_AMALGAMATED */";
         "#undef SIMDJSON_AMALGAMATED";
         "/* end file simdjson.cpp */" ].
Proof. vm_compute. done. Qed.

Lemma amalgamated_flag_in_free_dependency_files_only_witness :
  (exists e a',
     process_line tree_missing (maybe_write_file tree_missing 0)
       "generic/amalgamated.h" "#undef SIMDJSON_AMALGAMATED"
       (new_amalgamator [] {| relative_roots := [src; include]; files := [] |})
     = (inl e, a'))
  /\ (exists a',
        process_line tree_missing (maybe_write_file tree_missing 0)
          "generic/dependencies.h" "#define SIMDJSON_AMALGAMATED"
          (new_amalgamator [] {| relative_roots := [src; include]; files := [] |})
        = (inr tt, a'))
  /\ process_line tree_missing (maybe_write_file tree_missing 0)
       "generic/amalgamated.h" "#undef SIMDJSON_AMALGAMATED"
       (set_editor_only_region true
          (new_amalgamator [] {| relative_roots := [src; include]; files := [] |}))
     = (inr tt,
        set_fid [(OEditorOnly,
                  "/* amalgamation skipped (editor-only): #undef SIMDJSON_AMALGAMATED */")]
          (set_editor_only_region true
             (new_amalgamator [] {| relative_roots := [src; include]; files := [] |})))
  /\ (free_dependency_by_path "generic/dependencies.h" = true
      /\ editor_only_region
           (new_amalgamator [] {| relative_roots := [src; include]; files := [] |})
         = false).
Proof.
  split; [|split; [|split]].
  - exact (proj1 (proj1 (proj1 (amalgamated_flag_in_free_dependency_files_only
             tree_missing (maybe_write_file tree_missing 0) "generic/amalgamated.h"
             (new_amalgamator [] {| relative_roots := [src; include]; files := [] |}))
             "#undef SIMDJSON_AMALGAMATED" (or_intror eq_refl)) eq_refl) eq_refl).
  - exact (proj2 (proj2 (proj2 (proj1 (proj1
             (amalgamated_flag_in_free_dependency_files_only
                tree_missing (maybe_write_file tree_missing 0)
                "generic/dependencies.h"
                (new_amalgamator [] {| relative_roots := [src; include]; files := [] |}))
             "#define SIMDJSON_AMALGAMATED" (or_introl eq_refl)) eq_refl))
             eq_refl) (or_introl (conj eq_refl eq_refl))).
  - exact (proj2 (proj1 (amalgamated_flag_in_free_dependency_files_only
             tree_missing (maybe_write_file tree_missing 0) "generic/amalgamated.h"
             (set_editor_only_region true
                (new_amalgamator [] {| relative_roots := [src; include]; files := [] |})))
             "#undef SIMDJSON_AMALGAMATED" (or_intror eq_refl)) eq_refl).
  - apply (proj2 (amalgamated_flag_in_free_dependency_files_only
             tree_missing (maybe_write_file tree_missing 0)
             "generic/dependencies.h"
             (new_amalgamator [] {| relative_roots := [src; include]; files := [] |}))
             "#define SIMDJSON_AMALGAMATED" None
             (line_step tree_missing "generic/dependencies.h"
                "#define SIMDJSON_AMALGAMATED"
                (new_amalgamator []
                   {| relative_roots := [src; include]; files := [] |})).2).
    + vm_compute. reflexivity.
    + vm_compute. discriminate.
Defined.
